(** * vs-transitions: the movis bridge

    A shallow embedding of [src/vstransitions/libs/movis.py]: the frame
    source [MovisVSVideoSource], the audio stub [MovisVSAudioSource] and the
    composition bridge [MovisSceneVSWrap], with the properties the
    specification states about them.

    Conventions.
    - Python exceptions are values of [exn]; a computation that may raise
      returns a [result].
    - A Python [float] is an IEEE 754 binary64 number, modelled by the
      Standard Library's [spec_float] at precision 53 and maximal exponent
      1024; arithmetic is [SFmul], [SFdiv] and [SFltb] at those parameters.
    - A [Fraction] is a [Q], kept in lowest terms with [Qred].
    - A [dict] is an association list in insertion order.
    - VapourSynth (clips, [resize], [PropToClip]) and the movis scene are
      external: what the module needs from them is a record of operations
      ([Engine], [SceneClass]) that the constructor and the bridge take. *)

From Stdlib Require Import ZArith List Bool Lia.
From Stdlib Require Import QArith Qreduction Qround SpecFloat.
From Stdlib Require Import String.
Import ListNotations.

Local Open Scope Z_scope.

(** ** Exceptions and fallible computations *)

Inductive exn : Type :=
| KeyError
| ValueError
| OverflowError
| ZeroDivisionError
| NotImplementedError
| TypeError
| IndexError
| AttributeError
| VSError.

Inductive result (A : Type) : Type :=
| Ok (a : A)
| Raise (e : exn).

Arguments Ok {A} a.
Arguments Raise {A} e.

Definition bind {A B : Type} (c : result A) (k : A -> result B) : result B :=
  match c with
  | Ok a => k a
  | Raise e => Raise e
  end.

Notation "x <- c ;; k" := (bind c (fun x => k))
  (at level 61, c at next level, right associativity).

(** ** Python numbers *)

Module Py.

Definition float : Type := spec_float.

Definition prec : Z := 53.
Definition emax : Z := 1024.

Definition fzero : float := S754_zero false.

(** [a < b] on floats. *)
Definition flt (a b : float) : bool := SFltb a b.

(** [a <= b] on floats. *)
Definition fle (a b : float) : bool := SFleb a b.

(** [a * b] on floats. *)
Definition fmul (a b : float) : float := SFmul prec emax a b.

(** The float is a number of the format: its mantissa and exponent are the
    canonical ones. *)
Definition fvalid (a : float) : bool := valid_binary prec emax a.

(** [int(x)]: truncation towards zero; [ValueError] on a NaN and
    [OverflowError] on an infinity. *)
Definition int_of_float (x : float) : result Z :=
  match x with
  | S754_nan => Raise ValueError
  | S754_infinity _ => Raise OverflowError
  | S754_zero _ => Ok 0
  | S754_finite s m e => Ok (cond_Zopp s (Z.shiftl (Zpos m) e))
  end.

(** [math.floor(x)]: the largest integer not above [x], with the errors of
    [int]. *)
Definition floor (x : float) : result Z :=
  match x with
  | S754_nan => Raise ValueError
  | S754_infinity _ => Raise OverflowError
  | S754_zero _ => Ok 0
  | S754_finite s m e => Ok (Z.shiftl (cond_Zopp s (Zpos m)) e)
  end.

(** An integer as an unrounded binary number. *)
Definition exact_of_Z (a : Z) : float :=
  match a with
  | Z0 => S754_zero false
  | Zpos p => S754_finite false p 0
  | Zneg p => S754_finite true p 0
  end.

(** [a / b] on integers (true division): the correctly rounded quotient. *)
Definition int_truediv (a b : Z) : result float :=
  if b =? 0 then Raise ZeroDivisionError
  else
    match SFdiv prec emax (exact_of_Z a) (exact_of_Z b) with
    | S754_infinity _ => Raise OverflowError
    | x => Ok x
    end.

Definition Fraction : Type := Q.

(** [Fraction(a) / b] for a Fraction [b]. *)
Definition fraction_div (a b : Fraction) : result Fraction :=
  if Qnum b =? 0 then Raise ZeroDivisionError
  else Ok (Qred (Qdiv a b)).

(** [float(q)] is [q.numerator / q.denominator]. *)
Definition float_of_fraction (q : Fraction) : result float :=
  let r := Qred q in int_truediv (Qnum r) (Zpos (Qden r)).

(** [x * q] for a float [x] and a Fraction [q]: the Fraction is converted
    first ([Fraction.__rmul__] with a float on the left). *)
Definition fmul_fraction (x : float) (q : Fraction) : result float :=
  f <- float_of_fraction q ;;
  Ok (fmul x f).

End Py.

(** ** The specification's key

    [floor(time x frame_rate)] as the specification words it: the exact
    value of the time, times the exact rate, rounded down. Nothing here is
    rounded to a float. *)

(** The number a float stands for; a NaN and the infinities stand for
    none. *)
Definition Q_of_float (x : Py.float) : option Q :=
  match x with
  | S754_zero _ => Some (inject_Z 0)
  | S754_finite s m e =>
      Some (match e with
            | Zneg k => Qmake (cond_Zopp s (Zpos m)) (Pos.pow 2 k)
            | _ => inject_Z (cond_Zopp s (Zpos m) * 2 ^ e)
            end)
  | _ => None
  end.

Definition floor_of_product (time : Py.float) (frame_rate : Py.Fraction)
  : option Z :=
  match Q_of_float time with
  | Some v => Some (Qfloor (Qmult v frame_rate))
  | None => None
  end.

(** ** VapourSynth clips, as far as the module reads them *)

Inductive Format : Type :=
| GRAY8
| RGB24
| OtherFormat (planes : nat) (bits : Z).

Definition format_planes (f : Format) : nat :=
  match f with
  | GRAY8 => 1
  | RGB24 => 3
  | OtherFormat n _ => n
  end.

Definition format_bits (f : Format) : Z :=
  match f with
  | GRAY8 => 8
  | RGB24 => 8
  | OtherFormat _ b => b
  end.

(** A plane is a two-dimensional array, a list of rows. *)
Definition Plane : Type := list (list Z).

Definition Frame : Type := list Plane.

Record VideoNode : Type := {
  vn_format : Format;
  vn_width : Z;
  vn_height : Z;
  vn_num_frames : Z;
  vn_fps : Py.Fraction;
  vn_frames : Z -> Frame
}.

(** [clip.get_frame(n)]. *)
Definition get_frame (clip : VideoNode) (n : Z) : result Frame :=
  if (0 <=? n) && (n <? vn_num_frames clip) then Ok (vn_frames clip n)
  else Raise VSError.

(** A clip of constant frame rate as the engine holds it: the frame count
    is a positive [int], the rate a fraction of two positive [int64_t]. *)
Definition cfr_clip (clip : VideoNode) : Prop :=
  0 < vn_num_frames clip < 2 ^ 31 /\
  0 < Qnum (vn_fps clip) < 2 ^ 63 /\
  Zpos (Qden (vn_fps clip)) < 2 ^ 63.

(** [frame[i]]. *)
Definition frame_plane (f : Frame) (i : nat) : result Plane :=
  match nth_error f i with
  | Some p => Ok p
  | None => Raise IndexError
  end.

(** vstools' [FramesCache]: a bounded mapping from a frame number to the
    clip's frame, filled on a miss. With room for at least one frame a
    lookup returns the clip's frame whether it was cached or not, so only
    the clip and the capacity are kept. *)
Record FramesCache : Type := {
  fc_clip : VideoNode;
  fc_size : Z
}.

Definition FramesCache_getitem (c : FramesCache) (n : Z) : result Frame :=
  get_frame (fc_clip c) n.

Record AudioNode : Type := {
  an_num_samples : Z
}.

(** Truth value of an audio node: [len(audio) != 0]. *)
Definition audio_truthy (a : AudioNode) : bool :=
  negb (an_num_samples a =? 0).

(** ** numpy, as far as the module uses it *)

Module Np.

(** The result of [dstack]: the stacked planes, in depth order. *)
Definition ndarray : Type := list Plane.

Definition shape (p : Plane) : nat * nat :=
  (List.length p, match p with [] => O | r :: _ => List.length r end).

Definition shape_eqb (a b : nat * nat) : bool :=
  Nat.eqb (fst a) (fst b) && Nat.eqb (snd a) (snd b).

(** [np.asarray(arr, np.uint8)]. *)
Definition asarray_uint8 (p : Plane) : Plane :=
  map (map (fun v => v mod 256)) p.

(** [np.dstack(planes)]: all planes must have one shape. *)
Definition dstack (planes : list Plane) : result ndarray :=
  match planes with
  | [] => Raise ValueError
  | p :: rest =>
      if forallb (fun q => shape_eqb (shape q) (shape p)) rest then Ok planes
      else Raise ValueError
  end.

(** [arr[:, :, plane]]. *)
Definition depth_slice (arr : ndarray) (plane : Z) : result Plane :=
  let n := Z.of_nat (List.length arr) in
  if (plane <? - n) || (n <=? plane) then Raise IndexError
  else
    match nth_error arr (Z.to_nat (if plane <? 0 then plane + n else plane)) with
    | Some p => Ok p
    | None => Raise IndexError
    end.

(** Broadcasting of one axis: a list of the wanted length is kept, a list
    of length one is repeated, any other length is refused. *)
Definition broadcast_axis {A : Type} (l : list A) (n : nat) : result (list A) :=
  if Nat.eqb (List.length l) n then Ok l
  else
    match l with
    | [x] => Ok (repeat x n)
    | _ => Raise ValueError
    end.

Fixpoint broadcast_rows (rows : list (list Z)) (w : nat) : result Plane :=
  match rows with
  | [] => Ok []
  | r :: rest =>
      r' <- broadcast_axis r w ;;
      rest' <- broadcast_rows rest w ;;
      Ok (r' :: rest')
  end.

(** [np.copyto(dst, src)]: the new contents of [dst], which are [src]
    broadcast to the shape of [dst]. *)
Definition copyto (dst src : Plane) : result Plane :=
  rows <- broadcast_rows src (snd (shape dst)) ;;
  broadcast_axis rows (fst (shape dst)).

End Np.

(** ** MovisVSAudioSource *)

Record MovisVSAudioSource : Type := {
  as_audio_node : AudioNode
}.

Definition MovisVSAudioSource_init (audio_node : AudioNode)
  : result MovisVSAudioSource :=
  Raise NotImplementedError.

Definition MovisVSAudioSource_get_audio (self : MovisVSAudioSource)
    (start_time end_time : Py.float) : result (option Np.ndarray) :=
  Raise NotImplementedError.

(** ** MovisVSVideoSource *)

Record MovisVSVideoSource : Type := {
  video_node : VideoNode;
  video_alpha_node : VideoNode;
  _audio : option AudioNode;
  _audio_layer : option MovisVSAudioSource;
  _video_cache : FramesCache;
  _video_alpha_cache : FramesCache
}.

Module VideoSource.

(** The [fps] property is [float(self.video_node.fps)]. *)
Definition fps (self : MovisVSVideoSource) : result Py.float :=
  Py.float_of_fraction (vn_fps (video_node self)).

Definition size (self : MovisVSVideoSource) : Z * Z :=
  (vn_width (video_node self), vn_height (video_node self)).

Definition n_frame (self : MovisVSVideoSource) : Z :=
  vn_num_frames (video_node self).

(** [float(self.video_node.num_frames / self.video_node.fps)]. *)
Definition duration (self : MovisVSVideoSource) : result Py.float :=
  q <- Py.fraction_div (inject_Z (vn_num_frames (video_node self)))
                       (vn_fps (video_node self)) ;;
  Py.float_of_fraction q.

Definition has_audio (self : MovisVSVideoSource) : bool :=
  match _audio_layer self with
  | Some _ => true
  | None => false
  end.

Definition audio (self : MovisVSVideoSource) : bool :=
  match _audio self with
  | Some _ => true
  | None => false
  end.

(** [get_key]: [or] evaluates the duration only when [time < 0] is false. *)
Definition get_key (self : MovisVSVideoSource) (time : Py.float) : result Z :=
  out <- (if Py.flt time Py.fzero then Ok true
          else d <- duration self ;; Ok (Py.flt d time)) ;;
  if (out : bool) then Ok (-1)
  else
    x <- Py.fmul_fraction time (vn_fps (video_node self)) ;;
    Py.int_of_float x.

(** [__call__]. *)
Definition call (self : MovisVSVideoSource) (time : Py.float)
  : result (option Np.ndarray) :=
  frame_index <- get_key self time ;;
  if (frame_index <? 0) || (frame_index >=? n_frame self) then Ok None
  else
    frame <- FramesCache_getitem (_video_cache self) frame_index ;;
    alpha_frame <- FramesCache_getitem (_video_alpha_cache self) frame_index ;;
    p0 <- frame_plane frame 0 ;;
    p1 <- frame_plane frame 1 ;;
    p2 <- frame_plane frame 2 ;;
    a0 <- frame_plane alpha_frame 0 ;;
    arr <- Np.dstack [Np.asarray_uint8 p0; Np.asarray_uint8 p1;
                      Np.asarray_uint8 p2; Np.asarray_uint8 a0] ;;
    Ok (Some arr).

Definition get_audio (self : MovisVSVideoSource)
    (start_time end_time : Py.float) : result (option Np.ndarray) :=
  match _audio self, _audio_layer self with
  | Some a, Some layer =>
      if audio_truthy a
      then MovisVSAudioSource_get_audio layer start_time end_time
      else Ok None
  | _, _ => Ok None
  end.

End VideoSource.


(** ** The constructor of MovisVSVideoSource *)

(** [video_node: VideoNode | tuple[VideoNode, VideoNode | bool]]. *)
Inductive AlphaArg : Type :=
| AlphaNode (a : VideoNode)
| AlphaFlag (b : bool).

Inductive VideoArg : Type :=
| OneNode (v : VideoNode)
| NodePair (v : VideoNode) (a : AlphaArg).

(** [core.std.BlankClip(clip, format=format, color=color, keep=True)]: the
    clip's dimensions, length and rate, every sample [color]. *)
Definition blank_frame (f : Format) (w h : Z) (color : Z) : Frame :=
  repeat (repeat (repeat color (Z.to_nat w)) (Z.to_nat h)) (format_planes f).

Definition BlankClip (clip : VideoNode) (format : Format) (color : Z)
  : VideoNode := {|
  vn_format := format;
  vn_width := vn_width clip;
  vn_height := vn_height clip;
  vn_num_frames := vn_num_frames clip;
  vn_fps := vn_fps clip;
  vn_frames := fun _ => blank_frame format (vn_width clip) (vn_height clip) color
|}.

(** The engine's side of the constructor. [Kwargs] are the keyword
    arguments handed through to [resize.Bicubic]; [no_kwargs] is their
    absence. Both engine calls may raise. *)
Record Engine : Type := {
  Kwargs : Type;
  no_kwargs : Kwargs;
  resize_Bicubic : VideoNode -> Format -> Kwargs -> result VideoNode;
  PropToClip : VideoNode -> string -> result VideoNode;
  num_threads : Z
}.

Module VideoSourceInit.

(** Lines 19 to 22: a tuple is taken apart, a single clip comes with the
    flag [True]. *)
Definition arg_video (video_node : VideoArg) : VideoNode :=
  match video_node with
  | OneNode v => v
  | NodePair v _ => v
  end.

Definition arg_alpha (video_node : VideoArg) : AlphaArg :=
  match video_node with
  | OneNode _ => AlphaFlag true
  | NodePair _ a => a
  end.

(** [self._audio_layer = MovisVSAudioSource(audio) if audio else None]. *)
Definition audio_layer (audio : option AudioNode)
  : result (option MovisVSAudioSource) :=
  match audio with
  | Some a =>
      if audio_truthy a
      then layer <- MovisVSAudioSource_init a ;; Ok (Some layer)
      else Ok None
  | None => Ok None
  end.

Section WithEngine.

Variable core : Engine.

(** The alpha clip before its conversion (lines 24 to 31): a given clip is
    kept; otherwise the [_Alpha] property is tried unless the flag is false,
    and any exception gives the opaque blank clip. *)
Definition alpha_clip (video_node : VideoNode) (video_alpha_node : AlphaArg)
  : VideoNode :=
  match video_alpha_node with
  | AlphaNode a => a
  | AlphaFlag b =>
      match (if negb b then Raise TypeError
             else PropToClip core video_node "_Alpha") with
      | Ok a => a
      | Raise _ => BlankClip video_node GRAY8 255
      end
  end.

(** [__init__]. [SetVideoCache] changes no observable value and is left
    out. *)
Definition init (video_node : VideoArg) (audio : option AudioNode)
    (kwargs : Kwargs core) : result MovisVSVideoSource :=
  let video_alpha_node := arg_alpha video_node in
  let video_node := arg_video video_node in
  let video_alpha_node := alpha_clip video_node video_alpha_node in
  self_video_node <- resize_Bicubic core video_node RGB24 kwargs ;;
  self_video_alpha_node <-
    resize_Bicubic core video_alpha_node GRAY8 (no_kwargs core) ;;
  layer <- audio_layer audio ;;
  Ok {| video_node := self_video_node;
        video_alpha_node := self_video_alpha_node;
        _audio := audio;
        _audio_layer := layer;
        _video_cache :=
          {| fc_clip := self_video_node; fc_size := num_threads core * 2 |};
        _video_alpha_cache :=
          {| fc_clip := self_video_alpha_node;
             fc_size := num_threads core * 2 |} |}.

End WithEngine.
End VideoSourceInit.

(** ** Python containers *)

Module PyDict.
Section Dict.

Context {K V : Type}.
Variable eqb : K -> K -> bool.

(** The entries in insertion order; a dict holds a key once. *)
Definition t : Type := list (K * V).

Definition keys (d : t) : list K := map fst d.

Definition len (d : t) : Z := Z.of_nat (List.length d).

Fixpoint contains (k : K) (d : t) : bool :=
  match d with
  | [] => false
  | (k', _) :: rest => eqb k k' || contains k rest
  end.

Fixpoint getitem (k : K) (d : t) : result V :=
  match d with
  | [] => Raise KeyError
  | (k', v) :: rest => if eqb k k' then Ok v else getitem k rest
  end.

(** [d[k] = v]: a present key keeps its place, a new one goes last. *)
Fixpoint setitem (k : K) (v : V) (d : t) : t :=
  match d with
  | [] => [(k, v)]
  | (k', v') :: rest =>
      if eqb k k' then (k', v) :: rest else (k', v') :: setitem k v rest
  end.

(** [del d[k]]. *)
Fixpoint delitem (k : K) (d : t) : result t :=
  match d with
  | [] => Raise KeyError
  | (k', v) :: rest =>
      if eqb k k' then Ok rest
      else rest' <- delitem k rest ;; Ok ((k', v) :: rest')
  end.

(** [for k in ks: del d[k]]: the outcome and the dict as the loop left it. *)
Fixpoint del_each (ks : list K) (d : t) : result unit * t :=
  match ks with
  | [] => (Ok tt, d)
  | k :: rest =>
      match delitem k d with
      | Ok d' => del_each rest d'
      | Raise e => (Raise e, d)
      end
  end.

End Dict.
End PyDict.

(** [l[:n]]: a negative [n] counts from the end. *)
Definition slice_to {A : Type} (l : list A) (n : Z) : list A :=
  if n <? 0 then firstn (List.length l - Z.to_nat (- n)) l
  else firstn (Z.to_nat n) l.

(** ** The movis scene, as far as the bridge reads it *)

(** A rate as a layer may hold it. *)
Inductive Number : Type :=
| NInt (z : Z)
| NFloat (f : Py.float)
| NFraction (q : Py.Fraction).

(** [Fraction(x)]: exact for every number it accepts. *)
Definition Fraction_of (x : Number) : result Py.Fraction :=
  match x with
  | NInt z => Ok (inject_Z z)
  | NFraction q => Ok (Qred q)
  | NFloat S754_nan => Raise ValueError
  | NFloat (S754_infinity _) => Raise OverflowError
  | NFloat (S754_zero _) => Ok (inject_Z 0)
  | NFloat (S754_finite s m e) =>
      Ok (Qred (match e with
                | Zneg k => Qmake (cond_Zopp s (Zpos m)) (Pos.pow 2 k)
                | _ => inject_Z (cond_Zopp s (Zpos m) * 2 ^ e)
                end))
  end.

(** The objects of a scene's layer list: a video source of this module, a
    [LayerItem] with its [layer], or a layer of another kind with its [fps]
    attribute when it has one. *)
Inductive Layer : Type :=
| SourceLayer (s : MovisVSVideoSource)
| ItemLayer (layer : Layer)
| OtherLayer (fps : option Number).

(** [if isinstance(layer, LayerItem): layer = layer.layer]. *)
Definition unwrap (layer : Layer) : Layer :=
  match layer with
  | ItemLayer inner => inner
  | _ => layer
  end.

Definition is_source (layer : Layer) : bool :=
  match layer with
  | SourceLayer _ => true
  | _ => false
  end.

(** [layer.layer]: only a [LayerItem] has the attribute. *)
Definition layer_attr (layer : Layer) : result Layer :=
  match layer with
  | ItemLayer inner => Ok inner
  | _ => Raise AttributeError
  end.

(** [layer.fps]. *)
Definition fps_attr (layer : Layer) : result Number :=
  match layer with
  | SourceLayer s => f <- VideoSource.fps s ;; Ok (NFloat f)
  | ItemLayer _ => Raise AttributeError
  | OtherLayer (Some r) => Ok r
  | OtherLayer None => Raise AttributeError
  end.

Record Composition (Key : Type) : Type := {
  size : Z * Z;
  duration : Py.float;
  _layers : list Layer;
  _cache : PyDict.t (K := Key) (V := Np.ndarray)
}.

Arguments size {Key} _.
Arguments duration {Key} _.
Arguments _layers {Key} _.
Arguments _cache {Key} _.

Definition set_cache {Key : Type} (s : Composition Key)
    (c : PyDict.t (K := Key) (V := Np.ndarray)) : Composition Key :=
  {| size := size s; duration := duration s; _layers := _layers s;
     _cache := c |}.

(** The scene's class: equality of its cache keys and its frame-production
    callable, which returns the frame or nothing, or raises, and in each
    case leaves the scene as the call made it. *)
Record SceneClass (Key : Type) : Type := {
  key_eqb : Key -> Key -> bool;
  scene_call :
    Composition Key -> Py.float -> result (option Np.ndarray) * Composition Key
}.

Arguments key_eqb {Key} _ _ _.
Arguments scene_call {Key} _ _ _.

(** ** MovisSceneVSWrap *)

Record MovisSceneVSWrap (Key : Type) : Type := {
  scene : Composition Key;
  width : Z;
  height : Z;
  fps : Py.Fraction
}.

Arguments scene {Key} _.
Arguments width {Key} _.
Arguments height {Key} _.
Arguments fps {Key} _.

Module Bridge.
Section WithScene.

Context {Key : Type}.
Variable cls : SceneClass Key.

(** [core.num_threads]. *)
Variable num_threads : Z.

(** The [for] loop of [__init__] (lines 125 to 131): the rate of the first
    layer that, unwrapped, is a video source; [None] when the loop ends
    without [break]. *)
Fixpoint scan_layers (layers : list Layer) : option Py.Fraction :=
  match layers with
  | [] => None
  | layer :: rest =>
      match unwrap layer with
      | SourceLayer s => Some (vn_fps (video_node s))
      | _ => scan_layers rest
      end
  end.

(** The [else] branch of the loop (lines 133 to 138). *)
Definition first_layer_fps (layers : list Layer) : result Py.Fraction :=
  match layers with
  | [] => Raise IndexError
  | first :: _ =>
      layer <- layer_attr first ;;
      r <- fps_attr (unwrap layer) ;;
      Fraction_of r
  end.

Definition infer_fps (s : Composition Key) (fps : option Py.Fraction)
  : result Py.Fraction :=
  match fps with
  | None =>
      match scan_layers (_layers s) with
      | Some f => Ok f
      | None => first_layer_fps (_layers s)
      end
  | Some f => Ok f
  end.

(** [__init__]. The lock and the blank base clip are not read by
    [_to_node] and are left out. *)
Definition init (s : Composition Key) (fps : option Py.Fraction)
  : result (MovisSceneVSWrap Key) :=
  let s := set_cache s [] in
  f <- infer_fps s fps ;;
  Ok {| scene := s; width := fst (size s); height := snd (size s); fps := f |}.

Definition set_scene (self : MovisSceneVSWrap Key) (s : Composition Key)
  : MovisSceneVSWrap Key :=
  {| scene := s; width := width self; height := height self; fps := fps self |}.

(** [float(n / self.fps)]. *)
Definition time_of (self : MovisSceneVSWrap Key) (n : Z) : result Py.float :=
  q <- Py.fraction_div (inject_Z n) (fps self) ;;
  Py.float_of_fraction q.

(** The trim under the lock (lines 155 to 158), on the cache. *)
Definition trim (c : PyDict.t (K := Key) (V := Np.ndarray))
  : result unit * PyDict.t (K := Key) (V := Np.ndarray) :=
  if PyDict.len c >? num_threads * 2
  then PyDict.del_each (key_eqb cls) (slice_to (PyDict.keys c) num_threads) c
  else (Ok tt, c).

(** [_to_node]: the outcome, the bridge and the destination buffer as the
    call left them. An exception raised inside the scene leaves the call
    at once. Calls are taken one at a time, so the lock has no effect. *)
Definition _to_node (self : MovisSceneVSWrap Key) (n plane : Z) (dst : Plane)
  : result unit * (MovisSceneVSWrap Key * Plane) :=
  match time_of self n with
  | Raise e => (Raise e, (self, dst))
  | Ok time =>
      let '(frame, s) := scene_call cls (scene self) time in
      match frame with
      | Raise e => (Raise e, (set_scene self s, dst))
      | Ok None => (Raise KeyError, (set_scene self s, dst))
      | Ok (Some frame) =>
          match (src <- Np.depth_slice frame plane ;; Np.copyto dst src) with
          | Raise e => (Raise e, (set_scene self s, dst))
          | Ok dst' =>
              let '(r, c) := trim (_cache s) in
              (r, (set_scene self (set_cache s c), dst'))
          end
      end
  end.

(** The callback of the [alpha] node. *)
Definition alpha_node (self : MovisSceneVSWrap Key) (n : Z) (dst : Plane)
  : result unit * (MovisSceneVSWrap Key * Plane) :=
  _to_node self n 3 dst.

End WithScene.
End Bridge.

(** ** A memoizing scene and a plain engine

    Two instances of the external parts, used to run the module on concrete
    inputs. The scene behaves as movis's [Composition.__call__]: no frame
    outside [0, duration), a cached frame when the key is present, a new
    frame inserted under its key otherwise. The engine's conversion keeps a
    clip whose format and size are already the wanted ones and fills a
    black frame of the wanted format and size otherwise; it finds no
    [_Alpha] property. *)

Definition memo_call (s : Composition Z) (time : Py.float)
  : result (option Np.ndarray) * Composition Z :=
  if Py.flt time Py.fzero || negb (Py.flt time (duration s))
  then (Ok None, s)
  else
    match Py.int_of_float time with
    | Raise _ => (Ok None, s)
    | Ok k =>
        match PyDict.getitem Z.eqb k (_cache s) with
        | Ok frame => (Ok (Some frame), s)
        | Raise _ =>
            let frame :=
              blank_frame (OtherFormat 4 8) (fst (size s)) (snd (size s)) k in
            (Ok (Some frame),
             set_cache s (PyDict.setitem Z.eqb k frame (_cache s)))
        end
    end.

Definition memo_scene : SceneClass Z := {|
  key_eqb := Z.eqb;
  scene_call := memo_call
|}.

Definition plain_resize (clip : VideoNode) (format : Format)
    (kwargs : option Z * option Z) : result VideoNode :=
  let w := match fst kwargs with Some w => w | None => vn_width clip end in
  let h := match snd kwargs with Some h => h | None => vn_height clip end in
  if (format_planes format =? format_planes (vn_format clip))%nat
     && (format_bits format =? format_bits (vn_format clip))
     && (w =? vn_width clip) && (h =? vn_height clip)
  then Ok clip
  else Ok {| vn_format := format; vn_width := w; vn_height := h;
             vn_num_frames := vn_num_frames clip; vn_fps := vn_fps clip;
             vn_frames := fun _ => blank_frame format w h 0 |}.

Definition plain_engine : Engine := {|
  Kwargs := option Z * option Z;
  no_kwargs := (None, None);
  resize_Bicubic := plain_resize;
  PropToClip := fun _ _ => Raise VSError;
  num_threads := 4
|}.

(** Some floats: [1.0], [3.0], [4.0] and [10.0]. *)
Definition one : Py.float := S754_finite false 4503599627370496 (-52).
Definition three : Py.float := S754_finite false 6755399441055744 (-51).
Definition four : Py.float := S754_finite false 4503599627370496 (-50).
Definition ten : Py.float := S754_finite false 5629499534213120 (-49).

(** [float(1/30)], a little below a thirtieth. *)
Definition thirtieth : Py.float := S754_finite false 4803839602528529 (-57).

(** The scenario of the specification: 90 frames at 30 frames per second. *)
Definition clip_30_90 : VideoNode := {|
  vn_format := RGB24;
  vn_width := 4;
  vn_height := 2;
  vn_num_frames := 90;
  vn_fps := 30 # 1;
  vn_frames := fun _ => blank_frame RGB24 4 2 0
|}.

Definition opaque_30_90 : VideoNode := {|
  vn_format := GRAY8;
  vn_width := 4;
  vn_height := 2;
  vn_num_frames := 90;
  vn_fps := 30 # 1;
  vn_frames := fun _ => blank_frame GRAY8 4 2 255
|}.

Definition source_30_90 : MovisVSVideoSource := {|
  video_node := clip_30_90;
  video_alpha_node := opaque_30_90;
  _audio := None;
  _audio_layer := None;
  _video_cache := {| fc_clip := clip_30_90; fc_size := 8 |};
  _video_alpha_cache := {| fc_clip := opaque_30_90; fc_size := 8 |}
|}.

(** Two seconds at 24 frames per second, four by two pixels. *)
Definition clip_24_48 : VideoNode := {|
  vn_format := OtherFormat 3 16;
  vn_width := 4;
  vn_height := 2;
  vn_num_frames := 48;
  vn_fps := 24 # 1;
  vn_frames := fun n => blank_frame (OtherFormat 3 16) 4 2 (1000 + n)
|}.

Definition source_24_48 : MovisVSVideoSource := {|
  video_node := BlankClip clip_24_48 RGB24 0;
  video_alpha_node := BlankClip clip_24_48 GRAY8 255;
  _audio := None;
  _audio_layer := None;
  _video_cache := {| fc_clip := BlankClip clip_24_48 RGB24 0; fc_size := 8 |};
  _video_alpha_cache :=
    {| fc_clip := BlankClip clip_24_48 GRAY8 255; fc_size := 8 |}
|}.

(** A source as it would be with an audio layer in place. *)
Definition source_with_audio : MovisVSVideoSource := {|
  video_node := BlankClip clip_24_48 RGB24 0;
  video_alpha_node := BlankClip clip_24_48 GRAY8 255;
  _audio := Some {| an_num_samples := 96000 |};
  _audio_layer := Some {| as_audio_node := {| an_num_samples := 96000 |} |};
  _video_cache := {| fc_clip := BlankClip clip_24_48 RGB24 0; fc_size := 8 |};
  _video_alpha_cache :=
    {| fc_clip := BlankClip clip_24_48 GRAY8 255; fc_size := 8 |}
|}.

(** A scene of ten seconds, two by one pixels, with a stale cache entry. *)
Definition memo_start : Composition Z := {|
  size := (2, 1);
  duration := ten;
  _layers := [];
  _cache := [(7, [])]
|}.

Definition memo_wrap : MovisSceneVSWrap Z := {|
  scene := set_cache memo_start [];
  width := 2;
  height := 1;
  fps := 1 # 1
|}.

Definition after_call (self : MovisSceneVSWrap Z) (n : Z) : MovisSceneVSWrap Z :=
  fst (snd (Bridge._to_node memo_scene 1 self n 0 [[0; 0]])).

(** A scene whose first layer has a rate of its own and whose second is a
    video source: the source's rate is taken. *)
Definition two_layer_scene : Composition Z := {|
  size := (4, 2);
  duration := ten;
  _layers := [ItemLayer (OtherLayer (Some (NInt 60)));
              ItemLayer (SourceLayer source_24_48)];
  _cache := []
|}.

(** A clip of variable rate, which the engine reports as a rate of zero. *)
Definition clip_vfr : VideoNode := {|
  vn_format := RGB24;
  vn_width := 4;
  vn_height := 2;
  vn_num_frames := 48;
  vn_fps := 0 # 1;
  vn_frames := fun _ => blank_frame RGB24 4 2 0
|}.

Definition source_vfr : MovisVSVideoSource := {|
  video_node := clip_vfr;
  video_alpha_node := BlankClip clip_vfr GRAY8 255;
  _audio := None;
  _audio_layer := None;
  _video_cache := {| fc_clip := clip_vfr; fc_size := 8 |};
  _video_alpha_cache := {| fc_clip := BlankClip clip_vfr GRAY8 255; fc_size := 8 |}
|}.

(** The source of two seconds with its colour stream converted to a width
    of two: the alpha stream keeps the width of four. *)
Definition clip_narrow : VideoNode := {|
  vn_format := RGB24;
  vn_width := 2;
  vn_height := 2;
  vn_num_frames := 48;
  vn_fps := 24 # 1;
  vn_frames := fun _ => blank_frame RGB24 2 2 0
|}.

Definition source_narrow : MovisVSVideoSource := {|
  video_node := clip_narrow;
  video_alpha_node := BlankClip clip_24_48 GRAY8 255;
  _audio := None;
  _audio_layer := None;
  _video_cache := {| fc_clip := clip_narrow; fc_size := 8 |};
  _video_alpha_cache :=
    {| fc_clip := BlankClip clip_24_48 GRAY8 255; fc_size := 8 |}
|}.

(** A scene without a video source, whose first layer has no rate. *)
Definition rateless_scene : Composition Z := {|
  size := (4, 2);
  duration := ten;
  _layers := [ItemLayer (OtherLayer None)];
  _cache := []
|}.

(** A cache of three entries, the oldest first. *)
Definition three_entries : PyDict.t (K := Z) (V := Np.ndarray) :=
  [(0, []); (1, []); (2, [])].

(** Two hundred frames at 30 frames per second, and a bridge of that
    rate. *)
Definition clip_30_200 : VideoNode := {|
  vn_format := RGB24;
  vn_width := 4;
  vn_height := 2;
  vn_num_frames := 200;
  vn_fps := 30 # 1;
  vn_frames := fun _ => blank_frame RGB24 4 2 0
|}.

Definition source_30_200 : MovisVSVideoSource := {|
  video_node := clip_30_200;
  video_alpha_node := BlankClip clip_30_200 GRAY8 255;
  _audio := None;
  _audio_layer := None;
  _video_cache := {| fc_clip := clip_30_200; fc_size := 8 |};
  _video_alpha_cache :=
    {| fc_clip := BlankClip clip_30_200 GRAY8 255; fc_size := 8 |}
|}.

Definition wrap_30 : MovisSceneVSWrap Z := {|
  scene := set_cache memo_start [];
  width := 2;
  height := 1;
  fps := 30 # 1
|}.

(** A scene without a cache of its own that hands the time to its one
    layer, a frame source of this module: what the layer raises leaves the
    scene's call. *)
Definition layer_call (layer : MovisVSVideoSource) (s : Composition Z)
    (time : Py.float) : result (option Np.ndarray) * Composition Z :=
  (VideoSource.call layer time, s).

Definition narrow_scene : SceneClass Z := {|
  key_eqb := Z.eqb;
  scene_call := layer_call source_narrow
|}.

(** A call for one plane of the frame of an index, into a buffer of the
    scene's size. *)
Definition after_plane_call (self : MovisSceneVSWrap Z) (n plane : Z)
  : MovisSceneVSWrap Z :=
  fst (snd (Bridge._to_node memo_scene 1 self n plane [[0; 0]])).

(** * Properties *)

(** ** Binary64 arithmetic

    What the properties of [get_key] need from the floats: the rounding of
    a product is monotone, and its truncation is the truncation of a
    rounded number of units of a common grid. *)

Module FloatProps.
Import Py.

(** *** Digits *)

Lemma digits2_size (p : positive) : digits2_pos p = Pos.size p.
Proof. induction p; simpl; congruence. Qed.

Lemma Zdigits2_log2 (p : positive) : Zdigits2 (Zpos p) = Z.log2 (Zpos p) + 1.
Proof.
  simpl. rewrite digits2_size. destruct p; simpl; lia.
Qed.

(** The number of binary digits of a positive integer. *)
Definition digits (m : Z) : Z := Z.log2 m + 1.

Lemma digits_bounds (m : Z) :
  0 < m -> 2 ^ (digits m - 1) <= m < 2 ^ digits m.
Proof.
  intros Hm. unfold digits. replace (Z.log2 m + 1 - 1) with (Z.log2 m) by lia.
  apply Z.log2_spec. exact Hm.
Qed.

Lemma digits_pos (m : Z) : 0 < m -> 0 < digits m.
Proof. intros Hm. unfold digits. pose proof (Z.log2_nonneg m). lia. Qed.

Lemma digits_mono (a b : Z) : a <= b -> digits a <= digits b.
Proof. intros H. unfold digits. pose proof (Z.log2_le_mono a b H). lia. Qed.

Lemma digits_shift (m k : Z) :
  0 < m -> 0 <= k -> digits (m * 2 ^ k) = digits m + k.
Proof.
  intros Hm Hk. unfold digits. rewrite Z.log2_mul_pow2 by lia. lia.
Qed.

Lemma digits_lt_pow (m k : Z) : 0 < m -> 0 <= k -> m < 2 ^ k -> digits m <= k.
Proof.
  intros Hm Hk Hlt. unfold digits.
  assert (Z.log2 m < k) by (apply Z.log2_lt_pow2; assumption). lia.
Qed.

Lemma digits_ge_pow (m k : Z) : 0 <= k -> 2 ^ k <= m -> k < digits m.
Proof.
  intros Hk Hle. unfold digits.
  assert (k <= Z.log2 m) by (apply Z.log2_le_pow2; lia). lia.
Qed.

(** *** Shifting right with a round bit and a sticky bit *)

Lemma iter_pos_nat {A : Type} (f : A -> A) (p : positive) (x : A) :
  iter_pos f p x = Nat.iter (Pos.to_nat p) f x.
Proof.
  revert x. induction p as [p IH | p IH |]; intros x; cbn [iter_pos].
  - rewrite !IH. rewrite Pos2Nat.inj_xI.
    replace (S (2 * Pos.to_nat p)) with (Pos.to_nat p + (Pos.to_nat p + 1))%nat
      by lia.
    rewrite !Nat.iter_add. reflexivity.
  - rewrite !IH. rewrite Pos2Nat.inj_xO.
    replace (2 * Pos.to_nat p)%nat with (Pos.to_nat p + Pos.to_nat p)%nat by lia.
    rewrite Nat.iter_add. reflexivity.
  - reflexivity.
Qed.

(** The record stands for [M] shifted right by [k] places: [rem] is what
    was shifted out, the round bit says whether it reaches one half, the
    sticky bit whether anything is left besides. *)
Definition shr_inv (M : Z) (k : Z) (mrs : shr_record) : Prop :=
  let rem := M - shr_m mrs * 2 ^ k in
  0 <= shr_m mrs /\ 0 <= rem < 2 ^ k /\
  (shr_r mrs = true <-> 2 ^ k <= 2 * rem) /\
  (shr_s mrs = true <->
   if shr_r mrs then 2 ^ k < 2 * rem else 0 < rem).

Lemma shr_1_nonneg (m : Z) (r s : bool) :
  0 <= m ->
  shr_1 (Build_shr_record m r s)
  = Build_shr_record (m / 2) (Z.odd m) (r || s).
Proof.
  intros Hm. destruct m as [| p | p]; [reflexivity | | lia].
  destruct p as [p | p |]; simpl; f_equal.
  - rewrite Pos2Z.inj_xI. apply (Z.div_unique _ 2 _ 1); lia.
  - rewrite Pos2Z.inj_xO. apply (Z.div_unique _ 2 _ 0); lia.
Qed.

Lemma shr_inv_step (M k : Z) (mrs : shr_record) :
  0 <= k -> shr_inv M k mrs -> shr_inv M (k + 1) (shr_1 mrs).
Proof.
  intros Hk Hinv. destruct mrs as [m r s].
  destruct Hinv as (Hm & Hrem & Hr & Hs). cbn [shr_m shr_r shr_s] in *.
  rewrite shr_1_nonneg by exact Hm. unfold shr_inv. cbn [shr_m shr_r shr_s].
  rewrite Z.pow_add_r by lia. change (2 ^ 1) with 2.
  pose proof (Z.div_mod m 2 ltac:(lia)) as Hdm.
  pose proof (Z.mod_pos_bound m 2 ltac:(lia)) as Hb.
  assert (Hodd : Z.odd m = true <-> m mod 2 = 1).
  { rewrite Zmod_odd. destruct (Z.odd m); split; intros; try lia; reflexivity. }
  assert (Hp : 0 < 2 ^ k) by (apply Z.pow_pos_nonneg; lia).
  set (P := 2 ^ k) in *. set (q := m / 2) in *. set (b := m mod 2) in *.
  assert (Hrs : (r || s) = true <-> 0 < M - m * P).
  { rewrite orb_true_iff, Hr, Hs. destruct r.
    - split; [nia | intros _; left].
      assert (true = true) as Ht by reflexivity. apply Hr in Ht. exact Ht.
    - split; [intros [H | H]; [| exact H] | intros H; right; exact H].
      apply Hr in H. discriminate. }
  assert (Hrem' : M - q * (P * 2) = b * P + (M - m * P)) by nia.
  rewrite Hrem'.
  split; [apply Z.div_pos; lia |].
  split; [nia |].
  split.
  - rewrite Hodd. split; intros H; nia.
  - rewrite Hrs. destruct (Z.odd m) eqn:Ho.
    + assert (b = 1) by (apply Hodd; reflexivity). split; intros; nia.
    + assert (b = 0).
      { destruct (Z.eq_dec b 1) as [H1 | H1]; [| lia].
        apply Hodd in H1. discriminate. }
      split; intros; nia.
Qed.

Lemma shr_inv_iter (M : Z) (n : nat) :
  0 <= M ->
  shr_inv M (Z.of_nat n) (Nat.iter n shr_1 (Build_shr_record M false false)).
Proof.
  intros HM. induction n as [| n IH].
  - unfold shr_inv. simpl Nat.iter. cbn [shr_m shr_r shr_s Z.of_nat].
    rewrite Z.pow_0_r, Z.mul_1_r, Z.sub_diag.
    repeat split; try lia; try discriminate.
  - rewrite Nat2Z.inj_succ. unfold Z.succ. simpl.
    apply shr_inv_step; [lia | exact IH].
Qed.

(** Rounding [M / 2 ^ k] to the nearest integer, ties to the even one. *)
Definition rne (M k : Z) : Z :=
  let q := M / 2 ^ k in
  match 2 * (M mod 2 ^ k) ?= 2 ^ k with
  | Lt => q
  | Eq => if Z.even q then q else q + 1
  | Gt => q + 1
  end.

Lemma shr_inv_round (M k : Z) (mrs : shr_record) :
  0 <= k -> shr_inv M k mrs ->
  round_nearest_even (shr_m mrs) (loc_of_shr_record mrs) = rne M k.
Proof.
  intros Hk Hinv. destruct mrs as [m r s].
  destruct Hinv as (Hm & Hrem & Hr & Hs). cbn [shr_m shr_r shr_s] in *.
  assert (Hp : 0 < 2 ^ k) by (apply Z.pow_pos_nonneg; lia).
  assert (Hq : M / 2 ^ k = m).
  { symmetry. apply (Z.div_unique _ _ _ (M - m * 2 ^ k)); lia. }
  assert (Hmod : M mod 2 ^ k = M - m * 2 ^ k).
  { symmetry. apply (Z.mod_unique _ _ m); lia. }
  unfold rne. rewrite Hq, Hmod.
  set (P := 2 ^ k) in *. set (rem := M - m * P) in *.
  destruct r, s; cbn [round_nearest_even loc_of_shr_record shr_m].
  - assert (P < 2 * rem) by (apply Hs; reflexivity).
    destruct (Z.compare_spec (2 * rem) P); try lia; reflexivity.
  - assert (P <= 2 * rem) by (apply Hr; reflexivity).
    assert (~ P < 2 * rem) by (intros H'; apply Hs in H'; discriminate).
    destruct (Z.compare_spec (2 * rem) P); try lia; reflexivity.
  - assert (~ P <= 2 * rem) by (intros H'; apply Hr in H'; discriminate).
    destruct (Z.compare_spec (2 * rem) P); try lia; reflexivity.
  - assert (~ P <= 2 * rem) by (intros H'; apply Hr in H'; discriminate).
    destruct (Z.compare_spec (2 * rem) P); try lia; reflexivity.
Qed.


Lemma rne_exact (q k : Z) : 0 <= k -> rne (q * 2 ^ k) k = q.
Proof.
  intros Hk. assert (Hp : 0 < 2 ^ k) by (apply Z.pow_pos_nonneg; lia).
  unfold rne. rewrite Z.div_mul, Z.mod_mul by lia.
  destruct (Z.compare_spec (2 * 0) (2 ^ k)); try lia; reflexivity.
Qed.

Lemma rne_bounds (M k : Z) :
  0 <= k -> M / 2 ^ k <= rne M k <= M / 2 ^ k + 1.
Proof.
  intros Hk. unfold rne.
  destruct (2 * (M mod 2 ^ k) ?= 2 ^ k); [destruct (Z.even _) | |]; lia.
Qed.

Lemma rne_mono (M M' k : Z) : 0 <= k -> M <= M' -> rne M k <= rne M' k.
Proof.
  intros Hk Hle. assert (Hp : 0 < 2 ^ k) by (apply Z.pow_pos_nonneg; lia).
  pose proof (Z.div_le_mono M M' (2 ^ k) Hp Hle) as Hq.
  destruct (Z.eq_dec (M / 2 ^ k) (M' / 2 ^ k)) as [Heq | Hne].
  - pose proof (Z.div_mod M (2 ^ k) ltac:(lia)) as H1.
    pose proof (Z.div_mod M' (2 ^ k) ltac:(lia)) as H2.
    assert (Hmod : M mod 2 ^ k <= M' mod 2 ^ k) by nia.
    unfold rne. rewrite <- Heq.
    destruct (Z.compare_spec (2 * (M mod 2 ^ k)) (2 ^ k));
      destruct (Z.compare_spec (2 * (M' mod 2 ^ k)) (2 ^ k));
      try destruct (Z.even (M / 2 ^ k)); lia.
  - pose proof (rne_bounds M k Hk). pose proof (rne_bounds M' k Hk). lia.
Qed.

Lemma rne_scale (M k j : Z) :
  0 <= k -> 0 <= j -> rne (M * 2 ^ j) (k + j) = rne M k.
Proof.
  intros Hk Hj.
  assert (Hpk : 0 < 2 ^ k) by (apply Z.pow_pos_nonneg; lia).
  assert (Hpj : 0 < 2 ^ j) by (apply Z.pow_pos_nonneg; lia).
  unfold rne. rewrite Z.pow_add_r by lia.
  rewrite Z.div_mul_cancel_r by lia.
  rewrite Zmult_mod_distr_r.
  replace (2 * (M mod 2 ^ k * 2 ^ j)) with (2 * (M mod 2 ^ k) * 2 ^ j) by ring.
  rewrite <- Zmult_compare_compat_r by lia. reflexivity.
Qed.

Lemma rne_nonneg (M k : Z) : 0 <= k -> 0 <= M -> 0 <= rne M k.
Proof.
  intros Hk HM. pose proof (rne_bounds M k Hk).
  assert (0 <= M / 2 ^ k) by (apply Z.div_pos; [lia | apply Z.pow_pos_nonneg; lia]).
  lia.
Qed.

(** *** The rounding of a positive number *)

Definition fexp (e : Z) : Z := Z.max (e - prec) (3 - emax - prec).

Lemma fexp_spec (e : Z) : SpecFloat.fexp prec emax e = fexp e.
Proof. reflexivity. Qed.

(** Mantissa and exponent of [m * 2 ^ e] rounded to the format. *)
Definition round_core (m e : Z) : Z * Z :=
  let F := fexp (digits m + e) in
  if F <=? e then (m, e)
  else
    let m1 := rne m (F - e) in
    if m1 =? 2 ^ prec then (2 ^ (prec - 1), F + 1) else (m1, F).

Definition pack (s : bool) (me : Z * Z) : spec_float :=
  match fst me with
  | Z0 => S754_zero s
  | Zpos p =>
      if snd me <=? emax - prec then S754_finite s p (snd me)
      else S754_infinity s
  | Zneg _ => S754_nan
  end.

Lemma shr_fexp_exact (m e : Z) :
  0 <= m ->
  let n := fexp (Zdigits2 m + e) - e in
  (n <= 0 ->
   shr_fexp prec emax m e loc_Exact = (Build_shr_record m false false, e)) /\
  (0 < n ->
   exists mrs,
     shr_fexp prec emax m e loc_Exact = (mrs, e + n) /\
     round_nearest_even (shr_m mrs) (loc_of_shr_record mrs) = rne m n).
Proof.
  intros Hm n. unfold shr_fexp, shr. rewrite fexp_spec. fold n.
  cbn [shr_record_of_loc]. split.
  - intros Hn. destruct n; try lia; reflexivity.
  - intros Hn. destruct n as [| p | p] eqn:Hp; try lia.
    eexists. split; [reflexivity |].
    rewrite iter_pos_nat. apply shr_inv_round; [lia |].
    rewrite <- positive_nat_Z. apply shr_inv_iter. exact Hm.
Qed.

Lemma binary_round_aux_core (s : bool) (p : positive) (e : Z) :
  binary_round_aux prec emax s (Zpos p) e loc_Exact
  = pack s (round_core (Zpos p) e).
Proof.
  set (m := Zpos p). assert (Hm : 0 < m) by apply Pos2Z.is_pos.
  destruct (shr_fexp_exact m e ltac:(lia)) as [Hnone Hshift].
  unfold m in Hnone, Hshift. rewrite Zdigits2_log2 in Hnone, Hshift.
  fold m in Hnone, Hshift. fold (digits m) in Hnone, Hshift.
  unfold binary_round_aux, round_core.
  set (F := fexp (digits m + e)) in *.
  destruct (Z.leb_spec F e) as [Hle | Hlt].
  - fold m. rewrite (Hnone ltac:(lia)).
    cbn [shr_m loc_of_shr_record round_nearest_even].
    rewrite (Hnone ltac:(lia)). reflexivity.
  - destruct (Hshift ltac:(lia)) as (mrs & Hfirst & Hround).
    fold m. rewrite Hfirst, Hround.
    replace (e + (F - e)) with F by lia.
    set (m1 := rne m (F - e)).
    assert (Hm1 : 0 <= m1 <= 2 ^ prec).
    { pose proof (rne_nonneg m (F - e) ltac:(lia) ltac:(lia)).
      pose proof (rne_bounds m (F - e) ltac:(lia)) as Hb. fold m1 in Hb.
      split; [assumption |].
      pose proof (digits_bounds m Hm) as Hd.
      pose proof (digits_pos m Hm) as Hdp.
      assert (HF : digits m - prec <= F - e) by (unfold F, fexp; lia).
      assert (m / 2 ^ (F - e) < 2 ^ prec); [| lia].
      apply Z.div_lt_upper_bound; [apply Z.pow_pos_nonneg; lia |].
      rewrite <- Z.pow_add_r by (unfold prec; lia).
      apply Z.lt_le_trans with (2 ^ digits m); [lia |].
      apply Z.pow_le_mono_r; lia. }
    assert (HFmin : 3 - emax - prec <= F) by (unfold F, fexp; lia).
    destruct (Z.eqb_spec m1 (2 ^ prec)) as [Heq | Hne].
    + rewrite Heq.
      destruct (shr_fexp_exact (2 ^ prec) F ltac:(unfold prec; lia))
        as [_ Hs2].
      assert (Hn2 : fexp (Zdigits2 (2 ^ prec) + F) - F = 1).
      { change (Zdigits2 (2 ^ prec)) with 54. unfold fexp, prec, emax in *. lia. }
      rewrite Hn2 in Hs2.
      unfold shr_fexp, shr. rewrite fexp_spec, Hn2.
      reflexivity.
    + destruct (shr_fexp_exact m1 F ltac:(lia)) as [Hs2 _].
      rewrite Hs2; [reflexivity |].
      destruct (Z.eq_dec m1 0) as [-> | Hnz].
      * simpl Zdigits2. unfold fexp, prec, emax in *. lia.
      * assert (Hpos : 0 < m1) by lia.
        destruct m1 as [| q | q] eqn:Hq; try lia.
        rewrite Zdigits2_log2. fold (digits (Zpos q)).
        assert (digits (Zpos q) <= prec).
        { apply digits_lt_pow; [lia | unfold prec; lia | lia]. }
        unfold fexp, prec, emax in *. lia.
Qed.


(** *** The rounded value on a grid

    For [c] below every exponent in play, a positive number is [N] units
    of [2 ^ c]; its rounding is again a number of units. *)

Definition emin : Z := 3 - emax - prec.

Definition grid_exp (c N : Z) : Z := fexp (digits N + c) - c.

Definition grid_round (c N : Z) : Z :=
  rne N (grid_exp c N) * 2 ^ grid_exp c N.

Lemma grid_exp_nonneg (c N : Z) : c <= emin -> 0 <= grid_exp c N.
Proof. unfold grid_exp, fexp, emin. lia. Qed.

Lemma pow2_pos (k : Z) : 0 <= k -> 0 < 2 ^ k.
Proof. intros. apply Z.pow_pos_nonneg; lia. Qed.

Lemma pow2_split (a b : Z) : 0 <= b <= a -> 2 ^ a = 2 ^ (a - b) * 2 ^ b.
Proof.
  intros H. rewrite <- Z.pow_add_r by lia. f_equal. lia.
Qed.

Lemma round_core_grid (m e c : Z) :
  0 < m -> c <= e -> c <= emin ->
  c <= snd (round_core m e) /\
  fst (round_core m e) * 2 ^ (snd (round_core m e) - c)
  = grid_round c (m * 2 ^ (e - c)).
Proof.
  intros Hm Hce Hc. unfold grid_round, grid_exp.
  rewrite digits_shift by lia.
  replace (digits m + (e - c) + c) with (digits m + e) by lia.
  unfold round_core. set (F := fexp (digits m + e)).
  assert (HF : emin <= F) by (unfold F, fexp, emin; lia).
  destruct (Z.leb_spec F e) as [Hle | Hlt]; cbn [fst snd].
  - split; [lia |].
    rewrite (pow2_split (e - c) (F - c)) by lia.
    rewrite Z.mul_assoc, rne_exact by lia.
    replace (e - c - (F - c)) with (e - F) by lia. reflexivity.
  - replace (F - c) with ((F - e) + (e - c)) at 1 by lia.
    rewrite rne_scale by lia.
    destruct (Z.eqb_spec (rne m (F - e)) (2 ^ prec)) as [Heq | Hne];
      cbn [fst snd].
    + split; [lia |]. rewrite Heq.
      replace (F + 1 - c) with (1 + (F - c)) by lia.
      rewrite Z.pow_add_r by lia.
      change (2 ^ prec) with (2 ^ (prec - 1) * 2 ^ 1). ring.
    + split; [lia | reflexivity].
Qed.

Lemma grid_round_nonneg (c N : Z) : c <= emin -> 0 <= N -> 0 <= grid_round c N.
Proof.
  intros Hc HN. unfold grid_round.
  pose proof (grid_exp_nonneg c N Hc) as Ha.
  pose proof (rne_nonneg N _ Ha HN). pose proof (pow2_pos _ Ha). nia.
Qed.

Lemma grid_round_mono (c N N' : Z) :
  c <= emin -> 0 < N -> N <= N' -> grid_round c N <= grid_round c N'.
Proof.
  intros Hc HN Hle. unfold grid_round.
  pose proof (grid_exp_nonneg c N Hc) as Ha.
  pose proof (grid_exp_nonneg c N' Hc) as Ha'.
  pose proof (digits_mono N N' Hle) as Hd.
  set (a := grid_exp c N) in *. set (a' := grid_exp c N') in *.
  assert (Haa : a <= a') by (unfold a, a', grid_exp, fexp; lia).
  destruct (Z.eq_dec a a') as [Heq | Hne].
  - rewrite <- Heq. pose proof (rne_mono N N' a Ha Hle).
    pose proof (pow2_pos a Ha). nia.
  - assert (Hlt : a < a') by lia.
    pose proof (digits_bounds N HN) as HbN.
    pose proof (digits_bounds N' ltac:(lia)) as HbN'.
    pose proof (digits_pos N HN) as HdN.
    set (D := digits N) in *. set (D' := digits N') in *.
    assert (HDD : D < D') by (unfold a, a', grid_exp, fexp in *; lia).
    assert (Ha'D : a' <= D' - 1).
    { unfold a, a', grid_exp, fexp, emin, prec in *. lia. }
    set (top := Z.max D a).
    assert (Hup : rne N a * 2 ^ a <= 2 ^ top).
    { rewrite (pow2_split top a) by (unfold top; lia).
      pose proof (pow2_pos a Ha).
      assert (rne N a <= 2 ^ (top - a)); [| nia].
      rewrite <- (rne_exact (2 ^ (top - a)) a Ha).
      apply rne_mono; [exact Ha |].
      rewrite <- pow2_split by (unfold top; lia).
      apply Z.le_trans with (2 ^ D); [lia |].
      apply Z.pow_le_mono_r; unfold top; lia. }
    assert (Hlow : 2 ^ (D' - 1) <= rne N' a' * 2 ^ a').
    { rewrite (pow2_split (D' - 1) a') by lia.
      pose proof (pow2_pos a' Ha').
      assert (2 ^ (D' - 1 - a') <= rne N' a'); [| nia].
      rewrite <- (rne_exact (2 ^ (D' - 1 - a')) a' Ha') at 1.
      apply rne_mono; [exact Ha' |].
      rewrite <- pow2_split by lia. lia. }
    assert (2 ^ top <= 2 ^ (D' - 1)).
    { apply Z.pow_le_mono_r; unfold top; lia. }
    lia.
Qed.

Lemma round_core_upper (m e : Z) :
  0 < m -> 0 <= fst (round_core m e) < 2 ^ prec.
Proof.
  intros Hm. unfold round_core. set (F := fexp (digits m + e)).
  pose proof (digits_bounds m Hm) as Hb. pose proof (digits_pos m Hm) as Hd.
  destruct (Z.leb_spec F e) as [Hle | Hlt]; cbn [fst].
  - split; [lia |].
    apply Z.lt_le_trans with (2 ^ digits m); [lia |].
    apply Z.pow_le_mono_r; [lia |]. unfold F, fexp in Hle. lia.
  - destruct (Z.eqb_spec (rne m (F - e)) (2 ^ prec)) as [Heq | Hne];
      cbn [fst].
    + unfold prec. lia.
    + pose proof (rne_nonneg m (F - e) ltac:(lia) ltac:(lia)).
      pose proof (rne_bounds m (F - e) ltac:(lia)) as Hr.
      assert (m / 2 ^ (F - e) < 2 ^ prec); [| lia].
      apply Z.div_lt_upper_bound; [apply pow2_pos; lia |].
      rewrite <- Z.pow_add_r by (unfold prec; lia).
      apply Z.lt_le_trans with (2 ^ digits m); [lia |].
      apply Z.pow_le_mono_r; [lia |]. unfold F, fexp. lia.
Qed.

Lemma round_core_lower (m e : Z) :
  0 < m ->
  emin < snd (round_core m e) ->
  (fexp (digits m + e) <= e -> prec <= digits m) ->
  2 ^ (prec - 1) <= fst (round_core m e).
Proof.
  intros Hm. unfold round_core. set (F := fexp (digits m + e)).
  pose proof (digits_bounds m Hm) as Hb. pose proof (digits_pos m Hm) as Hd.
  destruct (Z.leb_spec F e) as [Hle | Hlt]; cbn [fst snd].
  - intros _ Hprec. specialize (Hprec Hle).
    apply Z.le_trans with (2 ^ (digits m - 1)); [| lia].
    apply Z.pow_le_mono_r; unfold prec in *; lia.
  - destruct (Z.eqb_spec (rne m (F - e)) (2 ^ prec)) as [Heq | Hne];
      cbn [fst snd].
    + intros _ _. lia.
    + intros HF _.
      assert (Hn : F - e = digits m - prec) by (unfold F, fexp, emin in *; lia).
      pose proof (rne_bounds m (F - e) ltac:(lia)) as Hr.
      assert (2 ^ (prec - 1) <= m / 2 ^ (F - e)); [| lia].
      apply Z.div_le_lower_bound; [apply pow2_pos; lia |].
      rewrite Z.mul_comm, <- Z.pow_add_r by (unfold prec; lia).
      replace (prec - 1 + (F - e)) with (digits m - 1) by lia. lia.
Qed.


(** *** Floats of the format *)

Lemma valid_finite (s : bool) (m : positive) (e : Z) :
  fvalid (S754_finite s m e) = true <->
  fexp (digits (Zpos m) + e) = e /\ e <= emax - prec.
Proof.
  unfold fvalid, valid_binary, bounded, canonical_mantissa.
  rewrite andb_true_iff, Z.eqb_eq, Z.leb_le, fexp_spec.
  change (Zpos (digits2_pos m)) with (Zdigits2 (Zpos m)).
  rewrite Zdigits2_log2. reflexivity.
Qed.

(** The order of two positive floats of the format is the order of their
    values. *)
Lemma fle_value (mx my : positive) (ex ey c : Z) :
  fvalid (S754_finite false mx ex) = true ->
  fvalid (S754_finite false my ey) = true ->
  fle (S754_finite false mx ex) (S754_finite false my ey) = true ->
  c <= ex -> c <= ey ->
  Zpos mx * 2 ^ (ex - c) <= Zpos my * 2 ^ (ey - c).
Proof.
  intros [Hcx _]%valid_finite [Hcy _]%valid_finite Hle Hx Hy.
  unfold fle, SFleb, SFcompare in Hle.
  pose proof (digits_bounds (Zpos mx) ltac:(lia)) as Hbx.
  pose proof (digits_bounds (Zpos my) ltac:(lia)) as Hby.
  destruct (Z.compare_spec ex ey) as [Heq | Hlt | Hgt]; [| | discriminate].
  - subst ey. rewrite Pos.compare_cont_spec in Hle. simpl in Hle.
    assert (Hm : Zpos mx <= Zpos my).
    { destruct (Pos.compare_spec mx my); try discriminate; lia. }
    pose proof (pow2_pos (ex - c) ltac:(lia)). nia.
  - assert (Hdy : digits (Zpos my) = prec) by (unfold fexp in *; lia).
    assert (Hdx : digits (Zpos mx) <= prec) by (unfold fexp in *; lia).
    rewrite Hdy in Hby.
    assert (Hmx : Zpos mx < 2 ^ prec).
    { apply Z.lt_le_trans with (2 ^ digits (Zpos mx)); [lia |].
      apply Z.pow_le_mono_r; lia. }
    rewrite (pow2_split (ey - c) (ex - c)) by lia.
    pose proof (pow2_pos (ex - c) ltac:(lia)) as Hp.
    assert (Hq : 2 <= 2 ^ (ey - c - (ex - c))).
    { change 2 with (2 ^ 1) at 1. apply Z.pow_le_mono_r; lia. }
    change (2 ^ prec) with (2 * 2 ^ (prec - 1)) in Hmx.
    set (P := 2 ^ (ex - c)) in *. set (Q := 2 ^ (ey - c - (ex - c))) in *.
    set (H := 2 ^ (prec - 1)) in *.
    assert (Zpos mx * P <= 2 * H * P) by nia.
    assert (0 < H) by (apply pow2_pos; unfold prec; lia).
    assert (2 * H <= Zpos my * Q) by nia.
    assert (2 * H * P <= Zpos my * Q * P) by (apply Z.mul_le_mono_nonneg_r; lia).
    lia.
Qed.

Lemma fmul_finite (mx mf : positive) (ex ef : Z) :
  fmul (S754_finite false mx ex) (S754_finite false mf ef)
  = pack false (round_core (Zpos mx * Zpos mf) (ex + ef)).
Proof.
  unfold fmul, SFmul. cbn [xorb]. apply binary_round_aux_core.
Qed.

(** The truncation of a rounded number, from its units on the grid. *)
Lemma shiftl_grid (m e c : Z) :
  0 <= m -> c <= e -> c <= 0 ->
  Z.shiftl m e = (m * 2 ^ (e - c)) / 2 ^ (- c).
Proof.
  intros Hm Hce Hc. pose proof (pow2_pos (- c) ltac:(lia)) as Hp.
  destruct (Z.le_gt_cases 0 e) as [He | He].
  - rewrite Z.shiftl_mul_pow2 by lia.
    replace (e - c) with (e + - c) by lia.
    rewrite Z.pow_add_r, Z.mul_assoc, Z.div_mul by lia. reflexivity.
  - rewrite Z.shiftl_div_pow2 by lia.
    rewrite (pow2_split (- c) (e - c)) by lia.
    rewrite Z.div_mul_cancel_r; [| | apply Z.neq_sym, Z.lt_neq, pow2_pos; lia].
    + f_equal. f_equal. lia.
    + apply Z.neq_sym, Z.lt_neq, pow2_pos. lia.
Qed.

Lemma int_of_pack (me : Z * Z) :
  0 <= fst me ->
  int_of_float (pack false me)
  = if (fst me =? 0) || (snd me <=? emax - prec)
    then Ok (Z.shiftl (fst me) (snd me))
    else Raise OverflowError.
Proof.
  destruct me as [m e]. cbn [fst snd]. intros Hm. unfold pack. cbn [fst snd].
  destruct m as [| p | p]; [| | lia].
  - simpl. rewrite Z.shiftl_0_l. reflexivity.
  - cbn [Z.eqb orb]. destruct (e <=? emax - prec); reflexivity.
Qed.

(** The key of a product is monotone in the time: when the later time has
    a key, the earlier one has one, not negative and not larger. *)
Lemma fmul_key_mono (mx my mf : positive) (ex ey ef ky : Z) :
  let x := S754_finite false mx ex in
  let y := S754_finite false my ey in
  let f := S754_finite false mf ef in
  fvalid x = true -> fvalid y = true -> fle x y = true ->
  ef <= emax - prec ->
  int_of_float (fmul y f) = Ok ky ->
  exists kx, int_of_float (fmul x f) = Ok kx /\ 0 <= kx <= ky.
Proof.
  intros x y f Hvx Hvy Hle Hef. unfold x, y, f.
  rewrite !fmul_finite.
  set (c := Z.min emin (Z.min (ex + ef) (ey + ef))).
  assert (Hc : c <= emin) by (unfold c; lia).
  assert (Hc0 : c <= 0) by (unfold emin, emax, prec in Hc; lia).
  assert (Hmx : 0 < Zpos mx * Zpos mf) by lia.
  assert (Hmy : 0 < Zpos my * Zpos mf) by lia.
  destruct (round_core_grid _ (ex + ef) c Hmx ltac:(unfold c; lia) Hc)
    as [Hcx Hgx].
  destruct (round_core_grid _ (ey + ef) c Hmy ltac:(unfold c; lia) Hc)
    as [Hcy Hgy].
  pose proof (round_core_upper _ (ex + ef) Hmx) as Hux.
  pose proof (round_core_upper _ (ey + ef) Hmy) as Huy.
  pose proof (round_core_lower _ (ex + ef) Hmx) as Hlx.
  set (rx := round_core (Zpos mx * Zpos mf) (ex + ef)) in *.
  set (ry := round_core (Zpos my * Zpos mf) (ey + ef)) in *.
  assert (Hgrid : grid_round c (Zpos mx * Zpos mf * 2 ^ (ex + ef - c))
                  <= grid_round c (Zpos my * Zpos mf * 2 ^ (ey + ef - c))).
  { apply grid_round_mono; [exact Hc | |].
    - pose proof (pow2_pos (ex + ef - c) ltac:(unfold c; lia)). nia.
    - pose proof (fle_value mx my ex ey (c - ef) Hvx Hvy Hle
                    ltac:(unfold c; lia) ltac:(unfold c; lia)) as Hv.
      replace (ex - (c - ef)) with (ex + ef - c) in Hv by lia.
      replace (ey - (c - ef)) with (ey + ef - c) in Hv by lia.
      nia. }
  rewrite <- Hgx, <- Hgy in Hgrid.
  rewrite !int_of_pack by lia.
  destruct ((fst ry =? 0) || (snd ry <=? emax - prec)) eqn:Hfy;
    [| discriminate].
  intros Hky. injection Hky as <-.
  assert (Hyb : fst ry * 2 ^ (snd ry - c) < 2 ^ (emax - c)).
  { apply orb_true_iff in Hfy. destruct Hfy as [H0 | He].
    - apply Z.eqb_eq in H0. rewrite H0, Z.mul_0_l.
      apply pow2_pos. unfold emax. lia.
    - apply Z.leb_le in He.
      rewrite (pow2_split (emax - c) (snd ry - c)) by (unfold prec in *; lia).
      pose proof (pow2_pos (snd ry - c) ltac:(lia)) as Hp.
      assert (2 ^ prec <= 2 ^ (emax - c - (snd ry - c))).
      { apply Z.pow_le_mono_r; unfold prec in *; lia. }
      apply Z.mul_lt_mono_pos_r; lia. }
  assert (Hfx : (fst rx =? 0) || (snd rx <=? emax - prec) = true).
  { apply orb_true_iff.
    destruct (Z.eq_dec (fst rx) 0) as [H0 | Hnz];
      [left; apply Z.eqb_eq; exact H0 | right].
    apply Z.leb_le. destruct (Z.le_gt_cases (snd rx) (emax - prec))
      as [Hok | Hbig]; [exact Hok | exfalso].
    assert (Hlow : 2 ^ (prec - 1) <= fst rx).
    { apply Hlx; [unfold emin, emax, prec in *; lia |].
      intros HF.
      destruct (Z.le_gt_cases prec (digits (Zpos mx * Zpos mf)))
        as [Hd | Hd]; [exact Hd | exfalso].
      assert (Hrx : snd rx = ex + ef).
      { unfold rx, round_core.
        destruct (Z.leb_spec (fexp (digits (Zpos mx * Zpos mf) + (ex + ef)))
                    (ex + ef)); [reflexivity | lia]. }
      destruct (proj1 (valid_finite _ _ _) Hvx) as [Hcanon _].
      pose proof (digits_mono (Zpos mx) (Zpos mx * Zpos mf)
                    ltac:(clear; nia)).
      unfold fexp, emin, emax, prec in *. lia. }
    assert (2 ^ (emax - c) <= fst rx * 2 ^ (snd rx - c)); [| lia].
    rewrite (pow2_split (emax - c) (emax - prec + 1 - c))
      by (unfold prec, emax in *; lia).
    replace (emax - c - (emax - prec + 1 - c)) with (prec - 1) by lia.
    assert (2 ^ (emax - prec + 1 - c) <= 2 ^ (snd rx - c)).
    { apply Z.pow_le_mono_r; unfold prec, emax in *; lia. }
    pose proof (pow2_pos (emax - prec + 1 - c)
                  ltac:(unfold prec, emax in *; lia)).
    pose proof (pow2_pos (prec - 1) ltac:(unfold prec; lia)).
    apply Z.mul_le_mono_nonneg; lia. }
  rewrite Hfx. eexists. split; [reflexivity |].
  rewrite (shiftl_grid (fst rx) (snd rx) c) by lia.
  rewrite (shiftl_grid (fst ry) (snd ry) c) by lia.
  pose proof (pow2_pos (- c) ltac:(lia)) as Hp.
  pose proof (pow2_pos (snd rx - c) ltac:(lia)).
  split.
  - apply Z.div_pos; [apply Z.mul_nonneg_nonneg; lia | lia].
  - apply Z.div_le_mono; [lia | exact Hgrid].
Qed.


Lemma fmul_key_nonneg (mx mf : positive) (ex ef k : Z) :
  int_of_float (fmul (S754_finite false mx ex) (S754_finite false mf ef))
  = Ok k ->
  0 <= k.
Proof.
  rewrite fmul_finite.
  pose proof (round_core_upper (Zpos mx * Zpos mf) (ex + ef) ltac:(lia)) as Hu.
  rewrite int_of_pack by lia.
  destruct (_ || _); [| discriminate].
  intros H. injection H as <-. apply Z.shiftl_nonneg. exact (proj1 Hu).
Qed.

(** *** The converted frame rate *)

(** A rate that is not negative converts to a float that is zero, not a
    number, or positive with an exponent of the format. *)
Inductive rate_float : float -> Prop :=
| rate_zero : rate_float (S754_zero false)
| rate_nan : rate_float S754_nan
| rate_finite (m : positive) (e : Z) :
    e <= emax - prec -> rate_float (S754_finite false m e).

Lemma binary_round_aux_cases (s : bool) (m e : Z) (l : location) :
  match binary_round_aux prec emax s m e l with
  | S754_zero s' => s' = s
  | S754_infinity s' => s' = s
  | S754_nan => True
  | S754_finite s' _ e' => s' = s /\ e' <= emax - prec
  end.
Proof.
  unfold binary_round_aux.
  destruct (shr_fexp prec emax m e l) as [mrs' e'].
  destruct (shr_fexp prec emax _ e' loc_Exact) as [mrs'' e''].
  destruct (shr_m mrs'') as [| p | p]; try exact I; try reflexivity.
  destruct (Z.leb_spec e'' (emax - prec)); [split; [reflexivity | assumption] |].
  reflexivity.
Qed.

Lemma Qred_num_nonneg (q : Q) : (0 <= Qnum q)%Z -> (0 <= Qnum (Qred q))%Z.
Proof.
  intros Hq. pose proof (Qred_correct q) as Heq. unfold Qeq in Heq.
  destruct (Qred q) as [n d]. simpl in *.
  destruct n as [| p | p]; lia.
Qed.

Lemma float_of_fraction_rate (q : Fraction) (f : float) :
  0 <= Qnum q -> float_of_fraction q = Ok f -> rate_float f.
Proof.
  intros Hq. unfold float_of_fraction, int_truediv.
  pose proof (Qred_num_nonneg q Hq) as Hn.
  destruct (Z.pos (Qden (Qred q)) =? 0); [discriminate |].
  destruct (Qnum (Qred q)) as [| p | p]; [| | lia]; cbn [exact_of_Z SFdiv].
  - intros H. injection H as <-. constructor.
  - destruct (SFdiv_core_binary prec emax (Zpos p) 0 (Zpos (Qden (Qred q))) 0)
      as [[mz ez] lz].
    cbn [xorb].
    pose proof (binary_round_aux_cases false mz ez lz) as Hc.
    destruct (binary_round_aux prec emax false mz ez lz) as [s | s | | s m e];
      try discriminate; intros H; injection H as <-.
    + subst s. constructor.
    + constructor.
    + destruct Hc as [-> He]. constructor. exact He.
Qed.

(** *** Keys of products *)

(** A time that is not below zero, multiplied by a converted rate, has the
    same truncation and floor. *)
Lemma int_is_floor (t f : float) :
  flt t fzero = false -> rate_float f ->
  int_of_float (fmul t f) = floor (fmul t f).
Proof.
  intros Ht Hf. destruct Hf as [| | mf ef Hef];
    destruct t as [s | s | | s m e]; try reflexivity;
    try (destruct s; [discriminate Ht | ]); try reflexivity.
  rewrite fmul_finite.
  pose proof (round_core_upper (Zpos m * Zpos mf) (e + ef) ltac:(lia)) as Hu.
  unfold pack. destruct (fst (round_core _ _)); try reflexivity.
  destruct (_ <=? _); reflexivity.
Qed.

Lemma key_mono_floats (t1 t2 f : float) (k2 : Z) :
  fvalid t1 = true -> fvalid t2 = true ->
  flt t1 fzero = false -> fle t1 t2 = true ->
  rate_float f ->
  int_of_float (fmul t2 f) = Ok k2 ->
  exists k1, int_of_float (fmul t1 f) = Ok k1 /\ 0 <= k1 <= k2.
Proof.
  intros Hv1 Hv2 Ht1 Hle Hf Hk2.
  destruct Hf as [| | mf ef Hef].
  - destruct t1 as [s1 | s1 | | s1 m1 e1], t2 as [s2 | s2 | | s2 m2 e2];
      try discriminate;
      try (destruct s1; discriminate); try (destruct s2; discriminate);
      try (destruct s1, s2; discriminate);
      change (Ok 0 = Ok k2) in Hk2; injection Hk2 as <-;
      exists 0; (split; [reflexivity | lia]).
  - destruct t2; discriminate.
  - destruct t1 as [s1 | s1 | | s1 m1 e1], t2 as [s2 | s2 | | s2 m2 e2];
      try discriminate;
      try (destruct s1; discriminate); try (destruct s2; discriminate);
      try (destruct s1, s2; discriminate).
    + change (Ok 0 = Ok k2) in Hk2. injection Hk2 as <-.
      exists 0. split; [reflexivity | lia].
    + destruct s2; [destruct s1; discriminate |].
      exists 0. split; [reflexivity |].
      pose proof (fmul_key_nonneg _ _ _ _ _ Hk2). lia.
    + destruct s1; [discriminate |]. destruct s2; [discriminate |].
      exact (fmul_key_mono m1 m2 mf e1 e2 ef k2 Hv1 Hv2 Hle Hef Hk2).
Qed.

(** *** The rounding of a quotient

    After a division the mantissa comes with a location; the rounded
    number is still one of the format, and its magnitude is bounded by
    that of the mantissa. *)

Lemma shr_m_iter (n : nat) (m : Z) (r s : bool) :
  0 <= m ->
  shr_m (Nat.iter n shr_1 (Build_shr_record m r s)) = m / 2 ^ Z.of_nat n.
Proof.
  intros Hm. induction n as [| n IH].
  - simpl. rewrite Z.div_1_r. reflexivity.
  - rewrite Nat.iter_succ. destruct (Nat.iter n shr_1 _) as [m' r' s'].
    cbn [shr_m] in IH. subst m'.
    rewrite shr_1_nonneg by (apply Z.div_pos; [lia | apply pow2_pos; lia]).
    cbn [shr_m]. rewrite Nat2Z.inj_succ, Z.pow_succ_r by lia.
    rewrite Z.div_div by (try apply pow2_pos; lia).
    f_equal. ring.
Qed.

Lemma round_nearest_even_bounds (m : Z) (l : location) :
  m <= round_nearest_even m l <= m + 1.
Proof.
  destruct l as [| []]; simpl; try lia. destruct (Z.even m); lia.
Qed.

Lemma shr_fexp_m (m e : Z) (l : location) :
  0 <= m -> e <= fexp (Zdigits2 m + e) ->
  exists mrs,
    shr_fexp prec emax m e l = (mrs, fexp (Zdigits2 m + e)) /\
    shr_m mrs = m / 2 ^ (fexp (Zdigits2 m + e) - e).
Proof.
  intros Hm Hn. unfold shr_fexp, shr. rewrite fexp_spec.
  set (F := fexp (Zdigits2 m + e)) in *.
  assert (Hrec : exists r s, shr_record_of_loc m l = Build_shr_record m r s).
  { destruct l as [| []]; simpl; eauto. }
  destruct Hrec as (r & s & ->).
  destruct (F - e) as [| p | p] eqn:Hp; try lia.
  - eexists. split; [f_equal; lia |]. simpl. rewrite Z.div_1_r. reflexivity.
  - eexists. split; [f_equal; lia |].
    rewrite iter_pos_nat, shr_m_iter by exact Hm.
    rewrite positive_nat_Z. reflexivity.
Qed.

Lemma Zdigits2_digits (m : Z) : 0 < m -> Zdigits2 m = digits m.
Proof.
  intros Hm. destruct m as [| p | p]; try lia. apply Zdigits2_log2.
Qed.

Lemma Zdigits2_bound (m : Z) : 0 <= m -> 0 <= Zdigits2 m /\ m < 2 ^ Zdigits2 m.
Proof.
  intros Hm. destruct (Z.eq_dec m 0) as [-> | Hnz]; [simpl; lia |].
  rewrite Zdigits2_digits by lia.
  pose proof (digits_bounds m ltac:(lia)). pose proof (digits_pos m ltac:(lia)).
  lia.
Qed.

(** The outcome of rounding a mantissa that has at least the digits of the
    format: never a NaN, a float of the format, an infinity only past the
    largest exponent, and a magnitude at most one above the mantissa's. *)
Lemma binary_round_aux_valid (s : bool) (mz ez : Z) (l : location) :
  0 <= mz -> ez <= fexp (Zdigits2 mz + ez) ->
  let x := binary_round_aux prec emax s mz ez l in
  let top := Z.max (Zdigits2 mz + ez) emin + 1 in
  x <> S754_nan /\ fvalid x = true /\
  (forall s', x = S754_infinity s' -> emax < top) /\
  (forall s' m e, x = S754_finite s' m e -> digits (Zpos m) + e <= top).
Proof.
  intros Hmz Hn x top. subst x.
  destruct (shr_fexp_m mz ez l Hmz Hn) as (mrs & Hfirst & Hm').
  unfold binary_round_aux. rewrite Hfirst.
  set (F := fexp (Zdigits2 mz + ez)) in *.
  set (m' := shr_m mrs) in *.
  pose proof (round_nearest_even_bounds m' (loc_of_shr_record mrs)) as Hr.
  set (m1 := round_nearest_even m' (loc_of_shr_record mrs)) in *.
  destruct (Zdigits2_bound mz Hmz) as [HD HmzD].
  set (D := Zdigits2 mz) in *.
  assert (HFdef : F = Z.max (D + ez - prec) emin) by reflexivity.
  assert (HFn : D - prec <= F - ez /\ emin <= F) by lia.
  assert (Hm'0 : 0 <= m').
  { rewrite Hm'. apply Z.div_pos; [lia | apply pow2_pos; lia]. }
  (* the shifted mantissa has at most [D - (F - ez)] digits *)
  set (w := Z.max (D - (F - ez)) 0).
  assert (Hm'w : m' < 2 ^ w).
  { rewrite Hm'. apply Z.div_lt_upper_bound; [apply pow2_pos; lia |].
    rewrite <- Z.pow_add_r by (unfold w; lia).
    apply Z.lt_le_trans with (2 ^ D); [lia |].
    apply Z.pow_le_mono_r; unfold w; lia. }
  assert (Hw : 0 <= w <= prec) by (unfold w, prec in *; lia).
  assert (Hwp : 2 ^ w <= 2 ^ prec) by (apply Z.pow_le_mono_r; lia).
  assert (Htop : Z.max (w + F) (emin) + 1 <= top).
  { unfold top, w. fold D. lia. }
  destruct (Z.eq_dec m1 0) as [Hz | Hnz].
  - (* the result is a zero *)
    destruct (shr_fexp_exact m1 F ltac:(lia)) as [Hs2 _].
    rewrite Hz in *. rewrite Hs2 by (simpl; unfold fexp, prec, emax, emin in *; lia).
    cbn [shr_m]. repeat split; try discriminate.
  - destruct (Z.eq_dec m1 (2 ^ prec)) as [Heq | Hne].
    + (* the mantissa overflowed into the next binade *)
      assert (Hn2 : fexp (Zdigits2 (2 ^ prec) + F) - F = 1).
      { change (Zdigits2 (2 ^ prec)) with 54.
        unfold fexp, prec, emax, emin in *. lia. }
      rewrite Heq. unfold shr_fexp, shr. rewrite fexp_spec, Hn2.
      cbn [shr_record_of_loc iter_pos shr_1 shr_m].
      assert (Hwe : w = prec).
      { destruct (Z.eq_dec w prec) as [? | Hneq]; [assumption | exfalso].
        assert (2 ^ w <= 2 ^ (prec - 1)) by (apply Z.pow_le_mono_r; lia).
        assert (2 ^ (prec - 1) < 2 ^ prec) by (unfold prec; simpl; lia).
        lia. }
      destruct (Z.leb_spec (F + 1) (emax - prec)) as [Hfin | Hinf].
      * repeat split; try discriminate.
        -- apply valid_finite. split; [| exact Hfin].
           change (digits (Zpos _)) with 53.
           unfold fexp, prec, emax, emin in *. lia.
        -- intros s' m e H. injection H as _ <- <-.
           change (digits (Zpos _)) with 53. unfold prec in *. lia.
      * repeat split; try discriminate.
        intros s' _. unfold prec, emax in *. lia.
    + (* the mantissa fits *)
      assert (Hm1 : 0 < m1 < 2 ^ prec) by lia.
      assert (Hd1 : digits m1 <= prec).
      { apply digits_lt_pow; [lia | unfold prec; lia | lia]. }
      assert (Hd1w : digits m1 <= w + 1).
      { apply digits_lt_pow; [lia | lia |].
        rewrite Z.pow_add_r by lia. change (2 ^ 1) with 2.
        pose proof (pow2_pos w ltac:(lia)). lia. }
      assert (Hcanon : fexp (digits m1 + F) = F).
      { destruct (Z.eq_dec F emin) as [He | He];
          [unfold fexp, emin in *; lia |].
        assert (Hnn : F - ez = D - prec) by (unfold F, fexp, emin in *; lia).
        assert (HDpos : 0 < mz).
        { destruct (Z.eq_dec mz 0) as [-> | ?]; [| lia].
          unfold D in *. simpl in *. unfold prec, emin, emax in *. lia. }
        pose proof (digits_bounds mz HDpos) as Hb.
        rewrite <- (Zdigits2_digits mz HDpos) in Hb. fold D in Hb.
        assert (2 ^ (prec - 1) <= m').
        { rewrite Hm'. apply Z.div_le_lower_bound; [apply pow2_pos; lia |].
          rewrite Z.mul_comm, <- Z.pow_add_r by (unfold prec in *; lia).
          replace (prec - 1 + (F - ez)) with (D - 1) by lia. lia. }
        assert (prec - 1 < digits m1).
        { apply digits_ge_pow; [unfold prec; lia | lia]. }
        unfold fexp, emin in *. lia. }
      destruct (shr_fexp_exact m1 F ltac:(lia)) as [Hs2 _].
      rewrite Hs2 by (rewrite Zdigits2_digits by lia; lia).
      cbn [shr_m]. destruct m1 as [| q | q] eqn:Hq; try lia.
      destruct (Z.leb_spec F (emax - prec)) as [Hfin | Hinf].
      * repeat split; try discriminate.
        -- apply valid_finite. split; [exact Hcanon | exact Hfin].
        -- intros s' m e H. injection H as _ <- <-. lia.
      * repeat split; try discriminate.
        intros s' _. unfold F, fexp, prec, emax, emin in *. lia.
Qed.

(** *** True division of positive integers *)

Lemma div_core_spec (a b : positive) :
  let s := - Z.min (fexp (digits (Zpos a) - digits (Zpos b))) 0 in
  exists l,
    SFdiv_core_binary prec emax (Zpos a) 0 (Zpos b) 0
    = (Zpos a * 2 ^ s / Zpos b, - s, l).
Proof.
  intros s. unfold SFdiv_core_binary.
  rewrite !Zdigits2_log2. fold (digits (Zpos a)) (digits (Zpos b)).
  rewrite fexp_spec.
  replace (digits (Zpos a) + 0 - (digits (Zpos b) + 0))
    with (digits (Zpos a) - digits (Zpos b)) by lia.
  replace (Z.min (fexp (digits (Zpos a) - digits (Zpos b))) (0 - 0))
    with (- s) by (unfold s; lia).
  replace (0 - 0 - - s) with s by lia.
  assert (Hs : 0 <= s) by (unfold s; lia).
  assert (Hm : match s with
               | Z0 => Zpos a
               | Zpos _ => Z.shiftl (Zpos a) s
               | Zneg _ => 0
               end = Zpos a * 2 ^ s).
  { destruct s as [| p | p] eqn:Hp; try lia.
    rewrite Z.shiftl_mul_pow2 by lia. reflexivity. }
  rewrite Hm. unfold Z.div.
  destruct (Z.div_eucl (Zpos a * 2 ^ s) (Zpos b)) as [q r].
  eexists. reflexivity.
Qed.

Lemma digits_mul_le (a b : Z) :
  0 < a -> 0 < b -> digits (a * b) <= digits a + digits b.
Proof.
  intros Ha Hb.
  pose proof (digits_bounds a Ha). pose proof (digits_bounds b Hb).
  pose proof (digits_pos a Ha). pose proof (digits_pos b Hb).
  apply digits_lt_pow; [nia | lia |].
  rewrite Z.pow_add_r by lia. nia.
Qed.

(** The quotient of two positive integers below [2 ^ K] times the divisor,
    rounded: a float of the format, zero or positive, of magnitude at most
    [K + 1]. *)
Lemma int_truediv_pos (a b : positive) (K : Z) :
  0 <= K -> K < emax ->
  Zpos a < Zpos b * 2 ^ K ->
  exists x,
    int_truediv (Zpos a) (Zpos b) = Ok x /\ fvalid x = true /\
    (x = S754_zero false \/
     exists m e, x = S754_finite false m e /\ digits (Zpos m) + e <= K + 1).
Proof.
  intros HK HKmax Hlt. unfold int_truediv.
  cbn [Z.eqb exact_of_Z SFdiv xorb].
  destruct (div_core_spec a b) as [l Hcore]. cbv zeta in Hcore.
  set (s := - Z.min (fexp (digits (Zpos a) - digits (Zpos b))) 0) in *.
  rewrite Hcore.
  set (q := Zpos a * 2 ^ s / Zpos b).
  assert (Hs : 0 <= s) by (unfold s; lia).
  pose proof (pow2_pos s Hs) as Hps.
  assert (Hq : 0 <= q) by (apply Z.div_pos; nia).
  pose proof (digits_bounds (Zpos a) ltac:(lia)) as Hba.
  pose proof (digits_bounds (Zpos b) ltac:(lia)) as Hbb.
  pose proof (digits_pos (Zpos a) ltac:(lia)) as Hda.
  pose proof (digits_pos (Zpos b) ltac:(lia)) as Hdb.
  set (da := digits (Zpos a)) in *. set (db := digits (Zpos b)) in *.
  assert (Hlow : da - db + s <= Zdigits2 q).
  { destruct (Zdigits2_bound q Hq) as [Hd0 _].
    destruct (Z.le_gt_cases (da - db + s) 0) as [? | Hpos]; [lia |].
    assert (Hq2 : 2 ^ (da - db + s - 1) <= q).
    { apply Z.div_le_lower_bound; [lia |].
      apply Z.le_trans with (2 ^ (da - 1) * 2 ^ s); [| nia].
      rewrite <- Z.pow_add_r by lia.
      replace (da - 1 + s) with (db + (da - db + s - 1)) by lia.
      rewrite Z.pow_add_r by lia.
      pose proof (pow2_pos (da - db + s - 1) ltac:(lia)). nia. }
    assert (0 < q) by (pose proof (pow2_pos (da - db + s - 1) ltac:(lia)); lia).
    rewrite Zdigits2_digits by lia.
    pose proof (digits_ge_pow q (da - db + s - 1) ltac:(lia) Hq2). lia. }
  assert (Hup : Zdigits2 q + - s <= K).
  { destruct (Z.eq_dec q 0) as [-> | Hnz]; [simpl; lia |].
    rewrite Zdigits2_digits by lia.
    assert (q < 2 ^ (K + s)).
    { apply Z.div_lt_upper_bound; [lia |].
      rewrite Z.pow_add_r by lia. nia. }
    pose proof (digits_lt_pow q (K + s) ltac:(lia) ltac:(lia) ltac:(lia)). lia. }
  assert (Hn : - s <= fexp (Zdigits2 q + - s)).
  { unfold s in *. unfold fexp in *. lia. }
  destruct (binary_round_aux_valid false q (- s) l Hq Hn)
    as (Hnan & Hvalid & Hinf & Hfin).
  pose proof (binary_round_aux_cases false q (- s) l) as Hsign.
  destruct (binary_round_aux prec emax false q (- s) l)
    as [sx | sx | | sx m e] eqn:Hx.
  - subst sx. eexists. split; [reflexivity |]. split; [exact Hvalid |].
    left. reflexivity.
  - exfalso. specialize (Hinf sx eq_refl). unfold emin, emax, prec in *. lia.
  - exfalso. apply Hnan. reflexivity.
  - destruct Hsign as [-> _]. eexists. split; [reflexivity |].
    split; [exact Hvalid |]. right. exists m, e. split; [reflexivity |].
    specialize (Hfin false m e eq_refl). unfold emin, emax, prec in *. lia.
Qed.

Lemma float_of_fraction_pos (q : Fraction) (K : Z) :
  0 <= K -> K < emax ->
  0 < Qnum q -> Qnum q < Zpos (Qden q) * 2 ^ K ->
  exists x,
    float_of_fraction q = Ok x /\ fvalid x = true /\
    (x = S754_zero false \/
     exists m e, x = S754_finite false m e /\ digits (Zpos m) + e <= K + 1).
Proof.
  intros HK HKmax Hpos Hlt. unfold float_of_fraction.
  pose proof (Qred_correct q) as Heq. unfold Qeq in Heq.
  pose proof (pow2_pos K HK) as HpK.
  destruct (Qred q) as [n d]. cbn [Qnum Qden] in *.
  assert (Hn : 0 < n) by nia.
  assert (Hnd : n < Zpos d * 2 ^ K).
  { assert (n * Zpos (Qden q) < Zpos d * 2 ^ K * Zpos (Qden q)) by nia. nia. }
  destruct n as [| a | a]; try lia.
  exact (int_truediv_pos a d K HK HKmax Hnd).
Qed.

(** The product of two positive floats of bounded magnitude is finite. *)
Lemma fmul_bounded (mx mf : positive) (ex ef : Z) :
  digits (Zpos mx) + ex + (digits (Zpos mf) + ef) <= emax - prec ->
  exists k,
    int_of_float (fmul (S754_finite false mx ex) (S754_finite false mf ef))
    = Ok k.
Proof.
  intros Hsum. rewrite fmul_finite.
  pose proof (round_core_upper (Zpos mx * Zpos mf) (ex + ef) ltac:(lia)) as Hu.
  rewrite int_of_pack by lia.
  assert (Hsnd : snd (round_core (Zpos mx * Zpos mf) (ex + ef)) <= emax - prec).
  { pose proof (digits_mul_le (Zpos mx) (Zpos mf) ltac:(lia) ltac:(lia)).
    pose proof (digits_pos (Zpos mx) ltac:(lia)).
    pose proof (digits_pos (Zpos mf) ltac:(lia)).
    unfold round_core.
    destruct (_ <=? _); cbn [snd]; [lia |].
    destruct (_ =? _); cbn [snd]; unfold fexp, emax, prec in *; lia. }
  apply Z.leb_le in Hsnd. rewrite Hsnd, orb_true_r. eexists. reflexivity.
Qed.

(** Among numbers that are not below zero, one that is not above another
    is at most the other. *)
Lemma not_above_le (t d : float) :
  flt t fzero = false -> fle t t = true ->
  (d = S754_zero false \/ exists m e, d = S754_finite false m e) ->
  flt d t = false ->
  fle t d = true.
Proof.
  intros Ht0 Hnum [-> | (md & ed & ->)] Hdt;
    destruct t as [s | s | | s m e]; try discriminate; try reflexivity;
    try (destruct s; discriminate).
  destruct s; [discriminate |].
  unfold flt, fle, SFltb, SFleb, SFcompare in *.
  change (Pos.compare_cont Eq m md) with (Pos.compare m md).
  change (Pos.compare_cont Eq md m) with (Pos.compare md m) in Hdt.
  rewrite (Z.compare_antisym ed e), (Pos.compare_antisym md m).
  destruct (ed ?= e); simpl in *; try discriminate; try reflexivity.
  destruct (Pos.compare md m); simpl in *; try discriminate; reflexivity.
Qed.

Lemma fle_refl (t : float) : t <> S754_nan -> fle t t = true.
Proof.
  intros Hn. destruct t as [s | s | | s m e]; try reflexivity;
    [destruct s; reflexivity | contradiction |].
  unfold fle, SFleb, SFcompare. rewrite Z.compare_refl.
  change (Pos.compare_cont Eq m m) with (Pos.compare m m).
  rewrite Pos.compare_refl. destruct s; reflexivity.
Qed.

End FloatProps.

(** ** Binary64 arithmetic: how far a rounded quotient or product is from
    the exact one *)

Module FloatNear.
Import Py.
Import FloatProps.

(** Rounding a mantissa of more digits than the format has, above the
    subnormal range: an infinity, or a finite float with a full mantissa
    that is the truncated mantissa or the next one. *)
Lemma binary_round_aux_near (s : bool) (mz ez : Z) (l : location) :
  0 < mz -> ez <= fexp (Zdigits2 mz + ez) -> emin < fexp (Zdigits2 mz + ez) ->
  let F := fexp (Zdigits2 mz + ez) in
  let m0 := mz / 2 ^ (F - ez) in
  let x := binary_round_aux prec emax s mz ez l in
  (exists s', x = S754_infinity s') \/
  exists m e,
    x = S754_finite s m e /\ F <= e /\ 2 ^ (prec - 1) <= Zpos m /\
    m0 <= Zpos m * 2 ^ (e - F) <= m0 + 1.
Proof.
  intros Hmz Hn Hnorm F m0 x. subst x.
  destruct (shr_fexp_m mz ez l ltac:(lia) Hn) as (mrs & Hfirst & Hm').
  unfold binary_round_aux. rewrite Hfirst. fold F in Hfirst, Hm' |- *.
  fold m0 in Hm'.
  set (m' := shr_m mrs) in *.
  pose proof (round_nearest_even_bounds m' (loc_of_shr_record mrs)) as Hr.
  set (m1 := round_nearest_even m' (loc_of_shr_record mrs)) in *.
  pose proof (digits_bounds mz Hmz) as Hb.
  pose proof (digits_pos mz Hmz) as HD.
  assert (HF : F = digits mz + ez - prec).
  { unfold F in *. rewrite Zdigits2_digits in * by exact Hmz.
    unfold fexp, emin in *. lia. }
  assert (Hk : F - ez = digits mz - prec) by lia.
  assert (Hk0 : 0 <= digits mz - prec) by lia.
  assert (Hlow : 2 ^ (prec - 1) <= m').
  { rewrite Hm'. unfold m0. rewrite Hk.
    apply Z.div_le_lower_bound; [apply pow2_pos; lia |].
    rewrite Z.mul_comm, <- Z.pow_add_r by (unfold prec in *; lia).
    replace (prec - 1 + (digits mz - prec)) with (digits mz - 1) by lia.
    lia. }
  assert (Hup : m' < 2 ^ prec).
  { rewrite Hm'. unfold m0. rewrite Hk.
    apply Z.div_lt_upper_bound; [apply pow2_pos; lia |].
    rewrite <- Z.pow_add_r by (unfold prec in *; lia).
    replace (digits mz - prec + prec) with (digits mz) by lia. lia. }
  assert (Hp1 : 2 ^ (prec - 1) = 4503599627370496) by reflexivity.
  assert (Hp : 2 ^ prec = 9007199254740992) by reflexivity.
  destruct (Z.eq_dec m1 (2 ^ prec)) as [Heq | Hne].
  - assert (Hn2 : fexp (Zdigits2 (2 ^ prec) + F) - F = 1).
    { change (Zdigits2 (2 ^ prec)) with 54.
      unfold fexp, prec, emax, emin in *. lia. }
    rewrite Heq. unfold shr_fexp, shr. rewrite fexp_spec, Hn2.
    cbn [shr_record_of_loc iter_pos shr_1 shr_m].
    destruct (Z.leb_spec (F + 1) (emax - prec)) as [Hfin | Hinf].
    + right. eexists. eexists. split; [reflexivity |].
      split; [lia |]. split; [rewrite Hp1; lia |].
      replace (F + 1 - F) with 1 by lia. rewrite <- Hm'.
      change (2 ^ 1) with 2. lia.
    + left. eexists. reflexivity.
  - assert (Hm1 : 2 ^ (prec - 1) <= m1 < 2 ^ prec) by lia.
    assert (Hd1 : digits m1 = prec).
    { pose proof (digits_lt_pow m1 prec ltac:(lia) ltac:(unfold prec; lia)
                    ltac:(lia)).
      pose proof (digits_ge_pow m1 (prec - 1) ltac:(unfold prec; lia)
                    ltac:(lia)).
      lia. }
    assert (Hcanon : fexp (digits m1 + F) = F).
    { rewrite Hd1. unfold fexp, emin in *. lia. }
    destruct (shr_fexp_exact m1 F ltac:(lia)) as [Hs2 _].
    rewrite Hs2 by (rewrite Zdigits2_digits by lia; lia).
    cbn [shr_m]. destruct m1 as [| q | q] eqn:Hq; try lia.
    destruct (Z.leb_spec F (emax - prec)) as [Hfin | Hinf].
    + right. exists q, F. split; [reflexivity |].
      split; [lia |]. split; [lia |].
      rewrite Z.sub_diag, Z.mul_1_r, <- Hm'. lia.
    + left. eexists. reflexivity.
Qed.


(** The quotient of two positive integers whose ratio is far from the
    subnormal range and from overflow: a valid float with a full
    mantissa, within one unit in the last place of the exact quotient. *)
Lemma int_truediv_near (a b : positive) (K L : Z) :
  0 <= K -> K < emax -> 0 <= L -> L + prec + 1 < - emin ->
  Zpos a < Zpos b * 2 ^ K ->
  Zpos b < Zpos a * 2 ^ L ->
  exists m e,
    int_truediv (Zpos a) (Zpos b) = Ok (S754_finite false m e) /\
    fvalid (S754_finite false m e) = true /\
    2 ^ (prec - 1) <= Zpos m /\
    - L - prec <= e /\
    digits (Zpos m) + e <= K + 1 /\
    forall c, c <= e -> c <= 0 ->
      (Zpos m - 1) * 2 ^ (e - c) * Zpos b <= Zpos a * 2 ^ (- c)
      /\ Zpos a * 2 ^ (- c) <= (Zpos m + 1) * 2 ^ (e - c) * Zpos b.
Proof.
  intros HK HKmax HL HLmin Hlt Hgt.
  destruct (int_truediv_pos a b K HK HKmax Hlt) as (x & Hx & Hvx & Hshape).
  unfold int_truediv in Hx |- *.
  cbn [Z.eqb exact_of_Z SFdiv xorb] in Hx |- *.
  destruct (div_core_spec a b) as [l Hcore]. cbv zeta in Hcore.
  set (s := - Z.min (fexp (digits (Zpos a) - digits (Zpos b))) 0) in *.
  rewrite Hcore in Hx |- *.
  set (q := Zpos a * 2 ^ s / Zpos b) in *.
  assert (Hs : 0 <= s) by (unfold s; lia).
  pose proof (pow2_pos s Hs) as Hps.
  pose proof (digits_bounds (Zpos a) ltac:(lia)) as Hba.
  pose proof (digits_bounds (Zpos b) ltac:(lia)) as Hbb.
  pose proof (digits_pos (Zpos a) ltac:(lia)) as Hda.
  pose proof (digits_pos (Zpos b) ltac:(lia)) as Hdb.
  set (da := digits (Zpos a)) in *. set (db := digits (Zpos b)) in *.
  (* the divisor has at most [L] digits more than the dividend *)
  assert (Hdiff : db <= da + L).
  { assert (Hb2 : Zpos b < 2 ^ (da + L)).
    { rewrite Z.pow_add_r by lia. pose proof (pow2_pos L HL). nia. }
    pose proof (digits_lt_pow (Zpos b) (da + L) ltac:(lia) ltac:(lia) Hb2).
    exact H. }
  assert (Hsval : s = Z.max (prec + db - da) 0).
  { unfold s, fexp, emin, prec, emax in *. lia. }
  assert (Hq2 : 2 ^ (da - db + s - 1) <= q).
  { apply Z.div_le_lower_bound; [lia |].
    apply Z.le_trans with (2 ^ (da - 1) * 2 ^ s); [| nia].
    rewrite <- Z.pow_add_r by lia.
    replace (da - 1 + s) with (db + (da - db + s - 1)) by lia.
    rewrite Z.pow_add_r by (unfold prec in *; lia).
    pose proof (pow2_pos (da - db + s - 1) ltac:(unfold prec in *; lia)).
    nia. }
  assert (Hqpos : 0 < q).
  { pose proof (pow2_pos (da - db + s - 1) ltac:(unfold prec in *; lia)).
    lia. }
  assert (Hdq : da - db + s <= digits q).
  { pose proof (digits_ge_pow q (da - db + s - 1)
                  ltac:(unfold prec in *; lia) Hq2). lia. }
  assert (HF : fexp (Zdigits2 q + - s) = digits q - s - prec).
  { rewrite Zdigits2_digits by exact Hqpos.
    unfold fexp, emin, prec, emax in *. lia. }
  assert (Hn : - s <= fexp (Zdigits2 q + - s)) by lia.
  assert (Hnorm : emin < fexp (Zdigits2 q + - s))
    by (unfold emin, prec, emax in *; lia).
  pose proof (binary_round_aux_near false q (- s) l Hqpos Hn Hnorm) as Hnear.
  cbv zeta in Hnear. rewrite HF in Hnear.
  destruct Hnear as [[s' Hinf] | (m & e & Hfin & HFe & Hfull & Hm0)].
  { rewrite Hinf in Hx. discriminate. }
  rewrite Hfin in Hx |- *. injection Hx as <-.
  exists m, e. split; [reflexivity |]. split; [exact Hvx |].
  split; [exact Hfull |]. split; [lia |].
  split.
  { destruct Hshape as [Hz | (m2 & e2 & Heq & Hmag)]; [discriminate |].
    injection Heq as <- <-. exact Hmag. }
  intros c Hce Hc0.
  set (G := digits q - s - prec - - s) in *.
  assert (HG : 0 <= G) by (unfold G; lia).
  pose proof (pow2_pos G HG) as HpG.
  set (m0 := q / 2 ^ G) in *.
  (* the truncated mantissa against the exact quotient *)
  assert (Hq_lo : Zpos b * q <= Zpos a * 2 ^ s)
    by (apply Z.mul_div_le; lia).
  assert (Hq_hi : Zpos a * 2 ^ s < Zpos b * (q + 1)).
  { pose proof (Z.mul_succ_div_gt (Zpos a * 2 ^ s) (Zpos b) ltac:(lia)).
    fold q in H. lia. }
  assert (Hm_lo : 2 ^ G * m0 <= q) by (apply Z.mul_div_le; lia).
  assert (Hm_hi : q < 2 ^ G * (m0 + 1)).
  { pose proof (Z.mul_succ_div_gt q (2 ^ G) ltac:(lia)).
    fold m0 in H. lia. }
  set (M := Zpos m * 2 ^ (e - (digits q - s - prec))) in *.
  pose proof (pow2_pos (e - (digits q - s - prec)) ltac:(lia)) as HpE.
  set (P := 2 ^ (e - (digits q - s - prec))) in *.
  assert (HPG : P * 2 ^ G = 2 ^ (e + s)).
  { unfold P, G. rewrite <- Z.pow_add_r by lia. f_equal. lia. }
  assert (Hlo : (Zpos m - 1) * 2 ^ (e + s) * Zpos b <= Zpos a * 2 ^ s).
  { rewrite <- HPG.
    assert (H1 : (Zpos m - 1) * P <= m0).
    { unfold M in Hm0. rewrite Z.mul_sub_distr_r. lia. }
    assert (H2 : (Zpos m - 1) * P * 2 ^ G <= m0 * 2 ^ G).
    { apply Z.mul_le_mono_nonneg_r; [lia | exact H1]. }
    assert (H3 : (Zpos m - 1) * P * 2 ^ G * Zpos b <= q * Zpos b).
    { apply Z.mul_le_mono_nonneg_r; lia. }
    lia. }
  assert (Hhi : Zpos a * 2 ^ s <= (Zpos m + 1) * 2 ^ (e + s) * Zpos b).
  { rewrite <- HPG.
    assert (H1 : m0 + 1 <= (Zpos m + 1) * P).
    { unfold M in Hm0. rewrite Z.mul_add_distr_r. lia. }
    assert (H2 : (m0 + 1) * 2 ^ G <= (Zpos m + 1) * P * 2 ^ G).
    { apply Z.mul_le_mono_nonneg_r; [lia | exact H1]. }
    assert (H3 : (q + 1) * Zpos b <= (Zpos m + 1) * P * 2 ^ G * Zpos b).
    { apply Z.mul_le_mono_nonneg_r; lia. }
    lia. }
  (* from the scale [s] to the scale [- c] *)
  assert (Hsplit : 2 ^ (e - c) * 2 ^ s = 2 ^ (e + s) * 2 ^ (- c)).
  { rewrite <- !Z.pow_add_r by lia. f_equal. lia. }
  pose proof (pow2_pos (- c) ltac:(lia)) as HpC.
  pose proof (pow2_pos (e - c) ltac:(lia)) as HpEC.
  split.
  - apply (Z.mul_le_mono_pos_r _ _ (2 ^ s) Hps).
    replace ((Zpos m - 1) * 2 ^ (e - c) * Zpos b * 2 ^ s)
      with ((Zpos m - 1) * (2 ^ (e - c) * 2 ^ s) * Zpos b) by ring.
    rewrite Hsplit.
    replace ((Zpos m - 1) * (2 ^ (e + s) * 2 ^ (- c)) * Zpos b)
      with ((Zpos m - 1) * 2 ^ (e + s) * Zpos b * 2 ^ (- c)) by ring.
    replace (Zpos a * 2 ^ (- c) * 2 ^ s)
      with (Zpos a * 2 ^ s * 2 ^ (- c)) by ring.
    apply Z.mul_le_mono_nonneg_r; lia.
  - apply (Z.mul_le_mono_pos_r _ _ (2 ^ s) Hps).
    replace ((Zpos m + 1) * 2 ^ (e - c) * Zpos b * 2 ^ s)
      with ((Zpos m + 1) * (2 ^ (e - c) * 2 ^ s) * Zpos b) by ring.
    rewrite Hsplit.
    replace ((Zpos m + 1) * (2 ^ (e + s) * 2 ^ (- c)) * Zpos b)
      with ((Zpos m + 1) * 2 ^ (e + s) * Zpos b * 2 ^ (- c)) by ring.
    replace (Zpos a * 2 ^ (- c) * 2 ^ s)
      with (Zpos a * 2 ^ s * 2 ^ (- c)) by ring.
    apply Z.mul_le_mono_nonneg_r; lia.
Qed.

(** Rounding on the grid, above the subnormal range, moves a number by at
    most one part in [2 ^ 52]. *)
Lemma grid_round_near (c N : Z) :
  c <= emin -> 0 < N -> emin <= digits N + c - prec ->
  (2 ^ 52 - 1) * N <= 2 ^ 52 * grid_round c N <= (2 ^ 52 + 1) * N.
Proof.
  intros Hc HN Hnorm. unfold grid_round.
  pose proof (grid_exp_nonneg c N Hc) as Hg0.
  assert (Hg : grid_exp c N = digits N - prec).
  { unfold grid_exp, fexp, emin in *. lia. }
  rewrite Hg in *.
  set (g := digits N - prec) in *.
  pose proof (pow2_pos g Hg0) as Hpg.
  pose proof (rne_bounds N g Hg0) as Hr.
  set (r := rne N g) in *.
  pose proof (Z.mul_div_le N (2 ^ g) Hpg) as Hd_lo.
  pose proof (Z.mul_succ_div_gt N (2 ^ g) Hpg) as Hd_hi.
  set (d := N / 2 ^ g) in *.
  assert (Hulp : 2 ^ 52 * 2 ^ g <= N).
  { rewrite <- Z.pow_add_r by lia.
    replace (52 + g) with (digits N - 1) by (unfold g, prec; lia).
    pose proof (digits_bounds N HN). lia. }
  assert (Hlo : 2 ^ g * d <= r * 2 ^ g) by nia.
  assert (Hhi : r * 2 ^ g <= 2 ^ g * d + 2 ^ g) by nia.
  set (U := 2 ^ g) in *. set (RU := r * U) in *. set (DU := U * d) in *.
  change (2 ^ 52) with 4503599627370496 in *. lia.
Qed.

(** The exact product of two quotients, each known to one unit in the
    last place of a full mantissa, against the product of the
    mantissas. *)
Lemma near_product (mt mf Ut Uf bt bf a_t a_f W1 n : Z) :
  2 ^ 52 <= mt -> 2 ^ 52 <= mf -> 0 < Ut -> 0 < Uf ->
  0 < bt -> 0 < bf -> 0 < a_t -> 0 < a_f -> 0 < W1 ->
  a_t * a_f = n * (bt * bf) ->
  (mt - 1) * Ut * bt <= a_t * W1 <= (mt + 1) * Ut * bt ->
  (mf - 1) * Uf * bf <= a_f * W1 <= (mf + 1) * Uf * bf ->
  let N := (mt * Ut) * (mf * Uf) in
  (2 ^ 52 - 1) * (2 ^ 52 - 1) * N <= 2 ^ 52 * 2 ^ 52 * (n * (W1 * W1))
  /\ 2 ^ 52 * 2 ^ 52 * (n * (W1 * W1)) <= (2 ^ 52 + 1) * (2 ^ 52 + 1) * N.
Proof.
  intros Hmt Hmf HUt HUf Hbt Hbf Hat Haf HW Hprod [Ht_lo Ht_hi] [Hf_lo Hf_hi] N.
  change (2 ^ 52) with 4503599627370496 in *.
  set (E := 4503599627370496) in *.
  assert (HE : 0 < E) by (unfold E; lia).
  set (LT := (mt - 1) * Ut). set (LF := (mf - 1) * Uf).
  set (UT := (mt + 1) * Ut). set (UF := (mf + 1) * Uf).
  assert (HBB : 0 < bt * bf) by (apply Z.mul_pos_pos; assumption).
  (* the exact product between the products of the bounds *)
  assert (Hlow : LT * LF <= n * (W1 * W1)).
  { apply (Z.mul_le_mono_pos_r _ _ (bt * bf) HBB).
    replace (LT * LF * (bt * bf)) with ((LT * bt) * (LF * bf)) by ring.
    replace (n * (W1 * W1) * (bt * bf)) with ((a_t * W1) * (a_f * W1))
      by (transitivity (a_t * a_f * (W1 * W1)); [ring | rewrite Hprod; ring]).
    apply Z.mul_le_mono_nonneg; fold LT in Ht_lo; fold LF in Hf_lo; nia. }
  assert (Hupp : n * (W1 * W1) <= UT * UF).
  { apply (Z.mul_le_mono_pos_r _ _ (bt * bf) HBB).
    replace (UT * UF * (bt * bf)) with ((UT * bt) * (UF * bf)) by ring.
    replace (n * (W1 * W1) * (bt * bf)) with ((a_t * W1) * (a_f * W1))
      by (transitivity (a_t * a_f * (W1 * W1)); [ring | rewrite Hprod; ring]).
    apply Z.mul_le_mono_nonneg; fold UT in Ht_hi; fold UF in Hf_hi; nia. }
  (* the bounds against the mantissas *)
  assert (Hfull : forall m U, E <= m -> 0 < U ->
             (E - 1) * (m * U) <= E * ((m - 1) * U) /\
             E * ((m + 1) * U) <= (E + 1) * (m * U) /\
             0 <= m * U /\ 0 <= (m - 1) * U /\ 0 <= (m + 1) * U).
  { intros m U Hm HU. repeat split.
    - replace ((E - 1) * (m * U)) with ((E - 1) * m * U) by ring.
      replace (E * ((m - 1) * U)) with (E * (m - 1) * U) by ring.
      apply Z.mul_le_mono_nonneg_r; unfold E in *; lia.
    - replace ((E + 1) * (m * U)) with ((E + 1) * m * U) by ring.
      replace (E * ((m + 1) * U)) with (E * (m + 1) * U) by ring.
      apply Z.mul_le_mono_nonneg_r; unfold E in *; lia.
    - apply Z.mul_nonneg_nonneg; unfold E in *; lia.
    - apply Z.mul_nonneg_nonneg; unfold E in *; lia.
    - apply Z.mul_nonneg_nonneg; unfold E in *; lia. }
  destruct (Hfull mt Ut Hmt HUt) as (HT1 & HT2 & HTz & HLT & HUT).
  destruct (Hfull mf Uf Hmf HUf) as (HF1 & HF2 & HFz & HLF & HUF).
  fold LT in HT1, HLT. fold UT in HT2, HUT.
  fold LF in HF1, HLF. fold UF in HF2, HUF.
  split.
  - apply Z.le_trans with (E * E * (LT * LF)).
    + replace ((E - 1) * (E - 1) * N)
        with (((E - 1) * (mt * Ut)) * ((E - 1) * (mf * Uf)))
        by (unfold N; ring).
      replace (E * E * (LT * LF)) with ((E * LT) * (E * LF)) by ring.
      apply Z.mul_le_mono_nonneg; unfold E in *; nia.
    + apply Z.mul_le_mono_nonneg_l; [unfold E; lia | exact Hlow].
  - apply Z.le_trans with (E * E * (UT * UF)).
    + apply Z.mul_le_mono_nonneg_l; [unfold E; lia | exact Hupp].
    + replace ((E + 1) * (E + 1) * N)
        with (((E + 1) * (mt * Ut)) * ((E + 1) * (mf * Uf)))
        by (unfold N; ring).
      replace (E * E * (UT * UF)) with ((E * UT) * (E * UF)) by ring.
      assert (0 <= UT) by (unfold UT; nia).
      assert (0 <= UF) by (unfold UF; nia).
      apply Z.mul_le_mono_nonneg; unfold E in *; nia.
Qed.

(** From the product to the index: a rounded product that close to
    [n] times the grid's unit truncates to [n] or to [n - 1]. *)
Lemma near_index (N R W n : Z) :
  0 < W -> 1 <= n < 2 ^ 31 -> 0 <= N ->
  (2 ^ 52 - 1) * (2 ^ 52 - 1) * N <= 2 ^ 52 * 2 ^ 52 * (n * W) ->
  2 ^ 52 * 2 ^ 52 * (n * W) <= (2 ^ 52 + 1) * (2 ^ 52 + 1) * N ->
  (2 ^ 52 - 1) * N <= 2 ^ 52 * R <= (2 ^ 52 + 1) * N ->
  n - 1 <= R / W <= n.
Proof.
  intros HW Hn HN Hlo Hhi [HR_lo HR_hi].
  change (2 ^ 52) with 4503599627370496 in *.
  change (2 ^ 31) with 2147483648 in *.
  set (E := 4503599627370496) in *.
  assert (HnW : 0 < n * W) by nia.
  set (nW := n * W) in *.
  (* the product of the three bounds *)
  assert (H1 : R * ((E - 1) * (E - 1)) <= (E + 1) * E * nW).
  { assert (Ha : E * R * ((E - 1) * (E - 1))
                 <= (E + 1) * N * ((E - 1) * (E - 1))).
    { apply Z.mul_le_mono_nonneg_r; [unfold E; lia | lia]. }
    assert (Hb : (E + 1) * ((E - 1) * (E - 1) * N)
                 <= (E + 1) * (E * E * nW)).
    { apply Z.mul_le_mono_nonneg_l; [unfold E; lia | exact Hlo]. }
    assert (Hc : E * (R * ((E - 1) * (E - 1))) <= E * ((E + 1) * E * nW)).
    { replace (E * (R * ((E - 1) * (E - 1))))
        with (E * R * ((E - 1) * (E - 1))) by ring.
      replace (E * ((E + 1) * E * nW)) with ((E + 1) * (E * E * nW)) by ring.
      replace ((E + 1) * N * ((E - 1) * (E - 1)))
        with ((E + 1) * ((E - 1) * (E - 1) * N)) in Ha by ring.
      exact (Z.le_trans _ _ _ Ha Hb). }
    apply (Z.mul_le_mono_pos_l _ _ E); [unfold E; lia | exact Hc]. }
  assert (H2 : (E - 1) * E * nW <= R * ((E + 1) * (E + 1))).
  { assert (Ha : (E - 1) * N * ((E + 1) * (E + 1))
                 <= E * R * ((E + 1) * (E + 1))).
    { apply Z.mul_le_mono_nonneg_r; [unfold E; lia | lia]. }
    assert (Hb : (E - 1) * (E * E * nW)
                 <= (E - 1) * ((E + 1) * (E + 1) * N)).
    { apply Z.mul_le_mono_nonneg_l; [unfold E; lia | exact Hhi]. }
    assert (Hc : E * ((E - 1) * E * nW) <= E * (R * ((E + 1) * (E + 1)))).
    { replace (E * (R * ((E + 1) * (E + 1))))
        with (E * R * ((E + 1) * (E + 1))) by ring.
      replace (E * ((E - 1) * E * nW)) with ((E - 1) * (E * E * nW)) by ring.
      replace ((E - 1) * N * ((E + 1) * (E + 1)))
        with ((E - 1) * ((E + 1) * (E + 1) * N)) in Ha by ring.
      exact (Z.le_trans _ _ _ Hb Ha). }
    apply (Z.mul_le_mono_pos_l _ _ E); [unfold E; lia | exact Hc]. }
  assert (Hup : R < (n + 1) * W).
  { apply (Z.mul_lt_mono_pos_r ((E - 1) * (E - 1))); [unfold E; lia |].
    apply Z.le_lt_trans with ((E + 1) * E * nW); [exact H1 |].
    unfold nW, E in *. nia. }
  assert (Hdn : (n - 1) * W <= R).
  { apply (Z.mul_le_mono_pos_r _ _ ((E + 1) * (E + 1))); [unfold E; lia |].
    apply Z.le_trans with ((E - 1) * E * nW); [| exact H2].
    unfold nW, E in *. nia. }
  split.
  - apply Z.div_le_lower_bound; [exact HW | lia].
  - assert (R / W < n + 1); [| lia].
    apply Z.div_lt_upper_bound; [exact HW | lia].
Qed.

(** The key of a product of two such floats. *)
Lemma fmul_key_near (mt mf : positive) (et ef c1 : Z) (bt bf a_t a_f n : Z) :
  2 ^ 52 <= Zpos mt -> 2 ^ 52 <= Zpos mf ->
  digits (Zpos mt) + et + (digits (Zpos mf) + ef) <= emax - prec ->
  c1 <= et -> c1 <= ef -> c1 <= 0 -> 2 * c1 <= emin ->
  0 < bt -> 0 < bf -> 0 < a_t -> 0 < a_f ->
  1 <= n < 2 ^ 31 ->
  a_t * a_f = n * (bt * bf) ->
  (Zpos mt - 1) * 2 ^ (et - c1) * bt <= a_t * 2 ^ (- c1)
  <= (Zpos mt + 1) * 2 ^ (et - c1) * bt ->
  (Zpos mf - 1) * 2 ^ (ef - c1) * bf <= a_f * 2 ^ (- c1)
  <= (Zpos mf + 1) * 2 ^ (ef - c1) * bf ->
  exists k,
    int_of_float (fmul (S754_finite false mt et) (S754_finite false mf ef))
    = Ok k /\ n - 1 <= k <= n.
Proof.
  intros Hmt Hmf Hmag Hct Hcf Hc0 Hcmin Hbt Hbf Hat Haf Hn Hprod Ht Hf.
  destruct (fmul_bounded mt mf et ef Hmag) as [k Hk].
  exists k. split; [exact Hk |].
  rewrite fmul_finite in Hk.
  pose proof (round_core_upper (Zpos mt * Zpos mf) (et + ef) ltac:(lia))
    as Hfst.
  rewrite int_of_pack in Hk by lia.
  destruct (round_core_grid (Zpos mt * Zpos mf) (et + ef) (2 * c1)
              ltac:(lia) ltac:(lia) Hcmin) as [Hsnd Hgrid].
  set (rc := round_core (Zpos mt * Zpos mf) (et + ef)) in *.
  destruct ((fst rc =? 0) || (snd rc <=? emax - prec)); [| discriminate].
  injection Hk as <-.
  rewrite (shiftl_grid (fst rc) (snd rc) (2 * c1)) by lia.
  rewrite Hgrid.
  pose proof (pow2_pos (et - c1) ltac:(lia)) as HUt.
  pose proof (pow2_pos (ef - c1) ltac:(lia)) as HUf.
  pose proof (pow2_pos (- c1) ltac:(lia)) as HW1.
  assert (HN : Zpos mt * Zpos mf * 2 ^ (et + ef - 2 * c1)
               = (Zpos mt * 2 ^ (et - c1)) * (Zpos mf * 2 ^ (ef - c1))).
  { replace (et + ef - 2 * c1) with ((et - c1) + (ef - c1)) by lia.
    rewrite Z.pow_add_r by lia. ring. }
  assert (HW : 2 ^ (- (2 * c1)) = 2 ^ (- c1) * 2 ^ (- c1)).
  { rewrite <- Z.pow_add_r by lia. f_equal. lia. }
  rewrite HN, HW.
  destruct (near_product (Zpos mt) (Zpos mf) (2 ^ (et - c1)) (2 ^ (ef - c1))
              bt bf a_t a_f (2 ^ (- c1)) n
              Hmt Hmf HUt HUf Hbt Hbf Hat Haf HW1 Hprod Ht Hf)
    as [Hlo Hhi].
  set (N := (Zpos mt * 2 ^ (et - c1)) * (Zpos mf * 2 ^ (ef - c1))) in *.
  set (W := 2 ^ (- c1) * 2 ^ (- c1)) in *.
  assert (HWpos : 0 < W) by (unfold W; nia).
  assert (HNpos : 0 < N) by (unfold N; nia).
  (* the product is at least a quarter of the unit *)
  assert (HNW : W <= 4 * N).
  { assert (H1 : 2 ^ 52 * 2 ^ 52 * W <= 2 ^ 52 * 2 ^ 52 * (n * W)).
    { apply Z.mul_le_mono_nonneg_l; [lia | nia]. }
    change (2 ^ 52) with 4503599627370496 in *. lia. }
  assert (Hnorm : emin <= digits N + 2 * c1 - prec).
  { assert (Hq : 2 ^ (- (2 * c1) - 2) <= N).
    { assert (Hs : 2 ^ (- (2 * c1)) = 2 ^ (- (2 * c1) - 2) * 4).
      { change 4 with (2 ^ 2). rewrite <- Z.pow_add_r
          by (unfold emin, emax, prec in *; lia).
        f_equal. lia. }
      rewrite HW in Hs. fold W in Hs. lia. }
    pose proof (digits_ge_pow N (- (2 * c1) - 2)
                  ltac:(unfold emin, emax, prec in *; lia) Hq).
    unfold emin, emax, prec in *. lia. }
  pose proof (grid_round_near (2 * c1) N Hcmin HNpos Hnorm) as HR.
  apply (near_index N (grid_round (2 * c1) N) W n HWpos Hn ltac:(lia)
           Hlo Hhi HR).
Qed.

(** Valid positive floats are ordered as their values are. *)
Lemma flt_false_of_value (mx my : positive) (ex ey c : Z) :
  fvalid (S754_finite false mx ex) = true ->
  fvalid (S754_finite false my ey) = true ->
  c <= ex -> c <= ey ->
  Zpos my * 2 ^ (ey - c) <= Zpos mx * 2 ^ (ex - c) ->
  flt (S754_finite false mx ex) (S754_finite false my ey) = false.
Proof.
  intros Hvx Hvy Hcx Hcy Hle.
  destruct (flt (S754_finite false mx ex) (S754_finite false my ey)) eqn:Hlt;
    [exfalso | reflexivity].
  assert (Hfle : fle (S754_finite false mx ex) (S754_finite false my ey)
                 = true).
  { unfold flt, fle, SFltb, SFleb in *.
    destruct (SFcompare _ _) as [[| |] |]; try discriminate; reflexivity. }
  pose proof (fle_value mx my ex ey c Hvx Hvy Hfle Hcx Hcy) as Hge.
  assert (Heq : Zpos mx * 2 ^ (ex - c) = Zpos my * 2 ^ (ey - c)) by lia.
  apply valid_finite in Hvx, Hvy. destruct Hvx as [Hx _], Hvy as [Hy _].
  assert (Hd : digits (Zpos mx) + (ex - c) = digits (Zpos my) + (ey - c)).
  { rewrite <- !digits_shift by lia. rewrite Heq. reflexivity. }
  assert (Hex : ex = ey).
  { rewrite <- Hx, <- Hy. f_equal. lia. }
  subst ey.
  assert (Hm : Zpos mx = Zpos my).
  { pose proof (pow2_pos (ex - c) ltac:(lia)). nia. }
  injection Hm as ->.
  unfold flt, SFltb, SFcompare in Hlt. rewrite Z.compare_refl in Hlt.
  change (Pos.compare_cont Eq my my) with (Pos.compare my my) in Hlt.
  rewrite Pos.compare_refl in Hlt. discriminate.
Qed.

(** The float of a positive fraction whose value is far from the
    subnormal range and from overflow, against numerator and
    denominator. *)
Lemma float_of_fraction_near (q : Fraction) (K L : Z) :
  0 <= K -> K < emax -> 0 <= L -> L + prec + 1 < - emin ->
  0 < Qnum q ->
  Qnum q < Zpos (Qden q) * 2 ^ K ->
  Zpos (Qden q) < Qnum q * 2 ^ L ->
  exists m e,
    float_of_fraction q = Ok (S754_finite false m e) /\
    fvalid (S754_finite false m e) = true /\
    2 ^ (prec - 1) <= Zpos m /\
    - L - prec <= e /\
    digits (Zpos m) + e <= K + 1 /\
    forall c, c <= e -> c <= 0 ->
      (Zpos m - 1) * 2 ^ (e - c) * Zpos (Qden q) <= Qnum q * 2 ^ (- c)
      /\ Qnum q * 2 ^ (- c) <= (Zpos m + 1) * 2 ^ (e - c) * Zpos (Qden q).
Proof.
  intros HK HKmax HL HLmin Hpos Hlt Hgt. unfold float_of_fraction.
  pose proof (Qred_correct q) as Heq. unfold Qeq in Heq.
  pose proof (pow2_pos K HK) as HpK. pose proof (pow2_pos L HL) as HpL.
  destruct (Qred q) as [a b]. cbn [Qnum Qden] in *.
  set (nq := Qnum q) in *. set (dq := Zpos (Qden q)) in *.
  assert (Hdq : 0 < dq) by (unfold dq; lia).
  assert (Ha : 0 < a) by nia.
  destruct a as [| a | a]; try lia.
  assert (Hab : Zpos a < Zpos b * 2 ^ K).
  { apply (Z.mul_lt_mono_pos_r dq _ _ Hdq).
    replace (Zpos b * 2 ^ K * dq) with (Zpos b * (dq * 2 ^ K)) by ring.
    rewrite Heq. rewrite (Z.mul_comm nq).
    apply Z.mul_lt_mono_pos_l; lia. }
  assert (Hba : Zpos b < Zpos a * 2 ^ L).
  { apply (Z.mul_lt_mono_pos_r nq _ _ Hpos).
    replace (Zpos b * nq) with (nq * Zpos b) by ring.
    rewrite <- Heq.
    replace (Zpos a * 2 ^ L * nq) with (Zpos a * (nq * 2 ^ L)) by ring.
    apply Z.mul_lt_mono_pos_l; lia. }
  destruct (int_truediv_near a b K L HK HKmax HL HLmin Hab Hba)
    as (m & e & Hx & Hv & Hfull & He & Hmag & Hnear).
  exists m, e. repeat (split; [assumption |]).
  intros c Hce Hc0. destruct (Hnear c Hce Hc0) as [Hlo Hhi].
  pose proof (pow2_pos (e - c) ltac:(lia)) as HU.
  pose proof (pow2_pos (- c) ltac:(lia)) as HW.
  set (U := 2 ^ (e - c)) in *. set (W := 2 ^ (- c)) in *.
  split.
  - apply (Z.mul_le_mono_pos_r _ _ (Zpos b) ltac:(lia)).
    replace (nq * W * Zpos b) with (nq * Zpos b * W) by ring.
    rewrite <- Heq.
    replace ((Zpos m - 1) * U * dq * Zpos b)
      with ((Zpos m - 1) * U * Zpos b * dq) by ring.
    replace (Zpos a * dq * W) with (Zpos a * W * dq) by ring.
    apply Z.mul_le_mono_nonneg_r; lia.
  - apply (Z.mul_le_mono_pos_r _ _ (Zpos b) ltac:(lia)).
    replace (nq * W * Zpos b) with (nq * Zpos b * W) by ring.
    rewrite <- Heq.
    replace ((Zpos m + 1) * U * dq * Zpos b)
      with ((Zpos m + 1) * U * Zpos b * dq) by ring.
    replace (Zpos a * dq * W) with (Zpos a * W * dq) by ring.
    apply Z.mul_le_mono_nonneg_r; lia.
Qed.

(** The time of a frame number, [float(n / rate)], against the number
    and the rate. *)
Lemma index_time_near (n : Z) (rate : Fraction) :
  0 < n < 2 ^ 31 -> 0 < Qnum rate < 2 ^ 63 -> Zpos (Qden rate) < 2 ^ 63 ->
  exists m e,
    (q <- fraction_div (inject_Z n) rate ;; float_of_fraction q)
    = Ok (S754_finite false m e) /\
    fvalid (S754_finite false m e) = true /\
    2 ^ 52 <= Zpos m /\ - 116 <= e /\ digits (Zpos m) + e <= 95 /\
    forall c, c <= e -> c <= 0 ->
      (Zpos m - 1) * 2 ^ (e - c) * Qnum rate
      <= n * Zpos (Qden rate) * 2 ^ (- c)
      /\ n * Zpos (Qden rate) * 2 ^ (- c)
         <= (Zpos m + 1) * 2 ^ (e - c) * Qnum rate.
Proof.
  intros Hn Hp Hden. unfold fraction_div.
  destruct (Z.eqb_spec (Qnum rate) 0) as [? | _]; [lia |]. cbn [bind].
  pose proof (Qred_correct (inject_Z n / rate)) as Heq.
  set (q := Qred (inject_Z n / rate)) in *. clearbody q.
  unfold Qeq in Heq. destruct rate as [p den]. cbn [Qnum Qden] in *.
  destruct p as [| p | p]; try lia.
  cbn in Heq.
  set (P := Zpos p) in *. set (D := Zpos den) in *.
  set (nq := Qnum q) in *. set (dq := Zpos (Qden q)) in *.
  assert (HD : 0 < D) by (unfold D; lia).
  assert (Hdq : 0 < dq) by (unfold dq; lia).
  assert (HnD : 0 < n * D < 2 ^ 31 * 2 ^ 63).
  { change (2 ^ 31) with 2147483648 in *.
    change (2 ^ 63) with 9223372036854775808 in *. nia. }
  assert (Hnq : 0 < nq) by nia.
  assert (Hrel : nq * P = n * D * dq) by exact Heq.
  assert (Hup : nq < dq * 2 ^ 94).
  { change (2 ^ 94) with (2 ^ 31 * 2 ^ 63).
    apply Z.le_lt_trans with (nq * P); [nia |].
    rewrite Hrel. rewrite (Z.mul_comm dq).
    apply Z.mul_lt_mono_pos_r; lia. }
  assert (Hlow : dq < nq * 2 ^ 63).
  { apply Z.le_lt_trans with (n * D * dq); [nia |].
    rewrite <- Hrel. apply Z.mul_lt_mono_pos_l; lia. }
  destruct (float_of_fraction_near q 94 63)
    as (m & e & Hx & Hv & Hfull & He & Hmag & Hnear);
    try (unfold emin, emax, prec; lia); try assumption.
  exists m, e. split; [exact Hx |]. split; [exact Hv |].
  split; [exact Hfull |]. split; [unfold prec in He; lia |].
  split; [lia |].
  intros c Hce Hc0. destruct (Hnear c Hce Hc0) as [Hlo Hhi].
  fold nq dq in Hlo, Hhi.
  set (U := 2 ^ (e - c)) in *. set (W := 2 ^ (- c)) in *.
  split.
  - apply (Z.mul_le_mono_pos_r _ _ dq Hdq).
    replace (n * D * W * dq) with (n * D * dq * W) by ring.
    rewrite <- Hrel.
    replace ((Zpos m - 1) * U * P * dq)
      with ((Zpos m - 1) * U * dq * P) by ring.
    replace (nq * P * W) with (nq * W * P) by ring.
    apply Z.mul_le_mono_nonneg_r; [unfold P; lia | exact Hlo].
  - apply (Z.mul_le_mono_pos_r _ _ dq Hdq).
    replace (n * D * W * dq) with (n * D * dq * W) by ring.
    rewrite <- Hrel.
    replace ((Zpos m + 1) * U * P * dq)
      with ((Zpos m + 1) * U * dq * P) by ring.
    replace (nq * P * W) with (nq * W * P) by ring.
    apply Z.mul_le_mono_nonneg_r; [unfold P; lia | exact Hhi].
Qed.

(** The rate as a float, against the rate. *)
Lemma rate_near (rate : Fraction) :
  0 < Qnum rate < 2 ^ 63 -> Zpos (Qden rate) < 2 ^ 63 ->
  exists m e,
    float_of_fraction rate = Ok (S754_finite false m e) /\
    2 ^ 52 <= Zpos m /\ - 116 <= e /\ digits (Zpos m) + e <= 64 /\
    forall c, c <= e -> c <= 0 ->
      (Zpos m - 1) * 2 ^ (e - c) * Zpos (Qden rate) <= Qnum rate * 2 ^ (- c)
      /\ Qnum rate * 2 ^ (- c)
         <= (Zpos m + 1) * 2 ^ (e - c) * Zpos (Qden rate).
Proof.
  intros Hp Hden.
  destruct (float_of_fraction_near rate 63 63)
    as (m & e & Hx & _ & Hfull & He & Hmag & Hnear);
    try (unfold emin, emax, prec; lia).
  exists m, e. split; [exact Hx |]. split; [exact Hfull |].
  split; [unfold prec in He; lia |]. split; [lia | exact Hnear].
Qed.

(** Two quotients of one divisor, each known to a unit in the last place:
    that of the smaller number is not the larger. *)
Lemma near_order (mx my Ux Uy p Z0 n N : Z) :
  2 ^ 52 <= mx -> 0 < my -> 0 < Ux -> 0 < Uy -> 0 < p -> 0 < Z0 ->
  1 <= n -> n < N -> N < 2 ^ 31 ->
  (mx - 1) * Ux * p <= n * Z0 ->
  N * Z0 <= (my + 1) * Uy * p ->
  2 ^ 52 <= my ->
  mx * Ux <= my * Uy.
Proof.
  intros Hmx Hmy HUx HUy Hp HZ Hn HnN HN Hx Hy Hmy2.
  change (2 ^ 52) with 4503599627370496 in *.
  change (2 ^ 31) with 2147483648 in *.
  set (E := 4503599627370496) in *.
  set (X := mx * Ux). set (Y := my * Uy).
  assert (HY : 0 <= Y * p) by (unfold Y; nia).
  assert (H1 : (E - 1) * (X * p) <= E * (n * Z0)).
  { apply Z.le_trans with (E * ((mx - 1) * Ux * p)).
    - replace ((E - 1) * (X * p)) with (((E - 1) * mx) * (Ux * p))
        by (unfold X; ring).
      replace (E * ((mx - 1) * Ux * p)) with ((E * (mx - 1)) * (Ux * p))
        by ring.
      apply Z.mul_le_mono_nonneg_r; [nia | unfold E in *; lia].
    - apply Z.mul_le_mono_nonneg_l; [unfold E; lia | exact Hx]. }
  assert (H2 : E * (N * Z0) <= (E + 1) * (Y * p)).
  { apply Z.le_trans with (E * ((my + 1) * Uy * p)).
    - apply Z.mul_le_mono_nonneg_l; [unfold E; lia | exact Hy].
    - replace ((E + 1) * (Y * p)) with (((E + 1) * my) * (Uy * p))
        by (unfold Y; ring).
      replace (E * ((my + 1) * Uy * p)) with ((E * (my + 1)) * (Uy * p))
        by ring.
      apply Z.mul_le_mono_nonneg_r; [nia | unfold E in *; lia]. }
  assert (H3 : N * ((E - 1) * (X * p)) <= N * (E * (n * Z0))).
  { apply Z.mul_le_mono_nonneg_l; [lia | exact H1]. }
  assert (H4 : n * (E * (N * Z0)) <= n * ((E + 1) * (Y * p))).
  { apply Z.mul_le_mono_nonneg_l; [lia | exact H2]. }
  assert (H5 : n * (E + 1) * (Y * p) <= (E - 1) * N * (Y * p)).
  { apply Z.mul_le_mono_nonneg_r; [exact HY | unfold E; lia]. }
  assert (H6 : (E - 1) * N * (X * p) <= (E - 1) * N * (Y * p)).
  { replace ((E - 1) * N * (X * p)) with (N * ((E - 1) * (X * p))) by ring.
    apply Z.le_trans with (N * (E * (n * Z0))); [exact H3 |].
    replace (N * (E * (n * Z0))) with (n * (E * (N * Z0))) by ring.
    apply Z.le_trans with (n * ((E + 1) * (Y * p))); [exact H4 |].
    replace (n * ((E + 1) * (Y * p))) with (n * (E + 1) * (Y * p)) by ring.
    exact H5. }
  assert (H7 : X * p <= Y * p).
  { apply (Z.mul_le_mono_pos_l _ _ ((E - 1) * N)); [unfold E; nia |].
    exact H6. }
  apply (Z.mul_le_mono_pos_r _ _ p Hp). exact H7.
Qed.

End FloatNear.

(** ** The key against the exact floor *)

Module KeyNear.
Import Py.
Import FloatProps.
Import FloatNear.

(** Rounding on the grid moves a number by less than one unit of its last
    place, which is a part in [2 ^ 52] of it or the least unit of the
    format. *)
Lemma grid_round_close (c N : Z) :
  c <= emin -> 0 < N ->
  exists u,
    0 < u /\ N - u <= grid_round c N <= N + u /\
    (2 ^ 52 * u <= N \/ u = 2 ^ (emin - c)).
Proof.
  intros Hc HN. unfold grid_round.
  pose proof (grid_exp_nonneg c N Hc) as Hg0.
  set (g := grid_exp c N) in *.
  pose proof (pow2_pos g Hg0) as Hpg.
  pose proof (rne_bounds N g Hg0) as Hr.
  set (r := rne N g) in *.
  pose proof (Z.mul_div_le N (2 ^ g) Hpg) as Hd_lo.
  pose proof (Z.mul_succ_div_gt N (2 ^ g) Hpg) as Hd_hi.
  set (d := N / 2 ^ g) in *.
  exists (2 ^ g). split; [exact Hpg |]. split.
  - assert (Hlo : d * 2 ^ g <= r * 2 ^ g)
      by (apply Z.mul_le_mono_nonneg_r; lia).
    assert (Hhi : r * 2 ^ g <= (d + 1) * 2 ^ g)
      by (apply Z.mul_le_mono_nonneg_r; lia).
    rewrite Z.mul_add_distr_r in Hhi. lia.
  - destruct (Z.le_gt_cases emin (digits N + c - prec)) as [Hnorm | Hsub].
    + left.
      assert (Hg : g = digits N - prec)
        by (unfold g, grid_exp, fexp, emin in *; lia).
      rewrite <- Z.pow_add_r by lia.
      replace (52 + g) with (digits N - 1) by (unfold prec in *; lia).
      pose proof (digits_bounds N HN). lia.
    + right. f_equal. unfold g, grid_exp, fexp, emin in *. lia.
Qed.

Lemma div_close (A B M : Z) :
  0 < M -> A - M <= B <= A + M -> A / M - 1 <= B / M <= A / M + 1.
Proof.
  intros HM [Hlo Hhi]. split.
  - replace (A / M - 1) with ((A + -1 * M) / M)
      by (rewrite Z.div_add by lia; lia).
    apply Z.div_le_mono; lia.
  - replace (A / M + 1) with ((A + 1 * M) / M)
      by (rewrite Z.div_add by lia; lia).
    apply Z.div_le_mono; lia.
Qed.

(** The exact floor of the specification, on a grid fine enough for the
    time. *)
Lemma floor_of_product_grid (mt : positive) (et c : Z) (rate : Fraction) :
  c <= et -> c <= 0 ->
  floor_of_product (S754_finite false mt et) rate
  = Some ((Zpos mt * 2 ^ (et - c) * Qnum rate)
          / (Zpos (Qden rate) * 2 ^ (- c))).
Proof.
  intros Hce Hc0. unfold floor_of_product, Q_of_float. f_equal.
  destruct rate as [p den]. cbn [Qnum Qden cond_Zopp].
  pose proof (pow2_pos (- c) ltac:(lia)) as HW.
  pose proof (pow2_pos (et - c) ltac:(lia)) as HU.
  destruct et as [| q | q].
  - unfold Qmult, Qfloor, inject_Z. cbn [Qnum Qden].
    rewrite Pos.mul_1_l. cbn [Z.pow]. rewrite Z.mul_1_r.
    replace (0 - c) with (- c) by lia.
    replace (Zpos mt * 2 ^ (- c) * p) with (Zpos mt * p * 2 ^ (- c)) by ring.
    rewrite Z.div_mul_cancel_r by lia. reflexivity.
  - unfold Qmult, Qfloor, inject_Z. cbn [Qnum Qden].
    rewrite Pos.mul_1_l.
    replace (Zpos q - c) with (Zpos q + - c) by lia.
    rewrite Z.pow_add_r by lia.
    replace (Zpos mt * (2 ^ Zpos q * 2 ^ (- c)) * p)
      with (Zpos mt * 2 ^ Zpos q * p * 2 ^ (- c)) by ring.
    rewrite Z.div_mul_cancel_r by lia. reflexivity.
  - unfold Qmult, Qfloor. cbn [Qnum Qden].
    rewrite Pos2Z.inj_mul, Pos2Z.inj_pow.
    change (Zpos 2) with 2.
    replace (- c) with ((Zneg q - c) + Zpos q) by lia.
    rewrite Z.pow_add_r by lia.
    replace (Zpos mt * 2 ^ (Zneg q - c) * p)
      with (2 ^ (Zneg q - c) * (Zpos mt * p)) by ring.
    replace (Zpos den * (2 ^ (Zneg q - c) * 2 ^ Zpos q))
      with (2 ^ (Zneg q - c) * (2 ^ Zpos q * Zpos den)) by ring.
    rewrite Z.div_mul_cancel_l; [reflexivity | | lia].
    pose proof (pow2_pos (Zpos q) ltac:(lia)). lia.
Qed.

(** The key of a time up to the duration against the exact floor: the
    rate's float is within a unit in its last place of the rate, the
    product is rounded once more, and the product stays below
    [2 ^ 32], so the two floors are at most one apart. *)
Lemma key_near_floor (mt mf md : positive) (et ef ed : Z) (rate : Fraction)
    (N k : Z) :
  fvalid (S754_finite false mt et) = true ->
  fvalid (S754_finite false md ed) = true ->
  fle (S754_finite false mt et) (S754_finite false md ed) = true ->
  0 < Qnum rate -> 1 <= N < 2 ^ 31 ->
  2 ^ 52 <= Zpos md -> 2 ^ 52 <= Zpos mf -> emin <= ef ->
  (Zpos md - 1) * 2 ^ (ed - emin) * Qnum rate
  <= N * Zpos (Qden rate) * 2 ^ (- emin)
  <= (Zpos md + 1) * 2 ^ (ed - emin) * Qnum rate ->
  (Zpos mf - 1) * 2 ^ (ef - emin) * Zpos (Qden rate)
  <= Qnum rate * 2 ^ (- emin)
  <= (Zpos mf + 1) * 2 ^ (ef - emin) * Zpos (Qden rate) ->
  int_of_float (fmul (S754_finite false mt et) (S754_finite false mf ef))
  = Ok k ->
  exists fl,
    floor_of_product (S754_finite false mt et) rate = Some fl /\
    fl - 1 <= k <= fl + 1.
Proof.
  intros Hvt Hvd Hle Hp HN Hmd Hmf Hef Hd Hf Hk.
  assert (Het : emin <= et).
  { apply valid_finite in Hvt. destruct Hvt as [Hc _].
    unfold fexp, emin in *. lia. }
  assert (Hed : emin <= ed).
  { apply valid_finite in Hvd. destruct Hvd as [Hc _].
    unfold fexp, emin in *. lia. }
  assert (Hemin : emin <= 0) by (unfold emin, emax, prec; lia).
  exists ((Zpos mt * 2 ^ (et - emin) * Qnum rate)
          / (Zpos (Qden rate) * 2 ^ (- emin))).
  split; [apply floor_of_product_grid; lia |].
  (* the key, on the grid of twice the least exponent *)
  rewrite fmul_finite in Hk.
  pose proof (round_core_upper (Zpos mt * Zpos mf) (et + ef) ltac:(lia))
    as Hfst.
  rewrite int_of_pack in Hk by lia.
  destruct (round_core_grid (Zpos mt * Zpos mf) (et + ef) (2 * emin)
              ltac:(lia) ltac:(lia) ltac:(lia)) as [Hsnd Hgrid].
  set (rc := round_core (Zpos mt * Zpos mf) (et + ef)) in *.
  destruct ((fst rc =? 0) || (snd rc <=? emax - prec)); [| discriminate].
  injection Hk as <-.
  rewrite (shiftl_grid (fst rc) (snd rc) (2 * emin)) by lia.
  rewrite Hgrid. clear Hgrid Hsnd Hfst. clearbody rc. clear rc.
  pose proof (pow2_pos (et - emin) ltac:(lia)) as HUt.
  pose proof (pow2_pos (ed - emin) ltac:(lia)) as HUd.
  pose proof (pow2_pos (ef - emin) ltac:(lia)) as HUf.
  pose proof (pow2_pos (- emin) ltac:(lia)) as HW1.
  assert (HNt : Zpos mt * Zpos mf * 2 ^ (et + ef - 2 * emin)
                = (Zpos mt * 2 ^ (et - emin)) * (Zpos mf * 2 ^ (ef - emin))).
  { replace (et + ef - 2 * emin) with ((et - emin) + (ef - emin)) by lia.
    rewrite Z.pow_add_r by lia. ring. }
  assert (HW : 2 ^ (- (2 * emin)) = 2 ^ (- emin) * 2 ^ (- emin)).
  { rewrite <- Z.pow_add_r by lia. f_equal; lia. }
  rewrite HNt, HW.
  pose proof (fle_value mt md et ed emin Hvt Hvd Hle Het Hed) as HTD.
  assert (HW1big : 2 <= 2 ^ (- emin)).
  { change 2 with (2 ^ 1) at 1.
    apply Z.pow_le_mono_r; unfold emin, emax, prec; lia. }
  assert (Hclose : exists u,
             0 < u /\
             (Zpos mt * 2 ^ (et - emin)) * (Zpos mf * 2 ^ (ef - emin)) - u
             <= grid_round (2 * emin)
                  ((Zpos mt * 2 ^ (et - emin)) * (Zpos mf * 2 ^ (ef - emin)))
             <= (Zpos mt * 2 ^ (et - emin)) * (Zpos mf * 2 ^ (ef - emin)) + u
             /\ (2 ^ 52 * u
                 <= (Zpos mt * 2 ^ (et - emin)) * (Zpos mf * 2 ^ (ef - emin))
                 \/ u = 2 ^ (- emin))).
  { destruct (grid_round_close (2 * emin)
                ((Zpos mt * 2 ^ (et - emin)) * (Zpos mf * 2 ^ (ef - emin)))
                ltac:(lia)) as (u & Hu & Hb & Hcase).
    - apply Z.mul_pos_pos; apply Z.mul_pos_pos; lia.
    - exists u. split; [exact Hu |]. split; [exact Hb |].
      destruct Hcase as [? | ->]; [left; assumption | right].
      f_equal; lia. }
  destruct Hclose as (u & Hu & HR & Hucase).
  destruct (near_product (Zpos md) (Zpos mf) (2 ^ (ed - emin))
              (2 ^ (ef - emin)) (Qnum rate) (Zpos (Qden rate))
              (N * Zpos (Qden rate)) (Qnum rate) (2 ^ (- emin)) N
              Hmd Hmf HUd HUf Hp ltac:(lia) ltac:(lia) Hp HW1
              ltac:(ring) Hd Hf) as [Hprod _].
  set (Tz := Zpos mt * 2 ^ (et - emin)) in *.
  set (Dz := Zpos md * 2 ^ (ed - emin)) in *.
  set (Fz := Zpos mf * 2 ^ (ef - emin)) in *.
  set (Uf := 2 ^ (ef - emin)) in *.
  set (W1 := 2 ^ (- emin)) in *.
  set (R := grid_round (2 * emin) (Tz * Fz)) in *.
  set (p := Qnum rate) in *. set (den := Zpos (Qden rate)) in *.
  assert (Hden : 0 < den) by (unfold den; lia).
  assert (HTz : 0 < Tz) by (unfold Tz; apply Z.mul_pos_pos; lia).
  assert (HFz : 0 < Fz) by (unfold Fz, Uf; apply Z.mul_pos_pos; lia).
  change (2 ^ 52) with 4503599627370496 in *.
  change (2 ^ 31) with 2147483648 in *.
  set (E := 4503599627370496) in *.
  (* the product is below [2 ^ 32] units *)
  assert (HNt_le : Tz * Fz <= Dz * Fz).
  { apply Z.mul_le_mono_nonneg_r; [lia | exact HTD]. }
  assert (HWW : 0 < W1 * W1) by (apply Z.mul_pos_pos; lia).
  assert (Hbig : (E - 1) * (E - 1) * (Tz * Fz)
                 <= E * E * (2147483648 * (W1 * W1))).
  { apply Z.le_trans with ((E - 1) * (E - 1) * (Dz * Fz)).
    - apply Z.mul_le_mono_nonneg_l; [unfold E; lia | exact HNt_le].
    - apply Z.le_trans with (E * E * (N * (W1 * W1))); [exact Hprod |].
      apply Z.mul_le_mono_nonneg_l; [unfold E; lia |].
      apply Z.mul_le_mono_nonneg_r; lia. }
  assert (Hsmall : 2 * (Tz * Fz) <= E * (W1 * W1) - E * W1).
  { assert (HW2 : 2 * W1 <= W1 * W1)
      by (apply Z.mul_le_mono_nonneg_r; lia).
    assert (H1 : 4 * (Tz * Fz) <= (E - 1) * (E - 1) * (Tz * Fz)).
    { apply Z.mul_le_mono_nonneg_r; [lia | unfold E; lia]. }
    set (NT := Tz * Fz) in *. set (WW := W1 * W1) in *.
    unfold E in *. lia. }
  (* the rate's float against the rate, times the time *)
  assert (HTU : E * (Tz * Uf) <= Tz * Fz).
  { replace (E * (Tz * Uf)) with (Tz * (E * Uf)) by ring.
    apply Z.mul_le_mono_nonneg_l; [lia |].
    unfold Fz. apply Z.mul_le_mono_nonneg_r; lia. }
  assert (HB_lo : (Tz * Fz - Tz * Uf) * den <= Tz * p * W1).
  { replace ((Tz * Fz - Tz * Uf) * den)
      with (Tz * ((Zpos mf - 1) * Uf * den)) by (unfold Fz; ring).
    replace (Tz * p * W1) with (Tz * (p * W1)) by ring.
    apply Z.mul_le_mono_nonneg_l; [lia | exact (proj1 Hf)]. }
  assert (HB_hi : Tz * p * W1 <= (Tz * Fz + Tz * Uf) * den).
  { replace ((Tz * Fz + Tz * Uf) * den)
      with (Tz * ((Zpos mf + 1) * Uf * den)) by (unfold Fz; ring).
    replace (Tz * p * W1) with (Tz * (p * W1)) by ring.
    apply Z.mul_le_mono_nonneg_l; [lia | exact (proj2 Hf)]. }
  assert (Hgap : u + Tz * Uf <= W1 * W1).
  { apply (Z.mul_le_mono_pos_l _ _ E); [unfold E; lia |].
    rewrite Z.mul_add_distr_l.
    destruct Hucase as [Hnorm | ->].
    - set (NT := Tz * Fz) in *. set (WW := W1 * W1) in *.
      set (TU := Tz * Uf) in *. set (EW := E * W1) in *.
      assert (0 < EW) by (unfold EW, E; lia). lia.
    - set (NT := Tz * Fz) in *. set (WW := W1 * W1) in *.
      set (TU := Tz * Uf) in *. set (EW := E * W1) in *. lia. }
  assert (Hab : R * den - den * (W1 * W1) <= Tz * p * W1
                <= R * den + den * (W1 * W1)).
  { assert (HG : (u + Tz * Uf) * den <= W1 * W1 * den)
      by (apply Z.mul_le_mono_nonneg_r; lia).
    assert (HRl : (Tz * Fz - u) * den <= R * den)
      by (apply Z.mul_le_mono_nonneg_r; lia).
    assert (HRh : R * den <= (Tz * Fz + u) * den)
      by (apply Z.mul_le_mono_nonneg_r; lia).
    rewrite Z.mul_add_distr_r in HG.
    rewrite Z.mul_sub_distr_r in HRl, HB_lo.
    rewrite Z.mul_add_distr_r in HRh, HB_hi.
    replace (den * (W1 * W1)) with (W1 * W1 * den) by ring.
    set (a1 := u * den) in *. set (a2 := Tz * Uf * den) in *.
    set (a3 := Tz * Fz * den) in *. set (a4 := W1 * W1 * den) in *.
    set (a5 := R * den) in *. set (a6 := Tz * p * W1) in *.
    lia. }
  pose proof (div_close (R * den) (Tz * p * W1) (den * (W1 * W1))
                ltac:(apply Z.mul_pos_pos; lia) Hab) as Hdiv.
  replace (R * den) with (den * R) in Hdiv by ring.
  rewrite Z.div_mul_cancel_l in Hdiv by lia.
  replace (Tz * p * W1) with (Tz * p * W1) in Hdiv by reflexivity.
  replace (den * (W1 * W1)) with (den * W1 * W1) in Hdiv by ring.
  rewrite Z.div_mul_cancel_r in Hdiv by lia.
  lia.
Qed.

End KeyNear.

(** ** The frame source: keys and times *)

Module KeyProps.
Section WithSource.

Variable self : MovisVSVideoSource.

Let rate : Py.Fraction := vn_fps (video_node self).

Lemma get_key_negative (time : Py.float) :
  Py.flt time Py.fzero = true ->
  VideoSource.get_key self time = Ok (-1).
Proof.
  intros Ht. unfold VideoSource.get_key. rewrite Ht. reflexivity.
Qed.

Lemma get_key_past (time d : Py.float) :
  VideoSource.duration self = Ok d ->
  Py.flt d time = true ->
  VideoSource.get_key self time = Ok (-1).
Proof.
  intros Hd Ht. unfold VideoSource.get_key. rewrite Hd.
  destruct (Py.flt time Py.fzero); simpl; [reflexivity |].
  rewrite Ht. reflexivity.
Qed.

Lemma get_key_in_range (time d : Py.float) :
  VideoSource.duration self = Ok d ->
  Py.flt time Py.fzero = false ->
  Py.flt d time = false ->
  VideoSource.get_key self time
  = (x <- Py.fmul_fraction time rate ;; Py.int_of_float x).
Proof.
  intros Hd Ht0 Htd. unfold VideoSource.get_key.
  rewrite Hd, Ht0. simpl. rewrite Htd. reflexivity.
Qed.

Lemma call_no_key (time : Py.float) :
  VideoSource.get_key self time = Ok (-1) ->
  VideoSource.call self time = Ok None.
Proof.
  intros Hk. unfold VideoSource.call. rewrite Hk. reflexivity.
Qed.

Hypothesis rate_nonneg : 0 <= Qnum rate.

Lemma get_key_lower (time : Py.float) (k : Z) :
  VideoSource.get_key self time = Ok k -> -1 <= k.
Proof.
  unfold VideoSource.get_key.
  destruct (Py.flt time Py.fzero) eqn:Ht0; simpl.
  - intros H. injection H as <-. lia.
  - destruct (VideoSource.duration self) as [d |]; [| discriminate].
    simpl. destruct (Py.flt d time); [intros H; injection H as <-; lia |].
    unfold Py.fmul_fraction. fold rate.
    destruct (Py.float_of_fraction rate) as [f |] eqn:Hf; [| discriminate].
    simpl. pose proof (FloatProps.float_of_fraction_rate _ _ rate_nonneg Hf) as Hr.
    rewrite (FloatProps.int_is_floor _ _ Ht0 Hr).
    destruct Hr as [| | mf ef Hef];
      destruct time as [s | s | | s m e]; try discriminate;
      try (destruct s; discriminate);
      try (intros H; injection H as <-; lia).
    destruct s; [discriminate |].
    rewrite <- (FloatProps.int_is_floor (S754_finite false m e)
                  (S754_finite false mf ef) eq_refl
                  (FloatProps.rate_finite mf ef Hef)).
    intros H. pose proof (FloatProps.fmul_key_nonneg _ _ _ _ _ H). lia.
Qed.

(** In range, a time before one that has a key has a key, not negative and
    not larger. *)
Lemma key_of_earlier (d t1 t2 : Py.float) (k2 : Z) :
  VideoSource.duration self = Ok d ->
  Py.fvalid t1 = true -> Py.fvalid t2 = true ->
  Py.flt t1 Py.fzero = false -> Py.flt d t1 = false ->
  Py.fle t1 t2 = true -> Py.flt d t2 = false ->
  VideoSource.get_key self t2 = Ok k2 ->
  exists k1, VideoSource.get_key self t1 = Ok k1 /\ 0 <= k1 <= k2.
Proof.
  intros Hd Hv1 Hv2 Ht10 Htd1 Hle Htd2 Hk2.
  assert (Ht20 : Py.flt t2 Py.fzero = false).
  { destruct t1 as [s1 | s1 | | s1 m1 e1], t2 as [s2 | s2 | | s2 m2 e2];
      try reflexivity; try discriminate;
      destruct s1, s2; try reflexivity; discriminate. }
  rewrite (get_key_in_range t2 d Hd Ht20 Htd2) in Hk2.
  rewrite (get_key_in_range t1 d Hd Ht10 Htd1).
  unfold Py.fmul_fraction in *.
  destruct (Py.float_of_fraction rate) as [f |] eqn:Hf; [| discriminate].
  simpl in *.
  pose proof (FloatProps.float_of_fraction_rate _ _ rate_nonneg Hf) as Hr.
  exact (FloatProps.key_mono_floats t1 t2 f k2 Hv1 Hv2 Ht10 Hle Hr Hk2).
Qed.

(** The duration of a clip of constant rate is a float of the format, and
    the product of duration and rate has a key. *)
Lemma duration_has_key :
  cfr_clip (video_node self) ->
  exists d f kd,
    VideoSource.duration self = Ok d /\ Py.fvalid d = true /\
    (d = S754_zero false \/ exists m e, d = S754_finite false m e) /\
    Py.float_of_fraction rate = Ok f /\
    Py.int_of_float (Py.fmul d f) = Ok kd.
Proof.
  intros (HN & Hnum & Hden). fold rate in Hnum, Hden.
  assert (Hf : exists f,
             Py.float_of_fraction rate = Ok f /\
             (f = S754_zero false \/
              exists m e, f = S754_finite false m e /\
                          FloatProps.digits (Zpos m) + e <= 64)).
  { destruct (FloatProps.float_of_fraction_pos rate 63)
      as (f & Hf & _ & Hshape); try (unfold Py.emax; lia).
    exists f. split; [exact Hf | exact Hshape]. }
  assert (Hd : exists d,
             VideoSource.duration self = Ok d /\ Py.fvalid d = true /\
             (d = S754_zero false \/
              exists m e, d = S754_finite false m e /\
                          FloatProps.digits (Zpos m) + e <= 95)).
  { unfold VideoSource.duration, Py.fraction_div. fold rate.
    destruct (Z.eqb_spec (Qnum rate) 0) as [? | _]; [lia |]. simpl.
    set (q := Qred (inject_Z (vn_num_frames (video_node self)) / rate)).
    assert (Hq : 0 < Qnum q /\ Qnum q < Zpos (Qden q) * 2 ^ 94).
    { pose proof (Qred_correct
                    (inject_Z (vn_num_frames (video_node self)) / rate)) as Heq.
      fold q in Heq. clearbody q. unfold Qeq in Heq.
      destruct rate as [n dn]. cbn [Qnum Qden] in *.
      destruct n as [| p | p]; try lia.
      cbn in Heq.
      set (N := vn_num_frames (video_node self)) in *.
      change (2 ^ 94) with (2 ^ 31 * 2 ^ 63).
      set (A := 2 ^ 31) in *. set (B := 2 ^ 63) in *.
      assert (0 < A) by (unfold A; lia). assert (0 < B) by (unfold B; lia).
      assert (HND : 0 < N * Zpos dn < A * B) by nia.
      split; [nia |].
      assert (Qnum q * Zpos p < Zpos (Qden q) * (A * B) * Zpos p); nia. }
    destruct (FloatProps.float_of_fraction_pos q 94)
      as (d & Hd & Hvd & Hshape); try (unfold Py.emax; lia).
    exists d. split; [exact Hd |]. split; [exact Hvd | exact Hshape]. }
  destruct Hf as (f & Hf & Hfs). destruct Hd as (d & Hd & Hvd & Hds).
  assert (Hk : exists kd, Py.int_of_float (Py.fmul d f) = Ok kd).
  { destruct Hds as [-> | (md & ed & -> & Hbd)];
      destruct Hfs as [-> | (mf & ef & -> & Hbf)];
      try (exists 0; reflexivity).
    apply FloatProps.fmul_bounded. unfold Py.emax, Py.prec. lia. }
  destruct Hk as [kd Hk]. exists d, f, kd.
  repeat split; try assumption.
  destruct Hds as [-> | (md & ed & -> & _)]; [left | right; eauto]; reflexivity.
Qed.

(** For a clip of constant rate every number in range has a key, and
    the key is not negative. *)
Lemma get_key_total (time : Py.float) :
  cfr_clip (video_node self) ->
  exists d,
    VideoSource.duration self = Ok d /\
    (Py.fvalid time = true -> Py.fle time time = true ->
     Py.flt time Py.fzero = false -> Py.flt d time = false ->
     exists k, VideoSource.get_key self time = Ok k /\ 0 <= k).
Proof.
  intros Hclip.
  destruct (duration_has_key Hclip) as (d & f & kd & Hd & Hvd & Hds & Hf & Hkd).
  exists d. split; [exact Hd |].
  intros Hv Hnum Ht0 Htd.
  pose proof (FloatProps.not_above_le time d Ht0 Hnum Hds Htd) as Hle.
  pose proof (FloatProps.float_of_fraction_rate _ _ rate_nonneg Hf) as Hr.
  destruct (FloatProps.key_mono_floats time d f kd Hv Hvd Ht0 Hle Hr Hkd)
    as (k & Hk & Hbound).
  exists k. split; [| lia].
  rewrite (get_key_in_range time d Hd Ht0 Htd).
  unfold Py.fmul_fraction. rewrite Hf. exact Hk.
Qed.

End WithSource.

Lemma cfr_rate_nonneg (self : MovisVSVideoSource) :
  cfr_clip (video_node self) -> 0 <= Qnum (vn_fps (video_node self)).
Proof. intros (_ & H & _). lia. Qed.

(** C2, as amended. A time below zero, or above the duration, has the
    key [-1] and no sample. Any other time has the key
    [int(time * float(frame_rate))], the truncation of the product of two
    floats, itself rounded to a float. For a clip of constant rate and a
    time that is a number that key exists, is not negative, is the floor
    of the rounded product, and is at most one away from the exact
    [floor(time x frame_rate)]; the two can differ, since the rate and
    the product are rounded before the truncation. *)
Theorem get_key_cases (self : MovisVSVideoSource) (time : Py.float) :
  (Py.flt time Py.fzero = true ->
   VideoSource.get_key self time = Ok (-1) /\
   VideoSource.call self time = Ok None) /\
  (forall d,
      VideoSource.duration self = Ok d ->
      Py.flt d time = true ->
      VideoSource.get_key self time = Ok (-1) /\
      VideoSource.call self time = Ok None) /\
  (forall d,
      VideoSource.duration self = Ok d ->
      Py.flt time Py.fzero = false ->
      Py.flt d time = false ->
      VideoSource.get_key self time
      = (x <- Py.fmul_fraction time (vn_fps (video_node self)) ;;
         Py.int_of_float x)) /\
  (cfr_clip (video_node self) ->
   Py.fvalid time = true -> Py.fle time time = true ->
   exists d,
     VideoSource.duration self = Ok d /\
     (Py.flt time Py.fzero = false -> Py.flt d time = false ->
      exists k fl,
        VideoSource.get_key self time = Ok k /\ 0 <= k /\
        (x <- Py.fmul_fraction time (vn_fps (video_node self)) ;;
         Py.floor x) = Ok k /\
        floor_of_product time (vn_fps (video_node self)) = Some fl /\
        fl - 1 <= k <= fl + 1)).
Proof.
  split; [| split; [| split]].
  - intros Ht. pose proof (get_key_negative self time Ht) as Hk.
    split; [exact Hk | exact (call_no_key self time Hk)].
  - intros d Hd Ht. pose proof (get_key_past self time d Hd Ht) as Hk.
    split; [exact Hk | exact (call_no_key self time Hk)].
  - intros d Hd Ht0 Htd. exact (get_key_in_range self time d Hd Ht0 Htd).
  - intros Hclip Hv Hnum.
    pose proof (cfr_rate_nonneg self Hclip) as Hrate.
    pose proof Hclip as (HN & Hp & Hden).
    destruct (get_key_total self Hrate time Hclip) as (d & Hd & Htotal).
    exists d. split; [exact Hd |]. intros Ht0 Htd.
    destruct (Htotal Hv Hnum Ht0 Htd) as (k & Hk & Hk0).
    set (rate := vn_fps (video_node self)) in *.
    destruct (FloatNear.rate_near rate Hp Hden)
      as (mf & ef & Hf & Hfull_f & Hef & _ & Hnear_f).
    pose proof Hk as Hprod.
    rewrite (get_key_in_range self time d Hd Ht0 Htd) in Hprod.
    unfold Py.fmul_fraction in Hprod |- *. fold rate in Hprod |- *.
    rewrite Hf in Hprod |- *. cbn [bind] in Hprod |- *.
    assert (Hfloor : Py.floor (Py.fmul time (S754_finite false mf ef)) = Ok k).
    { rewrite <- (FloatProps.int_is_floor time (S754_finite false mf ef) Ht0);
        [exact Hprod |].
      exact (FloatProps.float_of_fraction_rate _ _ Hrate Hf). }
    destruct (FloatNear.index_time_near (vn_num_frames (video_node self))
                rate HN Hp Hden)
      as (md & ed & Hd' & Hvd & Hfull_d & Hed & _ & Hnear_d).
    assert (Hdeq : d = S754_finite false md ed).
    { unfold VideoSource.duration in Hd. fold rate in Hd.
      rewrite Hd' in Hd. injection Hd as <-. reflexivity. }
    subst d.
    destruct time as [s | s | | s mt et].
    + assert (Hk00 : k = 0) by (injection Hprod as <-; reflexivity).
      exists k, 0.
      split; [exact Hk |]. split; [exact Hk0 |]. split; [exact Hfloor |].
      split; [| lia].
      unfold floor_of_product, Q_of_float.
      destruct rate as [p den]. reflexivity.
    + destruct s; discriminate.
    + discriminate.
    + destruct s; [discriminate |].
      pose proof (FloatProps.not_above_le _ _ Ht0 Hnum
                    (or_intror (ex_intro _ md (ex_intro _ ed eq_refl))) Htd)
        as Hle.
      destruct (KeyNear.key_near_floor mt mf md et ef ed rate
                  (vn_num_frames (video_node self)) k Hv Hvd Hle
                  (proj1 Hp) ltac:(lia) Hfull_d Hfull_f
                  ltac:(unfold FloatProps.emin, Py.emax, Py.prec; lia)
                  (Hnear_d FloatProps.emin
                     ltac:(unfold FloatProps.emin, Py.emax, Py.prec; lia)
                     ltac:(unfold FloatProps.emin, Py.emax, Py.prec; lia))
                  (Hnear_f FloatProps.emin
                     ltac:(unfold FloatProps.emin, Py.emax, Py.prec; lia)
                     ltac:(unfold FloatProps.emin, Py.emax, Py.prec; lia))
                  Hprod)
        as (fl & Hfl & Hb).
      exists k, fl.
      split; [exact Hk |]. split; [exact Hk0 |]. split; [exact Hfloor |].
      split; [exact Hfl | exact Hb].
Qed.

(** C6, as amended. The key depends on the time and the clip alone. In
    range it is the truncation of the float product, and it is monotone up
    to the duration: for a clip of constant rate and floats [t1 <= t2]
    with [t2] not above the duration, both have keys and the key of [t1]
    is not the larger. *)
Theorem get_key_monotone_in_range (self : MovisVSVideoSource)
    (t1 t2 : Py.float) :
  cfr_clip (video_node self) ->
  Py.fvalid t1 = true -> Py.fvalid t2 = true ->
  Py.fle t1 t2 = true ->
  exists d,
    VideoSource.duration self = Ok d /\
    (Py.flt d t2 = false ->
     exists k1 k2,
       VideoSource.get_key self t1 = Ok k1 /\
       VideoSource.get_key self t2 = Ok k2 /\ k1 <= k2) /\
    (forall (other : MovisVSVideoSource) (t : Py.float),
        video_node other = video_node self ->
        VideoSource.get_key other t = VideoSource.get_key self t) /\
    (forall t : Py.float,
        Py.flt t Py.fzero = false -> Py.flt d t = false ->
        VideoSource.get_key self t
        = (x <- Py.fmul_fraction t (vn_fps (video_node self)) ;;
           Py.int_of_float x)).
Proof.
  intros Hclip Hv1 Hv2 Hle.
  pose proof (cfr_rate_nonneg self Hclip) as Hrate.
  destruct (get_key_total self Hrate t2 Hclip) as (d & Hd & Htotal).
  exists d. split; [exact Hd |]. split; [| split].
  - intros Htd2.
    assert (Hk2 : exists k2, VideoSource.get_key self t2 = Ok k2).
    { destruct (Py.flt t2 Py.fzero) eqn:Ht20.
      - exists (-1). apply get_key_negative. exact Ht20.
      - assert (Hnum : Py.fle t2 t2 = true).
        { apply FloatProps.fle_refl. intros ->. destruct t1; discriminate. }
        destruct (Htotal Hv2 Hnum eq_refl Htd2) as (k2 & Hk2 & _).
        exists k2. exact Hk2. }
    destruct Hk2 as [k2 Hk2].
    pose proof (get_key_lower self Hrate t2 k2 Hk2) as Hlow.
    destruct (Py.flt t1 Py.fzero) eqn:Ht10.
    { exists (-1), k2.
      split; [apply get_key_negative; exact Ht10 | split; [exact Hk2 | lia]]. }
    destruct (Py.flt d t1) eqn:Htd1.
    { exists (-1), k2.
      split; [apply (get_key_past self t1 d Hd Htd1) | split; [exact Hk2 | lia]]. }
    destruct (key_of_earlier self Hrate d t1 t2 k2 Hd Hv1 Hv2 Ht10 Htd1 Hle
                Htd2 Hk2) as (k1 & Hk1 & Hbound).
    exists k1, k2. split; [exact Hk1 | split; [exact Hk2 | lia]].
  - intros other t Hsame. unfold VideoSource.get_key, VideoSource.duration.
    rewrite Hsame. reflexivity.
  - intros t Ht0 Htd. exact (get_key_in_range self t d Hd Ht0 Htd).
Qed.

End KeyProps.

(** C3. For the source constructed from 90 frames at 30 frames per second
    the duration is [3.0]; [get_key(3.0)] is [90], not [-1], and the sample
    at [3.0] is absent because [90] is not below the frame count. *)
Theorem boundary_at_duration :
  VideoSourceInit.init plain_engine (OneNode clip_30_90) None (None, None)
  = Ok source_30_90 /\
  Py.flt three three = false /\
  VideoSource.duration source_30_90 = Ok three /\
  VideoSource.n_frame source_30_90 = 90 /\
  VideoSource.get_key source_30_90 three = Ok 90 /\
  VideoSource.call source_30_90 three = Ok None.
Proof.
  repeat split; vm_compute; reflexivity.
Qed.

Lemma clip_30_90_cfr : cfr_clip (video_node source_30_90).
Proof. vm_compute. repeat split; reflexivity. Qed.

Lemma get_key_cases_witness :
  (VideoSource.get_key source_30_90 four = Ok (-1) /\
   VideoSource.call source_30_90 four = Ok None) /\
  VideoSource.get_key source_30_90 one = Ok 30 /\
  floor_of_product one (30 # 1) = Some 30.
Proof.
  split.
  - refine (proj1 (proj2 (KeyProps.get_key_cases source_30_90 four))
              three _ _); vm_compute; reflexivity.
  - destruct (proj2 (proj2 (proj2 (KeyProps.get_key_cases source_30_90 one)))
                clip_30_90_cfr eq_refl eq_refl) as (d & Hd & Hin).
    assert (Hd3 : d = three)
      by (vm_compute in Hd; injection Hd as <-; reflexivity).
    subst d.
    destruct (Hin eq_refl eq_refl) as (k & fl & Hk & _ & _ & Hfl & _).
    assert (Hk30 : k = 30)
      by (vm_compute in Hk; injection Hk as <-; reflexivity).
    assert (Hfl30 : fl = 30)
      by (vm_compute in Hfl; injection Hfl as <-; reflexivity).
    subst k fl. split; [exact Hk | exact Hfl].
Defined.

(** C2 does not hold with the exact product: [float(1/30)] is below
    [1/30], so that [floor(time x 30)] is 0, but its product with [30.0]
    rounds to [1.0] and the key is 1. *)
Lemma get_key_cases_counterexample :
  Py.int_truediv 1 30 = Ok thirtieth /\
  Py.flt thirtieth Py.fzero = false /\
  VideoSource.duration source_30_90 = Ok three /\
  Py.flt three thirtieth = false /\
  VideoSource.get_key source_30_90 thirtieth = Ok 1 /\
  floor_of_product thirtieth (vn_fps (video_node source_30_90)) = Some 0.
Proof.
  repeat split; vm_compute; reflexivity.
Qed.

Lemma get_key_monotone_in_range_witness :
  exists d,
    VideoSource.duration source_30_90 = Ok d /\
    (Py.flt d three = false ->
     exists k1 k2,
       VideoSource.get_key source_30_90 one = Ok k1 /\
       VideoSource.get_key source_30_90 three = Ok k2 /\ k1 <= k2).
Proof.
  assert (Hv1 : Py.fvalid one = true) by reflexivity.
  assert (Hv3 : Py.fvalid three = true) by reflexivity.
  assert (Hle : Py.fle one three = true) by reflexivity.
  destruct (KeyProps.get_key_monotone_in_range source_30_90 one three
              clip_30_90_cfr Hv1 Hv3 Hle) as (d & Hd & Hmono & _).
  exists d. split; [exact Hd | exact Hmono].
Defined.

(** C6 does not hold over all times: [1.0 <= 4.0], yet the key of [1.0]
    is [30] and that of [4.0], a time past the three seconds, is [-1]. *)
Lemma get_key_monotone_counterexample :
  Py.fle one four = true /\
  VideoSource.get_key source_30_90 one = Ok 30 /\
  VideoSource.get_key source_30_90 four = Ok (-1) /\
  ~ (30 <= -1).
Proof.
  repeat split; try (vm_compute; reflexivity). lia.
Qed.


(** ** The bridge: trim and failure *)

Module BridgeProps.
Section WithScene.

Context {Key : Type}.
Variable cls : SceneClass Key.
Variable num_threads : Z.

Let dict : Type := PyDict.t (K := Key) (V := Np.ndarray).

(** Calls of [_to_node], one after the other and whatever their outcome,
    from one bridge to another. The number counts the entries left behind
    by the calls that raised, which do not reach the trim: by how much
    each of them let the cache grow. *)
Inductive calls (self0 : MovisSceneVSWrap Key)
  : MovisSceneVSWrap Key -> Z -> Prop :=
| calls_none : calls self0 self0 0
| calls_returned (self self' : MovisSceneVSWrap Key) (left : Z)
    (n plane : Z) (dst dst' : Plane) :
    calls self0 self left ->
    Bridge._to_node cls num_threads self n plane dst = (Ok tt, (self', dst')) ->
    calls self0 self' left
| calls_raised (self self' : MovisSceneVSWrap Key) (left : Z)
    (n plane : Z) (dst dst' : Plane) (e : exn) :
    calls self0 self left ->
    Bridge._to_node cls num_threads self n plane dst
    = (Raise e, (self', dst')) ->
    calls self0 self'
      (left + Z.max 0 (PyDict.len (_cache (scene self'))
                       - PyDict.len (_cache (scene self)))).

Hypothesis key_eqb_refl : forall k, key_eqb cls k k = true.

Lemma del_each_front (d : dict) :
  forall n : nat,
    PyDict.del_each (key_eqb cls) (firstn n (PyDict.keys d)) d
    = (Ok tt, skipn n d).
Proof.
  induction d as [| [k v] rest IH]; intros [| n]; simpl; try reflexivity.
  rewrite key_eqb_refl. apply IH.
Qed.

Lemma trim_spec (c : dict) :
  0 <= num_threads ->
  Bridge.trim cls num_threads c
  = (Ok tt, if PyDict.len c >? num_threads * 2
            then skipn (Z.to_nat num_threads) c else c).
Proof.
  intros Hp. unfold Bridge.trim.
  destruct (PyDict.len c >? num_threads * 2); [| reflexivity].
  unfold slice_to.
  destruct (Z.ltb_spec num_threads 0) as [Hneg | _]; [lia |].
  apply del_each_front.
Qed.

(** What a call that returns did: the time was computed, the scene gave a
    frame, and the cache is the scene's own, trimmed. *)
Lemma to_node_ok (self self' : MovisSceneVSWrap Key) (n plane : Z)
    (dst dst' : Plane) :
  0 <= num_threads ->
  Bridge._to_node cls num_threads self n plane dst = (Ok tt, (self', dst')) ->
  exists time frame s,
    Bridge.time_of self n = Ok time /\
    scene_call cls (scene self) time = (Ok (Some frame), s) /\
    _cache (scene self')
    = (if PyDict.len (_cache s) >? num_threads * 2
       then skipn (Z.to_nat num_threads) (_cache s) else _cache s).
Proof.
  intros Hp. unfold Bridge._to_node.
  destruct (Bridge.time_of self n) as [time | e]; [| discriminate].
  destruct (scene_call cls (scene self) time) as [[[frame |] | e] s] eqn:Hcall;
    [| discriminate | discriminate].
  destruct (src <- Np.depth_slice frame plane;; Np.copyto dst src)
    as [d | e]; [| discriminate].
  rewrite trim_spec by exact Hp.
  intros H. injection H as <- _.
  exists time, frame, s. auto.
Qed.

(** What a call that raised did: it failed at the time and changed
    nothing, or it left after the scene's call, with the buffer untouched
    and the cache as the scene left it, untrimmed. *)
Lemma to_node_raise (self self' : MovisSceneVSWrap Key) (n plane : Z)
    (dst dst' : Plane) (e : exn) :
  Bridge._to_node cls num_threads self n plane dst
  = (Raise e, (self', dst')) ->
  dst' = dst /\
  (self' = self \/
   exists time r s,
     Bridge.time_of self n = Ok time /\
     scene_call cls (scene self) time = (r, s) /\
     self' = Bridge.set_scene self s).
Proof.
  unfold Bridge._to_node.
  destruct (Bridge.time_of self n) as [time | e0] eqn:Ht.
  - destruct (scene_call cls (scene self) time) as [[[frame |] | e0] s]
      eqn:Hcall.
    + destruct (src <- Np.depth_slice frame plane;; Np.copyto dst src)
        as [d | e0] eqn:Hcopy.
      * unfold Bridge.trim.
        destruct (PyDict.len (_cache s) >? num_threads * 2).
        -- unfold slice_to.
           destruct (num_threads <? 0);
             rewrite del_each_front; discriminate.
        -- discriminate.
      * intros H. injection H as _ <- <-. split; [reflexivity |].
        right. exists time, (Ok (Some frame)), s. auto.
    + intros H. injection H as _ <- <-. split; [reflexivity |].
      right. exists time, (Ok None), s. auto.
    + intros H. injection H as _ <- <-. split; [reflexivity |].
      right. exists time, (Raise e0), s. auto.
  - intros H. injection H as _ <- <-. auto.
Qed.

(** C5. When the scene gives no frame for the time of index [n], the call
    raises [KeyError]; the destination buffer is the one passed in and the
    scene, its cache included, is as the scene's own call left it: neither
    the copy nor the trim was reached. *)
Theorem absent_frame_is_key_error (self : MovisSceneVSWrap Key)
    (n plane : Z) (dst : Plane) (time : Py.float) (s : Composition Key) :
  Bridge.time_of self n = Ok time ->
  scene_call cls (scene self) time = (Ok None, s) ->
  Bridge._to_node cls num_threads self n plane dst
  = (Raise KeyError, (Bridge.set_scene self s, dst))
  /\ _cache (scene (Bridge.set_scene self s)) = _cache s.
Proof.
  intros Ht Hcall. unfold Bridge._to_node. rewrite Ht, Hcall.
  split; reflexivity.
Qed.

Hypothesis threads_pos : 1 <= num_threads.

Hypothesis frame_adds_one :
  forall (s s' : Composition Key) (time : Py.float) (frame : Np.ndarray),
    scene_call cls s time = (Ok (Some frame), s') ->
    PyDict.len (_cache s') <= PyDict.len (_cache s) + 1.

(** A call that returns leaves at most [2 * num_threads] entries, or no
    more than there were. *)
Lemma returned_bound (self self' : MovisSceneVSWrap Key) (n plane : Z)
    (dst dst' : Plane) :
  Bridge._to_node cls num_threads self n plane dst = (Ok tt, (self', dst')) ->
  PyDict.len (_cache (scene self'))
  <= Z.max (num_threads * 2) (PyDict.len (_cache (scene self))).
Proof.
  intros Hrun.
  destruct (to_node_ok _ _ _ _ _ _ ltac:(lia) Hrun)
    as (time & frame & s & _ & Hcall & ->).
  pose proof (frame_adds_one _ _ _ _ Hcall) as Hgrow.
  destruct (Z.gtb_spec (PyDict.len (_cache s)) (num_threads * 2))
    as [Hgt | Hle].
  - unfold PyDict.len in *. rewrite length_skipn. lia.
  - lia.
Qed.

Lemma calls_bound (self0 self : MovisSceneVSWrap Key) (left : Z) :
  PyDict.len (_cache (scene self0)) <= num_threads * 2 ->
  calls self0 self left ->
  0 <= left /\
  PyDict.len (_cache (scene self)) <= num_threads * 2 + left.
Proof.
  intros H0 Hcalls.
  induction Hcalls as [| self self' left n plane dst dst' _ [IH0 IH] Hrun
                       | self self' left n plane dst dst' e _ [IH0 IH] Hrun].
  - lia.
  - pose proof (returned_bound _ _ _ _ _ _ Hrun). lia.
  - lia.
Qed.

(** C1, as amended. From a bridge as [__init__] leaves it (the scene's
    cache reset to the empty dict), along any calls of [_to_node]: a call
    that returns leaves the cache the scene produced, without its
    [num_threads] oldest entries when it held more than [2 * num_threads],
    whole otherwise; a call that raises leaves the buffer untouched and
    the cache as it was or as the scene left it, untrimmed, with at most
    one entry more when the scene gave a frame. The cache
    holds at most [2 * num_threads] entries and those that the calls that
    raised left behind, so at most [2 * num_threads] while no such call
    lets the cache grow. The scene adds at most one entry when it gives a
    frame, and there is at least one thread. *)
Theorem cache_bound_after_trim (s0 : Composition Key)
    (fps0 : option Py.Fraction) (self0 self : MovisSceneVSWrap Key)
    (left : Z) :
  Bridge.init s0 fps0 = Ok self0 ->
  calls self0 self left ->
  _cache (scene self0) = [] /\
  0 <= left /\
  PyDict.len (_cache (scene self)) <= num_threads * 2 + left /\
  (forall (n plane : Z) (dst dst' : Plane) (self' : MovisSceneVSWrap Key),
      Bridge._to_node cls num_threads self n plane dst
      = (Ok tt, (self', dst')) ->
      exists time frame s,
        Bridge.time_of self n = Ok time /\
        scene_call cls (scene self) time = (Ok (Some frame), s) /\
        _cache (scene self')
        = (if PyDict.len (_cache s) >? num_threads * 2
           then skipn (Z.to_nat num_threads) (_cache s) else _cache s) /\
        PyDict.len (_cache (scene self')) <= num_threads * 2 + left) /\
  (forall (n plane : Z) (dst dst' : Plane) (self' : MovisSceneVSWrap Key)
          (e : exn),
      Bridge._to_node cls num_threads self n plane dst
      = (Raise e, (self', dst')) ->
      dst' = dst /\
      (_cache (scene self') = _cache (scene self) \/
       exists time r s,
         Bridge.time_of self n = Ok time /\
         scene_call cls (scene self) time = (r, s) /\
         _cache (scene self') = _cache s /\
         (forall frame, r = Ok (Some frame) ->
            PyDict.len (_cache s) <= PyDict.len (_cache (scene self)) + 1))).
Proof.
  intros Hinit Hcalls.
  assert (H0 : _cache (scene self0) = []).
  { unfold Bridge.init in Hinit.
    destruct (Bridge.infer_fps _ _) as [f |]; [| discriminate].
    simpl in Hinit. injection Hinit as <-. reflexivity. }
  assert (Hself : 0 <= left /\
                  PyDict.len (_cache (scene self)) <= num_threads * 2 + left).
  { apply (calls_bound self0); [rewrite H0; unfold PyDict.len; simpl; lia |].
    exact Hcalls. }
  split; [exact H0 |]. split; [exact (proj1 Hself) |].
  split; [exact (proj2 Hself) |]. split.
  - intros n plane dst dst' self' Hrun.
    destruct (to_node_ok _ _ _ _ _ _ ltac:(lia) Hrun)
      as (time & frame & s & Ht & Hcall & Hcache).
    exists time, frame, s. repeat split; try assumption.
    exact (proj2 (calls_bound self0 self' left
                    ltac:(rewrite H0; unfold PyDict.len; simpl; lia)
                    (calls_returned _ _ _ _ n plane dst dst' Hcalls Hrun))).
  - intros n plane dst dst' self' e Hrun.
    destruct (to_node_raise _ _ _ _ _ _ _ Hrun)
      as [Hdst [-> | (time & r & s & Ht & Hcall & ->)]].
    + split; [exact Hdst | left; reflexivity].
    + split; [exact Hdst |]. right. exists time, r, s.
      repeat split; try assumption.
      intros frame ->. exact (frame_adds_one _ _ _ _ Hcall).
Qed.

End WithScene.
End BridgeProps.

(** *** The memoizing scene meets the assumptions *)

Lemma setitem_len {V : Type} (k : Z) (v : V) (d : PyDict.t (K := Z) (V := V)) :
  PyDict.len (PyDict.setitem Z.eqb k v d) <= PyDict.len d + 1.
Proof.
  unfold PyDict.len. induction d as [| [k' v'] rest IH]; simpl.
  - lia.
  - destruct (k =? k'); simpl; lia.
Qed.

Lemma memo_frame_adds_one (s s' : Composition Z) (time : Py.float)
    (frame : Np.ndarray) :
  scene_call memo_scene s time = (Ok (Some frame), s') ->
  PyDict.len (_cache s') <= PyDict.len (_cache s) + 1.
Proof.
  simpl. unfold memo_call.
  destruct (Py.flt time Py.fzero || negb (Py.flt time (duration s)));
    [discriminate |].
  destruct (Py.int_of_float time) as [k |]; [| discriminate].
  destruct (PyDict.getitem Z.eqb k (_cache s)) as [hit |].
  - intros H. injection H as _ <-. lia.
  - intros H. injection H as _ <-. simpl. apply setitem_len.
Qed.

Lemma memo_calls :
  BridgeProps.calls memo_scene 1 memo_wrap
    (after_call (after_call (after_call memo_wrap 0) 1) 2) 0.
Proof.
  assert (Hstep : forall self left n,
             fst (Bridge._to_node memo_scene 1 self n 0 [[0; 0]]) = Ok tt ->
             BridgeProps.calls memo_scene 1 memo_wrap self left ->
             BridgeProps.calls memo_scene 1 memo_wrap (after_call self n) left).
  { intros self left n Hok Hcalls. unfold after_call.
    destruct (Bridge._to_node memo_scene 1 self n 0 [[0; 0]])
      as [r [self' dst']] eqn:Hrun.
    simpl in *. subst r.
    exact (BridgeProps.calls_returned _ _ _ _ _ _ n 0 [[0; 0]] dst'
             Hcalls Hrun). }
  repeat (apply Hstep; [vm_compute; reflexivity |]).
  apply BridgeProps.calls_none.
Defined.

Lemma cache_bound_after_trim_witness :
  PyDict.keys (_cache (scene (after_call (after_call (after_call memo_wrap 0) 1) 2)))
  = [1; 2] /\
  PyDict.len
    (_cache (scene (after_call (after_call (after_call memo_wrap 0) 1) 2)))
  <= 1 * 2 + 0.
Proof.
  split; [vm_compute; reflexivity |].
  refine (proj1 (proj2 (proj2 (BridgeProps.cache_bound_after_trim
            memo_scene 1 Z.eqb_refl _ memo_frame_adds_one
            memo_start (Some (1 # 1)) memo_wrap _ 0 _ memo_calls)))).
  - lia.
  - vm_compute; reflexivity.
Defined.

(** C1 does not hold over every sequence of calls: three calls for a
    plane that the frame has not, each of which raises after the scene
    added its entry, and then a call that returns. The trim removes one
    entry of four and three are left, with one thread. *)
Lemma cache_bound_after_trim_counterexample :
  fst (Bridge._to_node memo_scene 1 memo_wrap 0 7 [[0; 0]])
  = Raise IndexError /\
  fst (Bridge._to_node memo_scene 1
         (after_plane_call
            (after_plane_call (after_plane_call memo_wrap 0 7) 1 7) 2 7)
         3 0 [[0; 0]])
  = Ok tt /\
  PyDict.keys
    (_cache (scene (after_plane_call
                      (after_plane_call
                         (after_plane_call
                            (after_plane_call memo_wrap 0 7) 1 7) 2 7)
                      3 0)))
  = [1; 2; 3] /\
  ~ (3 <= 1 * 2).
Proof.
  repeat split; try (vm_compute; reflexivity). lia.
Qed.

(** Index 100 is past the ten seconds of the scene. *)
Lemma absent_frame_is_key_error_witness :
  Bridge._to_node memo_scene 1 memo_wrap 100 0 [[0; 0]]
  = (Raise KeyError, (memo_wrap, [[0; 0]])).
Proof.
  refine (proj1 (BridgeProps.absent_frame_is_key_error memo_scene 1 memo_wrap
            100 0 [[0; 0]]
            (S754_finite false 7036874417766400 (-46))
            (set_cache memo_start []) _ _)).
  - vm_compute; reflexivity.
  - vm_compute; reflexivity.
Defined.

(** ** The bridge: its frame rate *)

Module RateProps.
Section WithKey.

Context {Key : Type}.

Lemma scan_layers_first (pre post : list Layer) (layer : Layer)
    (src : MovisVSVideoSource) :
  Forall (fun l => is_source (unwrap l) = false) pre ->
  unwrap layer = SourceLayer src ->
  Bridge.scan_layers (pre ++ layer :: post) = Some (vn_fps (video_node src)).
Proof.
  intros Hpre Hsrc. induction Hpre as [| l pre Hl _ IH]; simpl.
  - rewrite Hsrc. reflexivity.
  - destruct (unwrap l); try discriminate; exact IH.
Qed.

Lemma scan_layers_none (layers : list Layer) :
  Forall (fun l => is_source (unwrap l) = false) layers ->
  Bridge.scan_layers layers = None.
Proof.
  intros H. induction H as [| l rest Hl _ IH]; simpl.
  - reflexivity.
  - destruct (unwrap l); try discriminate; exact IH.
Qed.

(** C8. A frame rate that is supplied is the bridge's. With none supplied
    the bridge takes the rate of the first layer of the scene's list that,
    unwrapped from its layer item, is a video source; when no layer is one,
    it takes the rate of the first layer, converted with [Fraction]. *)
Theorem bridge_frame_rate (s : Composition Key) :
  (forall f : Py.Fraction,
      exists self, Bridge.init s (Some f) = Ok self /\ fps self = f) /\
  (forall (pre post : list Layer) (layer : Layer) (src : MovisVSVideoSource),
      _layers s = pre ++ layer :: post ->
      Forall (fun l => is_source (unwrap l) = false) pre ->
      unwrap layer = SourceLayer src ->
      exists self,
        Bridge.init s None = Ok self /\ fps self = vn_fps (video_node src)) /\
  (forall (inner : Layer) (rest : list Layer) (r : Number) (f : Py.Fraction),
      _layers s = ItemLayer inner :: rest ->
      Forall (fun l => is_source (unwrap l) = false) (_layers s) ->
      fps_attr (unwrap inner) = Ok r ->
      Fraction_of r = Ok f ->
      exists self, Bridge.init s None = Ok self /\ fps self = f).
Proof.
  repeat split.
  - intros f. eexists. split; reflexivity.
  - intros pre post layer src Hl Hpre Hsrc.
    unfold Bridge.init, Bridge.infer_fps. simpl.
    rewrite Hl, (scan_layers_first _ _ _ _ Hpre Hsrc). simpl.
    eexists. split; reflexivity.
  - intros inner rest r f Hl Hnone Hr Hf.
    unfold Bridge.init, Bridge.infer_fps. simpl.
    rewrite (scan_layers_none _ Hnone), Hl. simpl.
    rewrite Hr. simpl. rewrite Hf. simpl.
    eexists. split; reflexivity.
Qed.

End WithKey.
End RateProps.

(** ** The frame source: audio *)

(** C7. [get_audio] returns nothing for a source without an audio track;
    with a track and its layer present the call raises
    [NotImplementedError], as does every call of the audio source's own
    [get_audio] and of its constructor. *)
Theorem get_audio_cases (self : MovisVSVideoSource)
    (start_time end_time : Py.float) :
  (_audio self = None ->
   VideoSource.get_audio self start_time end_time = Ok None) /\
  (VideoSource.has_audio self = false ->
   VideoSource.get_audio self start_time end_time = Ok None) /\
  (forall (a : AudioNode) (layer : MovisVSAudioSource),
      _audio self = Some a -> audio_truthy a = true ->
      _audio_layer self = Some layer ->
      VideoSource.get_audio self start_time end_time
      = Raise NotImplementedError) /\
  (forall layer : MovisVSAudioSource,
      MovisVSAudioSource_get_audio layer start_time end_time
      = Raise NotImplementedError) /\
  (forall a : AudioNode,
      MovisVSAudioSource_init a = Raise NotImplementedError).
Proof.
  unfold VideoSource.get_audio, VideoSource.has_audio.
  repeat split.
  - intros ->. reflexivity.
  - destruct (_audio_layer self); [discriminate |].
    intros _. destruct (_audio self); reflexivity.
  - intros a layer -> Ha ->. rewrite Ha. reflexivity.
Qed.

(** ** The frame source: construction *)

Module InitProps.
Section WithEngine.

Variable core : Engine.

Lemma audio_layer_ok (audio : option AudioNode)
    (layer : option MovisVSAudioSource) :
  VideoSourceInit.audio_layer audio = Ok layer -> layer = None.
Proof.
  unfold VideoSourceInit.audio_layer.
  destruct audio as [a |].
  - destruct (audio_truthy a); simpl; [discriminate |].
    intros H. injection H as <-. reflexivity.
  - intros H. injection H as <-. reflexivity.
Qed.

Lemma init_ok_fields (arg : VideoArg) (audio : option AudioNode)
    (kwargs : Kwargs core) (self : MovisVSVideoSource) :
  VideoSourceInit.init core arg audio kwargs = Ok self ->
  resize_Bicubic core (VideoSourceInit.arg_video arg) RGB24 kwargs
  = Ok (video_node self) /\
  resize_Bicubic core
    (VideoSourceInit.alpha_clip core (VideoSourceInit.arg_video arg)
       (VideoSourceInit.arg_alpha arg))
    GRAY8 (no_kwargs core)
  = Ok (video_alpha_node self) /\
  _audio self = audio /\
  _audio_layer self = None /\
  fc_clip (_video_cache self) = video_node self /\
  fc_clip (_video_alpha_cache self) = video_alpha_node self.
Proof.
  unfold VideoSourceInit.init.
  destruct (resize_Bicubic core _ RGB24 kwargs) as [v |]; [| discriminate].
  simpl.
  destruct (resize_Bicubic core _ GRAY8 _) as [a |]; [| discriminate].
  simpl.
  destruct (VideoSourceInit.audio_layer audio) as [layer |] eqn:Hl;
    [| discriminate].
  simpl. intros H. injection H as <-. simpl.
  rewrite (audio_layer_ok _ _ Hl). repeat split; reflexivity.
Qed.

(** C10. With an audio node (one that has samples) the constructor never
    returns: it raises [NotImplementedError] once the two clips are
    converted. So a constructed source has no audio layer, [has_audio] is
    false and [get_audio] returns nothing, whatever the arguments. *)
Theorem audio_argument_not_implemented :
  (forall (arg : VideoArg) (a : AudioNode) (kwargs : Kwargs core),
      0 < an_num_samples a ->
      (forall self,
          VideoSourceInit.init core arg (Some a) kwargs <> Ok self) /\
      (forall v al,
          resize_Bicubic core (VideoSourceInit.arg_video arg)
            RGB24 kwargs = Ok v ->
          resize_Bicubic core
            (VideoSourceInit.alpha_clip core
               (VideoSourceInit.arg_video arg)
               (VideoSourceInit.arg_alpha arg))
            GRAY8 (no_kwargs core) = Ok al ->
          VideoSourceInit.init core arg (Some a) kwargs
          = Raise NotImplementedError)) /\
  (forall (arg : VideoArg) (audio : option AudioNode)
          (kwargs : Kwargs core) (self : MovisVSVideoSource),
      VideoSourceInit.init core arg audio kwargs = Ok self ->
      _audio_layer self = None /\
      VideoSource.has_audio self = false /\
      forall start_time end_time,
        VideoSource.get_audio self start_time end_time = Ok None).
Proof.
  split.
  - intros arg a kwargs Ha.
    assert (Ht : audio_truthy a = true).
    { unfold audio_truthy. destruct (Z.eqb_spec (an_num_samples a) 0); [lia |].
      reflexivity. }
    split.
    + intros self H. unfold VideoSourceInit.init in H.
      destruct (resize_Bicubic core _ RGB24 kwargs); [| discriminate].
      simpl in H.
      destruct (resize_Bicubic core _ GRAY8 _); [| discriminate].
      simpl in H. rewrite Ht in H. discriminate.
    + intros v al Hv Hal. unfold VideoSourceInit.init.
      rewrite Hv. simpl. rewrite Hal. simpl. rewrite Ht. reflexivity.
  - intros arg audio kwargs self H.
    destruct (init_ok_fields _ _ _ _ H) as (_ & _ & _ & Hlayer & _).
    unfold VideoSource.has_audio, VideoSource.get_audio. rewrite Hlayer.
    repeat split. intros s e. destruct (_audio self); reflexivity.
Qed.

(** Every sample of every frame of the clip is [v]. *)
Definition uniform_clip (clip : VideoNode) (v : Z) : Prop :=
  forall n, Forall (Forall (Forall (fun x => x = v))) (vn_frames clip n).

Lemma blank_clip_uniform (clip : VideoNode) (format : Format) (color : Z) :
  uniform_clip (BlankClip clip format color) color.
Proof.
  intros n. simpl. unfold blank_frame.
  repeat (apply Forall_forall; intros ? ->%repeat_spec).
  reflexivity.
Qed.

(** The alpha clip is not a native one: the flag form with [False], or the
    flag [True] and an extraction that raises. *)
Definition no_native_alpha (arg : VideoArg) : Prop :=
  VideoSourceInit.arg_alpha arg = AlphaFlag false \/
  (VideoSourceInit.arg_alpha arg = AlphaFlag true /\
   exists e, PropToClip core (VideoSourceInit.arg_video arg) "_Alpha"
             = Raise e).

Lemma alpha_clip_opaque (arg : VideoArg) :
  no_native_alpha arg ->
  VideoSourceInit.alpha_clip core (VideoSourceInit.arg_video arg)
    (VideoSourceInit.arg_alpha arg)
  = BlankClip (VideoSourceInit.arg_video arg) GRAY8 255.
Proof.
  intros [-> | [-> [e He]]]; simpl; [reflexivity |].
  rewrite He. reflexivity.
Qed.

(** The engine's conversion of a clip that already has the wanted format,
    with no further argument, gives the clip back. *)
Definition resize_keeps_same : Prop :=
  forall clip : VideoNode,
    resize_Bicubic core clip (vn_format clip) (no_kwargs core) = Ok clip.

(** C9. When the [_Alpha] extraction raises, or alpha is switched off with
    the tuple form and [False], the alpha clip is the blank clip of the
    video's size and length, 8-bit gray with every sample 255, and the
    constructor goes on as if that clip had been passed in; no exception of
    the alpha step leaves it. With a conversion that keeps such a clip and
    a video conversion that succeeds, the constructor returns (without
    audio) and the source's alpha stream is that clip. *)
Theorem alpha_fallback_opaque (arg : VideoArg)
    (audio : option AudioNode) (kwargs : Kwargs core) :
  no_native_alpha arg ->
  let v := VideoSourceInit.arg_video arg in
  let opaque := BlankClip v GRAY8 255 in
  VideoSourceInit.alpha_clip core v (VideoSourceInit.arg_alpha arg)
  = opaque /\
  vn_format opaque = GRAY8 /\ uniform_clip opaque 255 /\
  VideoSourceInit.init core arg audio kwargs
  = VideoSourceInit.init core (NodePair v (AlphaNode opaque)) audio kwargs /\
  (resize_keeps_same ->
   forall v', resize_Bicubic core v RGB24 kwargs = Ok v' ->
     exists self,
       VideoSourceInit.init core arg None kwargs = Ok self /\
       video_alpha_node self = opaque).
Proof.
  intros Hno v opaque.
  pose proof (alpha_clip_opaque _ Hno) as Halpha. fold v opaque in Halpha.
  split; [exact Halpha |]. split; [reflexivity |].
  split; [apply blank_clip_uniform |]. split.
  - unfold VideoSourceInit.init. fold v. rewrite Halpha. reflexivity.
  - intros Hsame v' Hv. unfold VideoSourceInit.init. fold v.
    rewrite Halpha, Hv. simpl.
    rewrite (Hsame opaque : resize_Bicubic core opaque GRAY8 _ = _). simpl.
    eexists. split; reflexivity.
Qed.

End WithEngine.
End InitProps.

(** ** The frame source: the sampled planes *)

Definition plane_has_shape (h w : nat) (p : Plane) : Prop :=
  List.length p = h /\ Forall (fun r => List.length r = w) p.

Definition plane_uint8 (p : Plane) : Prop :=
  Forall (Forall (fun x => 0 <= x < 256)) p.

(** A clip of the given format as the engine delivers it: its frames have
    the planes of the format, each of the clip's height and width. *)
Definition clip_of_format (format : Format) (clip : VideoNode) : Prop :=
  vn_format clip = format /\
  forall n, 0 <= n < vn_num_frames clip ->
    List.length (vn_frames clip n) = format_planes format /\
    Forall (plane_has_shape (Z.to_nat (vn_height clip))
                            (Z.to_nat (vn_width clip)))
           (vn_frames clip n).

Lemma blank_clip_of_format (clip : VideoNode) (format : Format) (color : Z) :
  clip_of_format format (BlankClip clip format color).
Proof.
  split; [reflexivity |]. intros n _. simpl. unfold blank_frame. split.
  - apply repeat_length.
  - apply Forall_forall. intros p ->%repeat_spec. split.
    + apply repeat_length.
    + apply Forall_forall. intros r ->%repeat_spec. apply repeat_length.
Qed.

Lemma shape_of_plane (h w : nat) (p : Plane) :
  plane_has_shape h w p ->
  Np.shape p = (h, match h with O => O | S _ => w end).
Proof.
  intros [Hh Hw]. unfold Np.shape. rewrite Hh. f_equal.
  destruct p as [| r rest]; simpl in *; subst h; [reflexivity |].
  inversion Hw; subst. reflexivity.
Qed.

Lemma asarray_shape (h w : nat) (p : Plane) :
  plane_has_shape h w p -> plane_has_shape h w (Np.asarray_uint8 p).
Proof.
  intros [Hh Hw]. unfold Np.asarray_uint8. split.
  - rewrite length_map. exact Hh.
  - apply Forall_map. revert Hw. apply Forall_impl.
    intros r Hr. rewrite length_map. exact Hr.
Qed.

Lemma asarray_uint8_range (p : Plane) : plane_uint8 (Np.asarray_uint8 p).
Proof.
  unfold plane_uint8, Np.asarray_uint8.
  apply Forall_map, Forall_forall. intros r _.
  apply Forall_map, Forall_forall. intros x _.
  apply Z.mod_pos_bound. lia.
Qed.

Lemma asarray_opaque (h w : nat) :
  Np.asarray_uint8 (repeat (repeat 255 w) h) = repeat (repeat 255 w) h.
Proof.
  unfold Np.asarray_uint8.
  assert (Hrow : map (fun v => v mod 256) (repeat 255 w) = repeat 255 w).
  { induction w as [| w IH]; simpl; [reflexivity |]. rewrite IH. reflexivity. }
  induction h as [| h IH]; simpl; [reflexivity |].
  rewrite Hrow, IH. reflexivity.
Qed.

Lemma shape_eqb_refl (a : nat * nat) : Np.shape_eqb a a = true.
Proof.
  unfold Np.shape_eqb. rewrite !Nat.eqb_refl. reflexivity.
Qed.

Module SampleProps.
Section WithEngine.

Variable core : Engine.

(** C4, as amended. For a constructed source, whose two streams are
    clips of the formats the constructor asked for, and a time whose key is
    a frame number: when the alpha stream has the colour stream's width and
    height and a frame of that number, the sample is four planes of that
    height and width with samples from 0 to 255; and when the source was
    constructed without a native alpha clip (over an engine whose
    conversion keeps a clip that needs none), the fourth plane is 255
    throughout. *)
Theorem sample_four_planes (arg : VideoArg) (audio : option AudioNode)
    (kwargs : Kwargs core) (self : MovisVSVideoSource) (time : Py.float)
    (k : Z) :
  VideoSourceInit.init core arg audio kwargs = Ok self ->
  clip_of_format RGB24 (video_node self) ->
  clip_of_format GRAY8 (video_alpha_node self) ->
  VideoSource.get_key self time = Ok k ->
  0 <= k < VideoSource.n_frame self ->
  vn_width (video_alpha_node self) = vn_width (video_node self) ->
  vn_height (video_alpha_node self) = vn_height (video_node self) ->
  k < vn_num_frames (video_alpha_node self) ->
  let h := Z.to_nat (vn_height (video_node self)) in
  let w := Z.to_nat (vn_width (video_node self)) in
  exists arr,
    VideoSource.call self time = Ok (Some arr) /\
    List.length arr = 4%nat /\
    Forall (plane_has_shape h w) arr /\
    Forall plane_uint8 arr /\
    (InitProps.no_native_alpha core arg ->
     InitProps.resize_keeps_same core ->
     nth_error arr 3 = Some (repeat (repeat 255 w) h)).
Proof.
  intros Hinit [Hvf Hvwf] [Haf Hawf] Hkey Hk Hw Hh Hka h w.
  destruct (InitProps.init_ok_fields _ _ _ _ _ Hinit)
    as (Hv & Ha & _ & _ & Hvc & Hac).
  unfold VideoSource.n_frame in Hk.
  destruct (Hvwf k Hk) as [Hvlen Hvplanes].
  destruct (Hawf k ltac:(lia)) as [Halen Haplanes].
  simpl in Hvlen, Halen.
  rewrite Hw, Hh in Haplanes. fold h w in Hvplanes, Haplanes.
  destruct (vn_frames (video_node self) k) as [| p0 [| p1 [| p2 [| ? ?]]]] eqn:Hvk;
    try discriminate.
  destruct (vn_frames (video_alpha_node self) k) as [| a0 [| ? ?]] eqn:Hak;
    try discriminate.
  assert (Hp0 : plane_has_shape h w p0) by (inversion Hvplanes; assumption).
  assert (Hp1 : plane_has_shape h w p1).
  { inversion Hvplanes as [| ? ? _ H1]; inversion H1; assumption. }
  assert (Hp2 : plane_has_shape h w p2).
  { inversion Hvplanes as [| ? ? _ H1]; inversion H1 as [| ? ? _ H2];
      inversion H2; assumption. }
  assert (Ha0 : plane_has_shape h w a0) by (inversion Haplanes; assumption).
  exists [Np.asarray_uint8 p0; Np.asarray_uint8 p1; Np.asarray_uint8 p2;
          Np.asarray_uint8 a0].
  split; [| split; [reflexivity | split; [| split]]].
  - unfold VideoSource.call. rewrite Hkey. simpl.
    unfold VideoSource.n_frame.
    destruct (Z.ltb_spec k 0) as [? | _]; [lia |].
    destruct (Z.geb_spec k (vn_num_frames (video_node self))) as [? | _];
      [lia |].
    simpl. unfold FramesCache_getitem, get_frame. rewrite Hvc, Hac.
    destruct (Z.leb_spec 0 k) as [_ | ?]; [| lia].
    destruct (Z.ltb_spec k (vn_num_frames (video_node self))) as [_ | ?];
      [| lia].
    destruct (Z.ltb_spec k (vn_num_frames (video_alpha_node self)))
      as [_ | ?]; [| lia].
    simpl. rewrite Hvk, Hak. simpl.
    rewrite !(shape_of_plane h w) by (apply asarray_shape; assumption).
    rewrite shape_eqb_refl. reflexivity.
  - repeat (apply Forall_cons; [apply asarray_shape; assumption |]).
    apply Forall_nil.
  - repeat (apply Forall_cons; [apply asarray_uint8_range |]).
    apply Forall_nil.
  - intros Hno Hsame. simpl. f_equal.
    pose proof (InitProps.alpha_clip_opaque core arg Hno) as Halpha.
    rewrite Halpha in Ha.
    pose proof (Hsame (BlankClip (VideoSourceInit.arg_video arg) GRAY8 255))
      as Hkeep.
    simpl in Hkeep. rewrite Hkeep in Ha. injection Ha as Ha.
    rewrite <- Ha in Hak, Hw, Hh. simpl in Hak, Hw, Hh.
    unfold blank_frame in Hak. simpl in Hak. injection Hak as <-.
    rewrite Hw, Hh. fold h w. apply asarray_opaque.
Qed.

End WithEngine.
End SampleProps.

(** *** The plain engine, and a source constructed over it *)

Lemma plain_resize_keeps_same : InitProps.resize_keeps_same plain_engine.
Proof.
  intros clip. simpl. unfold plain_resize. simpl.
  rewrite Nat.eqb_refl, !Z.eqb_refl. reflexivity.
Qed.

Lemma source_24_48_init :
  VideoSourceInit.init plain_engine (OneNode clip_24_48) None (None, None)
  = Ok source_24_48.
Proof. reflexivity. Qed.

Lemma sample_four_planes_witness :
  exists arr,
    VideoSource.call source_24_48 one = Ok (Some arr) /\
    List.length arr = 4%nat /\
    nth_error arr 3 = Some [[255; 255; 255; 255]; [255; 255; 255; 255]].
Proof.
  destruct (SampleProps.sample_four_planes plain_engine (OneNode clip_24_48)
              None (None, None) source_24_48 one 24 source_24_48_init
              (blank_clip_of_format clip_24_48 RGB24 0)
              (blank_clip_of_format clip_24_48 GRAY8 255))
    as (arr & Hcall & Hlen & _ & _ & Halpha).
  - vm_compute. reflexivity.
  - vm_compute. split; [discriminate | reflexivity].
  - reflexivity.
  - reflexivity.
  - reflexivity.
  - exists arr. repeat split; try assumption.
    apply Halpha.
    + right. split; [reflexivity |]. exists VSError. reflexivity.
    + exact plain_resize_keeps_same.
Defined.

(** C4 does not hold for every source: with a width passed through to
    the conversion of the colour stream, the alpha stream keeps the width
    of the video and the planes cannot be stacked. *)
Lemma sample_four_planes_counterexample :
  exists self,
    VideoSourceInit.init plain_engine (OneNode clip_24_48) None (Some 2, None)
    = Ok self /\
    VideoSource.get_key self one = Ok 24 /\
    0 <= 24 < VideoSource.n_frame self /\
    VideoSource.call self one = Raise ValueError.
Proof.
  eexists. split; [vm_compute; reflexivity |].
  split; [vm_compute; reflexivity |].
  split; [vm_compute; split; [discriminate | reflexivity] |].
  vm_compute. reflexivity.
Qed.

(** *** The constructor and the bridge on concrete arguments *)

Lemma audio_argument_not_implemented_witness :
  VideoSourceInit.init plain_engine (OneNode clip_24_48)
    (Some {| an_num_samples := 96000 |}) (None, None)
  = Raise NotImplementedError.
Proof.
  refine (proj2 (proj1 (InitProps.audio_argument_not_implemented plain_engine)
                   (OneNode clip_24_48) {| an_num_samples := 96000 |}
                   (None, None) _)
            (BlankClip clip_24_48 RGB24 0) (BlankClip clip_24_48 GRAY8 255)
            _ _).
  - simpl. lia.
  - reflexivity.
  - reflexivity.
Defined.

Lemma alpha_fallback_opaque_witness :
  exists self,
    VideoSourceInit.init plain_engine
      (NodePair clip_24_48 (AlphaFlag false)) None (None, None)
    = Ok self /\
    video_alpha_node self = BlankClip clip_24_48 GRAY8 255.
Proof.
  exact (proj2 (proj2 (proj2 (proj2
           (InitProps.alpha_fallback_opaque plain_engine
              (NodePair clip_24_48 (AlphaFlag false)) None (None, None)
              (or_introl eq_refl)))))
           plain_resize_keeps_same (BlankClip clip_24_48 RGB24 0) eq_refl).
Defined.

Lemma get_audio_cases_witness :
  VideoSource.get_audio source_24_48 Py.fzero one = Ok None /\
  VideoSource.get_audio source_with_audio Py.fzero one
  = Raise NotImplementedError.
Proof.
  split.
  - exact (proj1 (get_audio_cases source_24_48 Py.fzero one) eq_refl).
  - exact (proj1 (proj2 (proj2 (get_audio_cases source_with_audio Py.fzero one)))
             {| an_num_samples := 96000 |}
             {| as_audio_node := {| an_num_samples := 96000 |} |}
             eq_refl eq_refl eq_refl).
Defined.

Lemma bridge_frame_rate_witness :
  exists self,
    Bridge.init two_layer_scene None = Ok self /\ fps self = 24 # 1.
Proof.
  refine (proj1 (proj2 (RateProps.bridge_frame_rate two_layer_scene))
            [ItemLayer (OtherLayer (Some (NInt 60)))] []
            (ItemLayer (SourceLayer source_24_48)) source_24_48
            eq_refl _ eq_refl).
  apply Forall_cons; [reflexivity | apply Forall_nil].
Defined.

(** * Further properties *)

(** ** The bridge: what a call can do *)

Module BridgeMore.
Section WithScene.

Context {Key : Type}.
Variable cls : SceneClass Key.
Variable num_threads : Z.

Hypothesis key_eqb_refl : forall k, key_eqb cls k k = true.

(** The deletion loop runs over keys taken from the front of the dict it
    deletes from: whatever the number of threads, it finds each of them. *)
Lemma trim_returns (c : PyDict.t (K := Key) (V := Np.ndarray)) :
  exists j : nat, Bridge.trim cls num_threads c = (Ok tt, skipn j c).
Proof.
  unfold Bridge.trim.
  destruct (PyDict.len c >? num_threads * 2); [| exists O; reflexivity].
  unfold slice_to.
  destruct (num_threads <? 0); eexists;
    apply (BridgeProps.del_each_front cls key_eqb_refl).
Qed.

Lemma time_of_errors (self : MovisSceneVSWrap Key) (n : Z) (e : exn) :
  Bridge.time_of self n = Raise e ->
  e = ZeroDivisionError \/ e = OverflowError.
Proof.
  unfold Bridge.time_of, Py.fraction_div.
  destruct (Qnum (fps self) =? 0); [intros H; injection H as <-; auto |].
  simpl. unfold Py.float_of_fraction, Py.int_truediv.
  destruct (Z.pos _ =? 0); [intros H; injection H as <-; auto |].
  destruct (SFdiv _ _ _ _); try discriminate.
  intros H; injection H as <-; auto.
Qed.

Lemma broadcast_axis_errors {A : Type} (l : list A) (k : nat) (e : exn) :
  Np.broadcast_axis l k = Raise e -> e = ValueError.
Proof.
  unfold Np.broadcast_axis. destruct (Nat.eqb (List.length l) k);
    [discriminate |].
  destruct l as [| x [| y l]]; try discriminate;
    intros H; injection H as <-; reflexivity.
Qed.

Lemma broadcast_rows_errors (rows : list (list Z)) (w : nat) (e : exn) :
  Np.broadcast_rows rows w = Raise e -> e = ValueError.
Proof.
  induction rows as [| r rest IH]; simpl; [discriminate |].
  destruct (Np.broadcast_axis r w) as [r' | e'] eqn:Hr; simpl.
  - destruct (Np.broadcast_rows rest w) as [rest' | e''] eqn:Hrest; simpl.
    + discriminate.
    + intros H. injection H as <-. apply IH. reflexivity.
  - intros H. injection H as <-. exact (broadcast_axis_errors _ _ _ Hr).
Qed.

Lemma copy_errors (frame : Np.ndarray) (plane : Z) (dst : Plane) (e : exn) :
  (src <- Np.depth_slice frame plane ;; Np.copyto dst src) = Raise e ->
  e = IndexError \/ e = ValueError.
Proof.
  unfold Np.depth_slice.
  destruct ((plane <? - Z.of_nat (List.length frame))
            || (Z.of_nat (List.length frame) <=? plane));
    [intros H; injection H as <-; auto |].
  destruct (nth_error frame _) as [src |];
    [| intros H; injection H as <-; auto].
  simpl. unfold Np.copyto.
  destruct (Np.broadcast_rows src (snd (Np.shape dst))) as [rows | e'] eqn:Hb;
    simpl.
  - intros H. right. exact (broadcast_axis_errors _ _ _ H).
  - intros H. injection H as <-. right. exact (broadcast_rows_errors _ _ _ Hb).
Qed.

(** X1. Every outcome of [_to_node] is one of five. It returns, once the
    scene gave a frame and the plane was copied: the deletion loop never
    raises. It raises [ZeroDivisionError] or [OverflowError] from the
    time, with the scene not called and nothing changed. It raises what
    the scene raised, with the buffer untouched and the scene as its call
    left it. It raises [KeyError] for want of a frame. Or it raises
    [IndexError] or [ValueError] from the copy, and then the buffer is
    untouched and the cache is left as the scene left it, untrimmed. *)
Theorem to_node_outcomes (self self' : MovisSceneVSWrap Key) (n plane : Z)
    (dst dst' : Plane) (r : result unit) :
  Bridge._to_node cls num_threads self n plane dst = (r, (self', dst')) ->
  (r = Ok tt /\
   exists time frame s,
     Bridge.time_of self n = Ok time /\
     scene_call cls (scene self) time = (Ok (Some frame), s) /\
     (src <- Np.depth_slice frame plane ;; Np.copyto dst src) = Ok dst') \/
  ((r = Raise ZeroDivisionError \/ r = Raise OverflowError) /\
   (exists e, Bridge.time_of self n = Raise e) /\
   self' = self /\ dst' = dst) \/
  (exists e time s,
     r = Raise e /\
     Bridge.time_of self n = Ok time /\
     scene_call cls (scene self) time = (Raise e, s) /\
     self' = Bridge.set_scene self s /\ dst' = dst) \/
  (r = Raise KeyError /\
   exists time s,
     Bridge.time_of self n = Ok time /\
     scene_call cls (scene self) time = (Ok None, s) /\
     self' = Bridge.set_scene self s /\ dst' = dst) \/
  ((r = Raise IndexError \/ r = Raise ValueError) /\
   exists time frame s,
     Bridge.time_of self n = Ok time /\
     scene_call cls (scene self) time = (Ok (Some frame), s) /\
     self' = Bridge.set_scene self s /\ dst' = dst).
Proof.
  unfold Bridge._to_node.
  destruct (Bridge.time_of self n) as [time | e] eqn:Ht.
  - destruct (scene_call cls (scene self) time) as [[[frame |] | e] s]
      eqn:Hcall.
    + destruct (src <- Np.depth_slice frame plane;; Np.copyto dst src)
        as [d | e] eqn:Hcopy.
      * destruct (trim_returns (_cache s)) as [j Htrim]. rewrite Htrim.
        intros H. injection H as <- _ <-. left. split; [reflexivity |].
        exists time, frame, s. auto.
      * intros H. injection H as <- <- <-. right. right. right. right.
        split.
        -- destruct (copy_errors _ _ _ _ Hcopy) as [-> | ->]; auto.
        -- exists time, frame, s. auto.
    + intros H. injection H as <- <- <-. right. right. right. left.
      split; [reflexivity |]. exists time, s. auto.
    + intros H. injection H as <- <- <-. right. right. left.
      exists e, time, s. auto.
  - intros H. injection H as <- <- <-. right. left. split.
    + destruct (time_of_errors _ _ _ Ht) as [-> | ->]; auto.
    + split; [exists e; reflexivity | auto].
Qed.

Lemma broadcast_axis_same {A : Type} (l : list A) :
  Np.broadcast_axis l (List.length l) = Ok l.
Proof. unfold Np.broadcast_axis. rewrite Nat.eqb_refl. reflexivity. Qed.

Lemma copyto_same_shape (dst src : Plane) :
  plane_has_shape (fst (Np.shape dst)) (snd (Np.shape dst)) src ->
  Np.copyto dst src = Ok src.
Proof.
  intros [Hh Hw]. unfold Np.copyto.
  generalize dependent (fst (Np.shape dst)).
  generalize dependent (snd (Np.shape dst)).
  intros w Hw h Hh.
  assert (Hrows : Np.broadcast_rows src w = Ok src).
  { clear Hh. induction Hw as [| r rest Hr _ IH]; [reflexivity |].
    cbn [Np.broadcast_rows]. rewrite <- Hr at 1.
    rewrite broadcast_axis_same. cbn [bind]. rewrite IH. reflexivity. }
  rewrite Hrows. cbn [bind]. rewrite <- Hh. apply broadcast_axis_same.
Qed.

(** X2. A call that returns has written into the buffer the plane of the
    scene's frame that the selector names, counted from the end when it is
    negative: a plane of the buffer's shape is in the buffer as it is. *)
Theorem to_node_writes_plane (self self' : MovisSceneVSWrap Key)
    (n plane : Z) (dst dst' : Plane) :
  Bridge._to_node cls num_threads self n plane dst = (Ok tt, (self', dst')) ->
  exists time frame s src,
    Bridge.time_of self n = Ok time /\
    scene_call cls (scene self) time = (Ok (Some frame), s) /\
    - Z.of_nat (List.length frame) <= plane < Z.of_nat (List.length frame) /\
    nth_error frame
      (Z.to_nat (if plane <? 0 then plane + Z.of_nat (List.length frame)
                 else plane)) = Some src /\
    Np.copyto dst src = Ok dst' /\
    (plane_has_shape (fst (Np.shape dst)) (snd (Np.shape dst)) src ->
     dst' = src).
Proof.
  unfold Bridge._to_node.
  destruct (Bridge.time_of self n) as [time | e] eqn:Ht; [| discriminate].
  destruct (scene_call cls (scene self) time) as [[[frame |] | e] s]
    eqn:Hcall; [| discriminate | discriminate].
  destruct (src <- Np.depth_slice frame plane;; Np.copyto dst src)
    as [d | e] eqn:Hcopy; [| discriminate].
  destruct (trim_returns (_cache s)) as [j Htrim]. rewrite Htrim.
  intros H. injection H as _ <-.
  unfold Np.depth_slice in Hcopy.
  destruct (Z.ltb_spec plane (- Z.of_nat (List.length frame))) as [? | Hlo];
    [discriminate |].
  destruct (Z.leb_spec (Z.of_nat (List.length frame)) plane) as [? | Hhi];
    [discriminate |].
  simpl in Hcopy.
  destruct (nth_error frame _) as [src |] eqn:Hsrc; [| discriminate].
  simpl in Hcopy. exists time, frame, s, src.
  repeat split; try assumption; try lia.
  intros Hshape. rewrite (copyto_same_shape dst src Hshape) in Hcopy.
  injection Hcopy as <-. reflexivity.
Qed.

Lemma last_app_nonempty {A : Type} (l l' : list A) (d : A) :
  l' <> [] -> last (l ++ l') d = last l' d.
Proof.
  intros Hne. induction l as [| x l IH]; [reflexivity |].
  cbn [app]. destruct (l ++ l') as [| y t] eqn:Happ.
  - destruct l; [simpl in Happ; contradiction | discriminate].
  - exact IH.
Qed.

(** X3. The trim keeps the newest entries, in their order: what it
    removes is a front part of the cache, nothing or [num_threads]
    entries, and in the second case more than [num_threads] entries stay;
    the last entry of a cache stays the last. *)
Theorem trim_keeps_newest (c : PyDict.t (K := Key) (V := Np.ndarray)) :
  0 <= num_threads ->
  exists old kept,
    Bridge.trim cls num_threads c = (Ok tt, kept) /\
    c = old ++ kept /\
    (old = [] \/
     (Z.of_nat (List.length old) = num_threads /\
      num_threads < Z.of_nat (List.length kept))) /\
    (forall x, c <> [] -> last kept x = last c x).
Proof.
  intros Hp. rewrite (BridgeProps.trim_spec cls num_threads key_eqb_refl c Hp).
  unfold PyDict.len.
  destruct (Z.gtb_spec (Z.of_nat (List.length c)) (num_threads * 2))
    as [Hgt | Hle].
  - exists (firstn (Z.to_nat num_threads) c), (skipn (Z.to_nat num_threads) c).
    split; [reflexivity |]. split; [symmetry; apply firstn_skipn |].
    assert (Hlen : List.length (skipn (Z.to_nat num_threads) c)
                   = (List.length c - Z.to_nat num_threads)%nat)
      by apply length_skipn.
    split.
    + right. rewrite length_firstn, Hlen. lia.
    + intros x _.
      rewrite <- (firstn_skipn (Z.to_nat num_threads) c) at 2.
      rewrite last_app_nonempty; [reflexivity |].
      intros Hnil. rewrite Hnil in Hlen. simpl in Hlen. lia.
  - exists [], c. repeat split; auto.
Qed.

(** X4. The time of an index is defined when the rate is not zero and
    fits the engine's integers: for a positive rate of two [int64_t] and an
    index from 0 below [2 ^ 31] it is a finite float of the format, zero
    or positive, neither a NaN nor an infinity. With a rate of zero every
    call raises [ZeroDivisionError] before the scene is called, and
    changes nothing. *)
Theorem time_of_defined (self : MovisSceneVSWrap Key) :
  (0 < Qnum (fps self) < 2 ^ 63 -> Zpos (Qden (fps self)) < 2 ^ 63 ->
   forall n, 0 <= n < 2 ^ 31 ->
     exists time,
       Bridge.time_of self n = Ok time /\
       Py.fvalid time = true /\
       (time = S754_zero false \/ exists m e, time = S754_finite false m e) /\
       (time = S754_zero false <-> n = 0)) /\
  (Qnum (fps self) = 0 ->
   forall n plane dst,
     Bridge._to_node cls num_threads self n plane dst
     = (Raise ZeroDivisionError, (self, dst))).
Proof.
  split.
  - intros Hnum Hden n Hn.
    destruct (Z.eq_dec n 0) as [-> | Hn0].
    + exists (S754_zero false).
      unfold Bridge.time_of, Py.fraction_div.
      destruct (Z.eqb_spec (Qnum (fps self)) 0) as [? | _]; [lia |].
      destruct (fps self) as [num den]. cbn [Qnum Qden] in *.
      destruct num as [| p | p]; try lia.
      split; [reflexivity |]. split; [reflexivity |].
      split; [left; reflexivity |]. split; reflexivity.
    + destruct (FloatNear.index_time_near n (fps self) ltac:(lia) Hnum Hden)
        as (m & e & Ht & Hv & _).
      exists (S754_finite false m e).
      split; [exact Ht |]. split; [exact Hv |].
      split; [right; exists m, e; reflexivity |].
      split; [discriminate | intros ->; contradiction].
  - intros Hzero n plane dst. unfold Bridge._to_node, Bridge.time_of,
      Py.fraction_div.
    rewrite Hzero. reflexivity.
Qed.

End WithScene.

(** X5. With no rate supplied and no video source among the layers, the
    constructor raises [IndexError] for a scene without layers and
    [AttributeError] when the layer of the first item has no [fps]. *)
Theorem init_without_rate_errors {Key : Type} (s : Composition Key) :
  (_layers s = [] -> Bridge.init s None = Raise IndexError) /\
  (forall inner rest,
      _layers s = ItemLayer inner :: rest ->
      Forall (fun l => is_source (unwrap l) = false) (_layers s) ->
      (unwrap inner = OtherLayer None \/ exists l, unwrap inner = ItemLayer l) ->
      Bridge.init s None = Raise AttributeError).
Proof.
  split.
  - intros Hl. unfold Bridge.init, Bridge.infer_fps. simpl. rewrite Hl.
    reflexivity.
  - intros inner rest Hl Hnone Hattr.
    unfold Bridge.init, Bridge.infer_fps. simpl.
    rewrite (RateProps.scan_layers_none _ Hnone), Hl. simpl.
    destruct Hattr as [-> | [l ->]]; reflexivity.
Qed.

End BridgeMore.

(** ** The frame source: times outside the usual *)

Module SourceMore.

Lemma flt_irrefl (d : Py.float) : Py.flt d d = false.
Proof.
  destruct d as [s | s | | s m e]; try (destruct s; reflexivity);
    try reflexivity.
  unfold Py.flt, SFltb, SFcompare. rewrite Z.compare_refl.
  change (Pos.compare_cont Eq m m) with (Pos.compare m m).
  rewrite Pos.compare_refl. destruct s; reflexivity.
Qed.

Section WithSource.

Variable self : MovisVSVideoSource.

Lemma call_of_raise (time : Py.float) (e : exn) :
  VideoSource.get_key self time = Raise e ->
  VideoSource.call self time = Raise e.
Proof. intros Hk. unfold VideoSource.call. rewrite Hk. reflexivity. Qed.

(** X6. A clip of variable rate, whose rate the engine gives as zero, has
    no duration: the property raises [ZeroDivisionError]. Times below
    zero still have the key [-1] and no sample; for every other time
    [get_key] and the sample call raise [ZeroDivisionError]. *)
Theorem variable_rate_has_no_keys (time : Py.float) :
  Qnum (vn_fps (video_node self)) = 0 ->
  VideoSource.duration self = Raise ZeroDivisionError /\
  (Py.flt time Py.fzero = true ->
   VideoSource.get_key self time = Ok (-1) /\
   VideoSource.call self time = Ok None) /\
  (Py.flt time Py.fzero = false ->
   VideoSource.get_key self time = Raise ZeroDivisionError /\
   VideoSource.call self time = Raise ZeroDivisionError).
Proof.
  intros Hzero.
  assert (Hd : VideoSource.duration self = Raise ZeroDivisionError).
  { unfold VideoSource.duration, Py.fraction_div. rewrite Hzero.
    reflexivity. }
  split; [exact Hd |]. split.
  - intros Ht. pose proof (KeyProps.get_key_negative self time Ht) as Hk.
    split; [exact Hk | exact (KeyProps.call_no_key self time Hk)].
  - intros Ht.
    assert (Hk : VideoSource.get_key self time = Raise ZeroDivisionError).
    { unfold VideoSource.get_key. rewrite Ht, Hd. reflexivity. }
    split; [exact Hk | exact (call_of_raise time _ Hk)].
Qed.

(** X7. Times that are not finite numbers, for a clip of constant rate:
    both infinities are out of range, with the key [-1] and no sample; for
    a NaN, which compares false with everything, [get_key] and the sample
    call raise [ValueError]. *)
Theorem nonfinite_times :
  cfr_clip (video_node self) ->
  (forall s,
      VideoSource.get_key self (S754_infinity s) = Ok (-1) /\
      VideoSource.call self (S754_infinity s) = Ok None) /\
  VideoSource.get_key self S754_nan = Raise ValueError /\
  VideoSource.call self S754_nan = Raise ValueError.
Proof.
  intros Hclip.
  pose proof (KeyProps.cfr_rate_nonneg self Hclip) as Hrate.
  destruct (KeyProps.duration_has_key self Hrate Hclip)
    as (d & f & kd & Hd & _ & Hds & Hf & _).
  split.
  - intros s.
    assert (Hk : VideoSource.get_key self (S754_infinity s) = Ok (-1)).
    { destruct s.
      - apply KeyProps.get_key_negative. reflexivity.
      - apply (KeyProps.get_key_past self _ d Hd).
        destruct Hds as [-> | (m & e & ->)]; reflexivity. }
    split; [exact Hk | exact (KeyProps.call_no_key self _ Hk)].
  - assert (Hk : VideoSource.get_key self S754_nan = Raise ValueError).
    { rewrite (KeyProps.get_key_in_range self S754_nan d Hd eq_refl).
      - unfold Py.fmul_fraction. rewrite Hf. reflexivity.
      - destruct Hds as [-> | (m & e & ->)]; reflexivity. }
    split; [exact Hk | exact (call_of_raise _ _ Hk)].
Qed.

(** Time zero, of either sign, has the key [0]. *)
Lemma get_key_zero (s : bool) :
  cfr_clip (video_node self) ->
  VideoSource.get_key self (S754_zero s) = Ok 0.
Proof.
  intros Hclip.
  pose proof (KeyProps.cfr_rate_nonneg self Hclip) as Hrate.
  destruct (KeyProps.duration_has_key self Hrate Hclip)
    as (d & f & kd & Hd & Hvd & Hds & Hf & Hkd).
  pose proof (FloatProps.float_of_fraction_rate _ _ Hrate Hf) as Hr.
  rewrite (KeyProps.get_key_in_range self (S754_zero s) d Hd).
  - unfold Py.fmul_fraction. rewrite Hf. cbn [bind].
    destruct Hr as [| | mf ef _]; [reflexivity | | reflexivity].
    destruct Hds as [-> | (m & e & ->)]; discriminate.
  - destruct s; reflexivity.
  - destruct Hds as [-> | (m & e & ->)]; destruct s; reflexivity.
Qed.

(** X8. The keys of a clip of constant rate have a largest one, the key
    of the duration itself, which is not [-1]: time zero has the key [0],
    every number from zero to the duration has a key from [0] to that of
    the duration, and whatever [get_key] returns for a float of the format
    lies between [-1] and it. *)
Theorem keys_up_to_last :
  cfr_clip (video_node self) ->
  exists d kd,
    VideoSource.duration self = Ok d /\
    VideoSource.get_key self d = Ok kd /\ 0 <= kd /\
    (forall s, VideoSource.get_key self (S754_zero s) = Ok 0) /\
    (forall t,
        Py.fvalid t = true -> Py.fle t t = true ->
        Py.flt t Py.fzero = false -> Py.flt d t = false ->
        exists k, VideoSource.get_key self t = Ok k /\ 0 <= k <= kd) /\
    (forall t k,
        Py.fvalid t = true ->
        VideoSource.get_key self t = Ok k -> -1 <= k <= kd).
Proof.
  intros Hclip.
  pose proof (KeyProps.cfr_rate_nonneg self Hclip) as Hrate.
  destruct (KeyProps.duration_has_key self Hrate Hclip)
    as (d & f & kd & Hd & Hvd & Hds & Hf & Hkd).
  pose proof (FloatProps.float_of_fraction_rate _ _ Hrate Hf) as Hr.
  assert (Hd0 : Py.flt d Py.fzero = false)
    by (destruct Hds as [-> | (m & e & ->)]; reflexivity).
  assert (Hlast : VideoSource.get_key self d = Ok kd).
  { rewrite (KeyProps.get_key_in_range self d d Hd Hd0 (flt_irrefl d)).
    unfold Py.fmul_fraction. rewrite Hf. exact Hkd. }
  assert (Hin : forall t,
             Py.fvalid t = true -> Py.fle t t = true ->
             Py.flt t Py.fzero = false -> Py.flt d t = false ->
             exists k, VideoSource.get_key self t = Ok k /\ 0 <= k <= kd).
  { intros t Hv Hnum Ht0 Htd.
    pose proof (FloatProps.not_above_le t d Ht0 Hnum Hds Htd) as Hle.
    exact (KeyProps.key_of_earlier self Hrate d t d kd Hd Hv Hvd Ht0 Htd Hle
             (flt_irrefl d) Hlast). }
  assert (Hkd0 : 0 <= kd).
  { destruct (Hin d Hvd) as (k & Hk & Hb); try assumption.
    - apply FloatProps.fle_refl.
      destruct Hds as [-> | (m & e & ->)]; discriminate.
    - apply flt_irrefl.
    - rewrite Hlast in Hk. injection Hk as <-. lia. }
  exists d, kd.
  split; [exact Hd |]. split; [exact Hlast |]. split; [exact Hkd0 |].
  split; [| split; [exact Hin |]].
  - intros s. exact (get_key_zero s Hclip).
  - intros t k Hv Hk.
    destruct (Py.flt t Py.fzero) eqn:Ht0.
    { rewrite (KeyProps.get_key_negative self t Ht0) in Hk.
      injection Hk as <-. lia. }
    destruct (Py.flt d t) eqn:Htd.
    { rewrite (KeyProps.get_key_past self t d Hd Htd) in Hk.
      injection Hk as <-. lia. }
    destruct (Hin t Hv) as (k' & Hk' & Hb); try assumption.
    + apply FloatProps.fle_refl. intros ->.
      rewrite (KeyProps.get_key_in_range self _ d Hd Ht0 Htd) in Hk.
      unfold Py.fmul_fraction in Hk. rewrite Hf in Hk. discriminate.
    + rewrite Hk in Hk'. injection Hk' as <-. lia.
Qed.

(** With a key that is a frame number the call returns a sample or
    raises: it does not return nothing. *)
Lemma call_present (time : Py.float) (k : Z) :
  VideoSource.get_key self time = Ok k ->
  0 <= k < VideoSource.n_frame self ->
  VideoSource.call self time <> Ok None.
Proof.
  intros Hk Hin. unfold VideoSource.call. rewrite Hk. cbn [bind].
  destruct (Z.ltb_spec k 0) as [? | _]; [lia |]. cbn [orb].
  destruct (Z.geb_spec k (VideoSource.n_frame self)) as [? | _]; [lia |].
  destruct (FramesCache_getitem _ _); [| discriminate]. cbn [bind].
  destruct (FramesCache_getitem _ _); [| discriminate]. cbn [bind].
  repeat (match goal with
          | |- context [frame_plane ?f ?i] =>
              destruct (frame_plane f i); [| discriminate]; cbn [bind]
          end).
  destruct (Np.dstack _); discriminate.
Qed.

(** X9. The sample call follows the key: an error of [get_key] is the
    error of the call, and with a key the call returns nothing exactly
    when the key is negative or not below the frame count. *)
Theorem call_absent_iff (time : Py.float) :
  (forall e,
      VideoSource.get_key self time = Raise e ->
      VideoSource.call self time = Raise e) /\
  (forall k,
      VideoSource.get_key self time = Ok k ->
      (VideoSource.call self time = Ok None <->
       k < 0 \/ VideoSource.n_frame self <= k)).
Proof.
  split; [exact (call_of_raise time) |].
  intros k Hk. split.
  - intros Hnone.
    destruct (Z.lt_ge_cases k 0) as [? | Hk0]; [left; assumption |].
    destruct (Z.lt_ge_cases k (VideoSource.n_frame self)) as [Hlt | ?];
      [| right; assumption].
    exfalso. exact (call_present time k Hk (conj Hk0 Hlt) Hnone).
  - intros Hout. unfold VideoSource.call. rewrite Hk. cbn [bind].
    destruct Hout as [Hneg | Hge].
    + destruct (Z.ltb_spec k 0) as [_ | ?]; [reflexivity | lia].
    + destruct (Z.geb_spec k (VideoSource.n_frame self)) as [_ | ?];
        [| lia].
      rewrite orb_true_r. reflexivity.
Qed.

End WithSource.
End SourceMore.

(** ** The frame source: what a sample holds, and when there is none *)

Module SampleMore.

Lemma asarray_uint8_id (p : Plane) :
  plane_uint8 p -> Np.asarray_uint8 p = p.
Proof.
  unfold plane_uint8, Np.asarray_uint8.
  induction 1 as [| r rest Hr _ IH]; [reflexivity |].
  cbn [map]. rewrite IH. f_equal.
  induction Hr as [| x xs Hx _ IHr]; [reflexivity |].
  cbn [map]. rewrite IHr, (Z.mod_small x 256) by exact Hx. reflexivity.
Qed.

Lemma asarray_shape_eq (p : Plane) :
  Np.shape (Np.asarray_uint8 p) = Np.shape p.
Proof.
  unfold Np.shape, Np.asarray_uint8. rewrite length_map.
  destruct p as [| r rest]; [reflexivity |].
  cbn [map]. rewrite length_map. reflexivity.
Qed.

Lemma shape_eqb_neq (a b : nat * nat) :
  a <> b -> Np.shape_eqb a b = false.
Proof.
  destruct a as [h w], b as [h' w']. unfold Np.shape_eqb. cbn [fst snd].
  intros Hne.
  destruct (Nat.eqb_spec h h') as [-> | _]; [| reflexivity].
  destruct (Nat.eqb_spec w w') as [-> | _]; [| reflexivity].
  contradiction Hne. reflexivity.
Qed.

Section WithEngine.

Variable core : Engine.

(** With a key that is a frame number of both streams, the call reads the
    frames of that number, of the colour stream and of the alpha stream. *)
Lemma call_reads_frames (arg : VideoArg) (audio : option AudioNode)
    (kwargs : Kwargs core) (self : MovisVSVideoSource) (time : Py.float)
    (k : Z) :
  VideoSourceInit.init core arg audio kwargs = Ok self ->
  VideoSource.get_key self time = Ok k ->
  0 <= k < VideoSource.n_frame self ->
  k < vn_num_frames (video_alpha_node self) ->
  VideoSource.call self time
  = (p0 <- frame_plane (vn_frames (video_node self) k) 0 ;;
     p1 <- frame_plane (vn_frames (video_node self) k) 1 ;;
     p2 <- frame_plane (vn_frames (video_node self) k) 2 ;;
     a0 <- frame_plane (vn_frames (video_alpha_node self) k) 0 ;;
     arr <- Np.dstack [Np.asarray_uint8 p0; Np.asarray_uint8 p1;
                       Np.asarray_uint8 p2; Np.asarray_uint8 a0] ;;
     Ok (Some arr)).
Proof.
  intros Hinit Hkey Hk Hka.
  destruct (InitProps.init_ok_fields _ _ _ _ _ Hinit)
    as (_ & _ & _ & _ & Hvc & Hac).
  unfold VideoSource.n_frame in Hk.
  unfold VideoSource.call. rewrite Hkey. cbn [bind].
  unfold VideoSource.n_frame.
  destruct (Z.ltb_spec k 0) as [? | _]; [lia |].
  destruct (Z.geb_spec k (vn_num_frames (video_node self))) as [? | _];
    [lia |].
  cbn [orb]. unfold FramesCache_getitem, get_frame. rewrite Hvc, Hac.
  destruct (Z.leb_spec 0 k) as [_ | ?]; [| lia].
  destruct (Z.ltb_spec k (vn_num_frames (video_node self))) as [_ | ?];
    [| lia].
  destruct (Z.ltb_spec k (vn_num_frames (video_alpha_node self)))
    as [_ | ?]; [| lia].
  reflexivity.
Qed.

(** With a key that is a frame number of both streams, and streams of the
    formats the constructor asks for and of one size, the call returns a
    sample of four planes. *)
Lemma call_gives_sample (arg : VideoArg) (audio : option AudioNode)
    (kwargs : Kwargs core) (self : MovisVSVideoSource) (time : Py.float)
    (k : Z) :
  VideoSourceInit.init core arg audio kwargs = Ok self ->
  clip_of_format RGB24 (video_node self) ->
  clip_of_format GRAY8 (video_alpha_node self) ->
  vn_width (video_alpha_node self) = vn_width (video_node self) ->
  vn_height (video_alpha_node self) = vn_height (video_node self) ->
  VideoSource.get_key self time = Ok k ->
  0 <= k < VideoSource.n_frame self ->
  k < vn_num_frames (video_alpha_node self) ->
  exists arr,
    VideoSource.call self time = Ok (Some arr) /\ List.length arr = 4%nat.
Proof.
  intros Hinit [_ Hvwf] [_ Hawf] Hw Hh Hkey Hk Hka.
  rewrite (call_reads_frames _ _ _ _ _ _ Hinit Hkey Hk Hka).
  unfold VideoSource.n_frame in Hk.
  destruct (Hvwf k Hk) as [Hvlen Hvplanes].
  destruct (Hawf k ltac:(lia)) as [Halen Haplanes].
  cbn [format_planes] in Hvlen, Halen.
  rewrite Hw, Hh in Haplanes.
  set (h := Z.to_nat (vn_height (video_node self))) in *.
  set (w := Z.to_nat (vn_width (video_node self))) in *.
  destruct (vn_frames (video_node self) k) as [| p0 [| p1 [| p2 [| ? ?]]]];
    try discriminate.
  destruct (vn_frames (video_alpha_node self) k) as [| a0 [| ? ?]];
    try discriminate.
  assert (Hp0 : plane_has_shape h w p0) by (inversion Hvplanes; assumption).
  assert (Hp1 : plane_has_shape h w p1).
  { inversion Hvplanes as [| ? ? _ H1]; inversion H1; assumption. }
  assert (Hp2 : plane_has_shape h w p2).
  { inversion Hvplanes as [| ? ? _ H1]; inversion H1 as [| ? ? _ H2];
      inversion H2; assumption. }
  assert (Ha0 : plane_has_shape h w a0) by (inversion Haplanes; assumption).
  exists [Np.asarray_uint8 p0; Np.asarray_uint8 p1; Np.asarray_uint8 p2;
          Np.asarray_uint8 a0].
  split; [| reflexivity].
  cbn [frame_plane nth_error bind]. unfold Np.dstack. cbn [forallb].
  rewrite !(shape_of_plane h w) by (apply asarray_shape; assumption).
  rewrite shape_eqb_refl. reflexivity.
Qed.

(** X10. The sample holds the clip's own samples: for a key that is a
    frame number of both streams, whose planes are of one shape and hold
    values from 0 to 255, the sample is the first three planes of the
    colour stream's frame of that number followed by the first plane of the
    alpha stream's, each as it is. *)
Theorem sample_planes_unaltered (arg : VideoArg) (audio : option AudioNode)
    (kwargs : Kwargs core) (self : MovisVSVideoSource) (time : Py.float)
    (k : Z) (p0 p1 p2 a0 : Plane) (more more_alpha : Frame) :
  VideoSourceInit.init core arg audio kwargs = Ok self ->
  VideoSource.get_key self time = Ok k ->
  0 <= k < VideoSource.n_frame self ->
  k < vn_num_frames (video_alpha_node self) ->
  vn_frames (video_node self) k = p0 :: p1 :: p2 :: more ->
  vn_frames (video_alpha_node self) k = a0 :: more_alpha ->
  Forall plane_uint8 [p0; p1; p2; a0] ->
  Forall (fun p => Np.shape p = Np.shape p0) [p1; p2; a0] ->
  VideoSource.call self time = Ok (Some [p0; p1; p2; a0]).
Proof.
  intros Hinit Hkey Hk Hka Hv Ha Hrange Hshape.
  rewrite (call_reads_frames _ _ _ _ _ _ Hinit Hkey Hk Hka), Hv, Ha.
  cbn [frame_plane nth_error bind].
  inversion Hrange as [| ? ? H0 Hr1]; subst.
  inversion Hr1 as [| ? ? H1 Hr2]; subst.
  inversion Hr2 as [| ? ? H2 Hr3]; subst.
  inversion Hr3 as [| ? ? H3 _]; subst.
  rewrite !asarray_uint8_id by assumption.
  inversion Hshape as [| ? ? S1 Hs1]; subst.
  inversion Hs1 as [| ? ? S2 Hs2]; subst.
  inversion Hs2 as [| ? ? S3 _]; subst.
  unfold Np.dstack. cbn [forallb]. rewrite S1, S2, S3, shape_eqb_refl.
  reflexivity.
Qed.

(** X11. When a key in range gives no sample. An alpha stream that ends
    before the key makes the call raise the engine's error; a colour frame
    of fewer than three planes, or an alpha frame of none, [IndexError];
    and planes that are not all of one shape cannot be stacked: the call
    raises [ValueError]. *)
Theorem sample_failures (arg : VideoArg) (audio : option AudioNode)
    (kwargs : Kwargs core) (self : MovisVSVideoSource) (time : Py.float)
    (k : Z) :
  VideoSourceInit.init core arg audio kwargs = Ok self ->
  VideoSource.get_key self time = Ok k ->
  0 <= k < VideoSource.n_frame self ->
  (vn_num_frames (video_alpha_node self) <= k ->
   VideoSource.call self time = Raise VSError) /\
  (k < vn_num_frames (video_alpha_node self) ->
   (List.length (vn_frames (video_node self) k) < 3)%nat \/
   vn_frames (video_alpha_node self) k = [] ->
   VideoSource.call self time = Raise IndexError) /\
  (k < vn_num_frames (video_alpha_node self) ->
   forall (p0 p1 p2 a0 : Plane) (more more_alpha : Frame),
     vn_frames (video_node self) k = p0 :: p1 :: p2 :: more ->
     vn_frames (video_alpha_node self) k = a0 :: more_alpha ->
     Np.shape p1 <> Np.shape p0 \/ Np.shape p2 <> Np.shape p0 \/
     Np.shape a0 <> Np.shape p0 ->
     VideoSource.call self time = Raise ValueError).
Proof.
  intros Hinit Hkey Hk. split; [| split].
  - intros Hshort.
    destruct (InitProps.init_ok_fields _ _ _ _ _ Hinit)
      as (_ & _ & _ & _ & Hvc & Hac).
    unfold VideoSource.n_frame in Hk.
    unfold VideoSource.call. rewrite Hkey. cbn [bind].
    unfold VideoSource.n_frame.
    destruct (Z.ltb_spec k 0) as [? | _]; [lia |].
    destruct (Z.geb_spec k (vn_num_frames (video_node self))) as [? | _];
      [lia |].
    cbn [orb]. unfold FramesCache_getitem, get_frame. rewrite Hvc, Hac.
    destruct (Z.leb_spec 0 k) as [_ | ?]; [| lia].
    destruct (Z.ltb_spec k (vn_num_frames (video_node self))) as [_ | ?];
      [| lia].
    destruct (Z.ltb_spec k (vn_num_frames (video_alpha_node self)))
      as [? | _]; [lia |].
    reflexivity.
  - intros Hka Hfew.
    rewrite (call_reads_frames _ _ _ _ _ _ Hinit Hkey Hk Hka).
    destruct (vn_frames (video_node self) k) as [| p0 [| p1 [| p2 more]]];
      try reflexivity.
    destruct Hfew as [Hlen | ->]; [simpl in Hlen; lia | reflexivity].
  - intros Hka p0 p1 p2 a0 more more_alpha Hv Ha Hdiff.
    rewrite (call_reads_frames _ _ _ _ _ _ Hinit Hkey Hk Hka), Hv, Ha.
    cbn [frame_plane nth_error bind]. unfold Np.dstack. cbn [forallb].
    rewrite !asarray_shape_eq.
    destruct Hdiff as [H | [H | H]];
      rewrite (shape_eqb_neq _ _ H); cbn [andb];
      repeat (match goal with
              | |- context [Np.shape_eqb ?a ?b] =>
                  destruct (Np.shape_eqb a b); cbn [andb]
              end); reflexivity.
Qed.

End WithEngine.
End SampleMore.

(** ** The constructor and the alpha callback: every outcome *)

Module InitMore.
Section WithEngine.

Variable core : Engine.

(** X13. Every outcome of the constructor of the frame source. It
    fails with the error of the colour conversion, or else with that of
    the alpha conversion, or else with [NotImplementedError] for an audio
    node that has samples; an error of the [_Alpha] extraction never
    escapes. When it returns, both conversions succeeded and the audio
    argument was absent or empty; the [audio] property then tells whether
    one was passed, while [has_audio] is false either way. *)
Theorem init_outcomes (arg : VideoArg) (audio : option AudioNode)
    (kwargs : Kwargs core) :
  let v := VideoSourceInit.arg_video arg in
  let al := VideoSourceInit.alpha_clip core v (VideoSourceInit.arg_alpha arg) in
  match VideoSourceInit.init core arg audio kwargs with
  | Ok self =>
      resize_Bicubic core v RGB24 kwargs = Ok (video_node self) /\
      resize_Bicubic core al GRAY8 (no_kwargs core)
      = Ok (video_alpha_node self) /\
      (audio = None \/ exists a, audio = Some a /\ an_num_samples a = 0) /\
      (VideoSource.audio self = true <-> audio <> None) /\
      VideoSource.has_audio self = false
  | Raise e =>
      resize_Bicubic core v RGB24 kwargs = Raise e \/
      (exists v',
          resize_Bicubic core v RGB24 kwargs = Ok v' /\
          resize_Bicubic core al GRAY8 (no_kwargs core) = Raise e) \/
      (e = NotImplementedError /\
       (exists v', resize_Bicubic core v RGB24 kwargs = Ok v') /\
       (exists al', resize_Bicubic core al GRAY8 (no_kwargs core) = Ok al') /\
       exists a, audio = Some a /\ an_num_samples a <> 0)
  end.
Proof.
  intros v al. unfold VideoSourceInit.init. fold v. fold al.
  destruct (resize_Bicubic core v RGB24 kwargs) as [v' | e] eqn:Hv;
    cbn [bind]; [| left; reflexivity].
  destruct (resize_Bicubic core al GRAY8 (no_kwargs core)) as [al' | e] eqn:Ha;
    cbn [bind]; [| right; left; exists v'; split; reflexivity].
  unfold VideoSourceInit.audio_layer, audio_truthy.
  destruct audio as [a |]; cbn [bind].
  - destruct (Z.eqb_spec (an_num_samples a) 0) as [Hz | Hnz]; cbn [negb bind].
    + cbn. repeat split; try reflexivity; try discriminate.
      right. exists a. split; [reflexivity | exact Hz].
    + right. right. split; [reflexivity |].
      split; [exists v'; reflexivity |].
      split; [exists al'; reflexivity |].
      exists a. split; [reflexivity | exact Hnz].
  - cbn. repeat split; try reflexivity; try discriminate.
    + left. reflexivity.
    + intros H. contradiction H. reflexivity.
Qed.

End WithEngine.
End InitMore.

Module AlphaMore.
Section WithScene.

Context {Key : Type}.
Variable cls : SceneClass Key.
Variable num_threads : Z.

Hypothesis key_eqb_refl : forall k, key_eqb cls k k = true.

(** X14. The alpha callback reads the fourth plane of the scene's
    frame. A frame of fewer than four planes makes it raise [IndexError],
    with the buffer untouched and the cache untrimmed; with a fourth plane
    of the buffer's shape it returns, the buffer holds that plane, and the
    cache is the scene's less some of its oldest entries. *)
Theorem alpha_node_plane (self : MovisSceneVSWrap Key) (n : Z) (dst : Plane)
    (time : Py.float) (frame : Np.ndarray) (s : Composition Key) :
  Bridge.time_of self n = Ok time ->
  scene_call cls (scene self) time = (Ok (Some frame), s) ->
  ((List.length frame < 4)%nat ->
   Bridge.alpha_node cls num_threads self n dst
   = (Raise IndexError, (Bridge.set_scene self s, dst))) /\
  (forall a,
      nth_error frame 3 = Some a ->
      plane_has_shape (fst (Np.shape dst)) (snd (Np.shape dst)) a ->
      exists j : nat,
        Bridge.alpha_node cls num_threads self n dst
        = (Ok tt,
           (Bridge.set_scene self (set_cache s (skipn j (_cache s))), a))).
Proof.
  intros Ht Hcall. unfold Bridge.alpha_node, Bridge._to_node.
  rewrite Ht, Hcall. unfold Np.depth_slice. split.
  - intros Hlen.
    destruct (Z.ltb_spec 3 (- Z.of_nat (List.length frame))) as [? | _];
      [lia |].
    destruct (Z.leb_spec (Z.of_nat (List.length frame)) 3) as [_ | ?];
      [| lia].
    reflexivity.
  - intros a Ha Hshape.
    assert (Hlen : (3 < List.length frame)%nat).
    { apply nth_error_Some. rewrite Ha. discriminate. }
    destruct (Z.ltb_spec 3 (- Z.of_nat (List.length frame))) as [? | _];
      [lia |].
    destruct (Z.leb_spec (Z.of_nat (List.length frame)) 3) as [? | _];
      [lia |].
    cbn [orb Z.ltb Z.compare]. change (Z.to_nat 3) with 3%nat.
    rewrite Ha. cbn [bind].
    rewrite (BridgeMore.copyto_same_shape dst a Hshape).
    destruct (BridgeMore.trim_returns cls num_threads key_eqb_refl (_cache s))
      as [j Htrim].
    rewrite Htrim. exists j. reflexivity.
Qed.

End WithScene.
End AlphaMore.

(** ** From the bridge's frame number to the source's key *)

Module RoundTrip.
Section WithKey.

Context {Key : Type}.

(** X12. The bridge's time for a frame number, handed to a source of
    the same constant rate, has the key of that number or of the one
    before it: the three roundings of [int(float(n / fps) * fps)] can lose
    one frame and cannot gain one. The time of the frame count itself, the
    duration, has the key of the frame count or of the last frame. For a
    frame number of the clip the call does not return nothing; and for a
    constructed source whose two streams have the formats asked for, one
    size, and an alpha stream as long as the colour stream, it returns a
    sample of four planes. *)
Theorem index_round_trip (self : MovisVSVideoSource)
    (w : MovisSceneVSWrap Key) (n : Z) :
  cfr_clip (video_node self) ->
  fps w = vn_fps (video_node self) ->
  0 <= n <= VideoSource.n_frame self ->
  exists t k,
    Bridge.time_of w n = Ok t /\
    VideoSource.get_key self t = Ok k /\
    n - 1 <= k <= n /\ 0 <= k /\
    (n < VideoSource.n_frame self -> VideoSource.call self t <> Ok None) /\
    (forall (core : Engine) (arg : VideoArg) (audio : option AudioNode)
            (kwargs : Kwargs core),
        n < VideoSource.n_frame self ->
        VideoSourceInit.init core arg audio kwargs = Ok self ->
        clip_of_format RGB24 (video_node self) ->
        clip_of_format GRAY8 (video_alpha_node self) ->
        vn_width (video_alpha_node self) = vn_width (video_node self) ->
        vn_height (video_alpha_node self) = vn_height (video_node self) ->
        VideoSource.n_frame self <= vn_num_frames (video_alpha_node self) ->
        exists arr,
          VideoSource.call self t = Ok (Some arr) /\
          List.length arr = 4%nat).
Proof.
  intros Hclip Hfps Hn.
  pose proof Hclip as (HN & Hp & Hden).
  unfold VideoSource.n_frame in Hn.
  assert (Htime : Bridge.time_of w n
                  = (q <- Py.fraction_div (inject_Z n)
                            (vn_fps (video_node self)) ;;
                     Py.float_of_fraction q)).
  { unfold Bridge.time_of. rewrite Hfps. reflexivity. }
  destruct (Z.eq_dec n 0) as [-> | Hn0].
  - exists (S754_zero false), 0.
    split.
    { rewrite Htime. unfold Py.fraction_div.
      destruct (Z.eqb_spec (Qnum (vn_fps (video_node self))) 0) as [? | _];
        [lia |].
      destruct (vn_fps (video_node self)) as [num den].
      cbn [Qnum Qden] in *. destruct num as [| p | p]; try lia.
      reflexivity. }
    pose proof (SourceMore.get_key_zero self false Hclip) as Hk.
    split; [exact Hk |]. split; [lia |]. split; [lia |]. split.
    + intros Hlt. apply (SourceMore.call_present self _ 0 Hk).
      unfold VideoSource.n_frame in *. lia.
    + intros core arg audio kwargs Hlt Hinit Hvf Haf Hw Hh Hlen.
      apply (SampleMore.call_gives_sample core arg audio kwargs self _ 0
               Hinit Hvf Haf Hw Hh Hk);
        unfold VideoSource.n_frame in *; lia.
  - set (rate := vn_fps (video_node self)) in *.
    destruct (FloatNear.index_time_near n rate ltac:(lia) Hp Hden)
      as (mt & et & Ht & Hvt & Hfull_t & Het & Hmag_t & Hnear_t).
    destruct (FloatNear.rate_near rate Hp Hden)
      as (mf & ef & Hf & Hfull_f & Hef & Hmag_f & Hnear_f).
    destruct (Hnear_t (-600) ltac:(lia) ltac:(lia)) as [Ht_lo Ht_hi].
    destruct (Hnear_f (-600) ltac:(lia) ltac:(lia)) as [Hf_lo Hf_hi].
    destruct (FloatNear.fmul_key_near mt mf et ef (-600)
                (Qnum rate) (Zpos (Qden rate)) (n * Zpos (Qden rate))
                (Qnum rate) n)
      as (k & Hk & Hbound);
      try assumption; try lia;
      try (unfold FloatProps.emin, Py.emax, Py.prec; lia);
      try (split; assumption).
    exists (S754_finite false mt et), k.
    split; [rewrite Htime; exact Ht |].
    (* the time is not above the duration *)
    assert (Hdur : exists d,
               VideoSource.duration self = Ok d /\
               Py.flt d (S754_finite false mt et) = false).
    { destruct (Z.eq_dec n (vn_num_frames (video_node self))) as [Hlast | Hne].
      - exists (S754_finite false mt et). split.
        + unfold VideoSource.duration. rewrite <- Hlast. exact Ht.
        + apply SourceMore.flt_irrefl.
      - destruct (FloatNear.index_time_near
                    (vn_num_frames (video_node self)) rate HN Hp Hden)
          as (md & ed & Hd & Hvd & Hfull_d & Hed & _ & Hnear_d).
        exists (S754_finite false md ed). split; [exact Hd |].
        destruct (Hnear_d (-600) ltac:(lia) ltac:(lia)) as [_ Hd_hi].
        apply (FloatNear.flt_false_of_value md mt ed et (-600) Hvd Hvt);
          try lia.
        pose proof (FloatProps.pow2_pos (et - -600) ltac:(lia)) as HUt.
        pose proof (FloatProps.pow2_pos (ed - -600) ltac:(lia)) as HUd.
        pose proof (FloatProps.pow2_pos (- -600) ltac:(lia)) as HW.
        assert (HZ0 : 0 < Zpos (Qden rate) * 2 ^ (- -600))
          by (apply Z.mul_pos_pos; lia).
        assert (Hx : (Zpos mt - 1) * 2 ^ (et - -600) * Qnum rate
                     <= n * (Zpos (Qden rate) * 2 ^ (- -600)))
          by (rewrite Z.mul_assoc; exact Ht_lo).
        assert (Hy : vn_num_frames (video_node self)
                     * (Zpos (Qden rate) * 2 ^ (- -600))
                     <= (Zpos md + 1) * 2 ^ (ed - -600) * Qnum rate)
          by (rewrite Z.mul_assoc; exact Hd_hi).
        assert (Hn1 : 1 <= n) by lia.
        assert (HnN : n < vn_num_frames (video_node self)) by lia.
        exact (FloatNear.near_order (Zpos mt) (Zpos md)
                 (2 ^ (et - -600)) (2 ^ (ed - -600)) (Qnum rate)
                 (Zpos (Qden rate) * 2 ^ (- -600))
                 n (vn_num_frames (video_node self))
                 Hfull_t (Pos2Z.is_pos md) HUt HUd (proj1 Hp) HZ0 Hn1 HnN
                 (proj2 HN) Hx Hy Hfull_d). }
    destruct Hdur as (d & Hd & Htd).
    assert (Hkey : VideoSource.get_key self (S754_finite false mt et) = Ok k).
    { rewrite (KeyProps.get_key_in_range self (S754_finite false mt et) d Hd
                 eq_refl Htd).
      unfold Py.fmul_fraction. fold rate. rewrite Hf. exact Hk. }
    split; [exact Hkey |]. split; [exact Hbound |]. split; [lia |]. split.
    + intros Hlt. apply (SourceMore.call_present self _ k Hkey).
      unfold VideoSource.n_frame in *. lia.
    + intros core arg audio kwargs Hlt Hinit Hvf Haf Hw Hh Hlen.
      apply (SampleMore.call_gives_sample core arg audio kwargs self _ k
               Hinit Hvf Haf Hw Hh Hkey);
        unfold VideoSource.n_frame in *; lia.
Qed.

End WithKey.
End RoundTrip.

(** ** The further properties on concrete inputs *)

(** A scene whose layer raises: the colour stream of the layer is two
    wide and its alpha stream four, so the layer's call raises
    [ValueError], and so does the bridge's, with the buffer untouched. *)
Lemma to_node_outcomes_witness :
  scene_call narrow_scene (scene memo_wrap) one
  = (Raise ValueError, scene memo_wrap) /\
  fst (Bridge._to_node narrow_scene 1 memo_wrap 1 0 [[0; 0]])
  = Raise ValueError /\
  snd (snd (Bridge._to_node narrow_scene 1 memo_wrap 1 0 [[0; 0]]))
  = [[0; 0]].
Proof.
  split; [vm_compute; reflexivity |].
  split; [vm_compute; reflexivity |].
  set (out := Bridge._to_node narrow_scene 1 memo_wrap 1 0 [[0; 0]]).
  assert (Hrun : out = (fst out, (fst (snd out), snd (snd out))))
    by (vm_compute; reflexivity).
  destruct (BridgeMore.to_node_outcomes narrow_scene 1 Z.eqb_refl memo_wrap
              _ 1 0 [[0; 0]] _ _ Hrun)
    as [[H _]
       | [(_ & _ & _ & Hdst)
         | [(e & time & s & _ & _ & _ & _ & Hdst)
           | [(_ & time & s & _ & _ & _ & Hdst)
             | (_ & time & frame & s & _ & _ & _ & Hdst)]]]].
  - vm_compute in H. discriminate.
  - exact Hdst.
  - exact Hdst.
  - exact Hdst.
  - exact Hdst.
Defined.

(** The last plane of the frame of index 3, whose samples are all 3. *)
Lemma to_node_writes_plane_witness :
  snd (snd (Bridge._to_node memo_scene 1 memo_wrap 3 (-1) [[0; 0]]))
  = [[3; 3]].
Proof.
  set (out := Bridge._to_node memo_scene 1 memo_wrap 3 (-1) [[0; 0]]).
  assert (Hrun : out = (Ok tt, (fst (snd out), snd (snd out))))
    by (vm_compute; reflexivity).
  destruct (BridgeMore.to_node_writes_plane memo_scene 1 Z.eqb_refl memo_wrap
              _ 3 (-1) [[0; 0]] _ Hrun)
    as (time & frame & s & src & Ht & Hcall & _ & Hsrc & _ & Hsame).
  vm_compute in Ht. injection Ht as <-.
  vm_compute in Hcall. injection Hcall as <- <-.
  vm_compute in Hsrc. injection Hsrc as <-.
  apply Hsame. split; [reflexivity |].
  apply Forall_cons; [reflexivity | apply Forall_nil].
Defined.

Lemma trim_keeps_newest_witness :
  exists old kept,
    Bridge.trim memo_scene 1 three_entries = (Ok tt, kept) /\
    three_entries = old ++ kept /\
    (old = [] \/
     (Z.of_nat (List.length old) = 1 /\ 1 < Z.of_nat (List.length kept))) /\
    (forall x, three_entries <> [] -> last kept x = last three_entries x).
Proof.
  apply (BridgeMore.trim_keeps_newest memo_scene 1 Z.eqb_refl three_entries).
  lia.
Defined.

Lemma time_of_defined_witness :
  exists time,
    Bridge.time_of memo_wrap 3 = Ok time /\
    Py.fvalid time = true /\
    (time = S754_zero false \/ exists m e, time = S754_finite false m e) /\
    (time = S754_zero false <-> 3 = 0).
Proof.
  refine (proj1 (BridgeMore.time_of_defined memo_scene 1 memo_wrap) _ _ 3 _).
  - vm_compute. split; reflexivity.
  - reflexivity.
  - lia.
Defined.

Lemma init_without_rate_errors_witness :
  Bridge.init memo_start None = Raise IndexError /\
  Bridge.init rateless_scene None = Raise AttributeError.
Proof.
  split.
  - exact (proj1 (BridgeMore.init_without_rate_errors memo_start) eq_refl).
  - refine (proj2 (BridgeMore.init_without_rate_errors rateless_scene)
              (OtherLayer None) [] eq_refl _ (or_introl eq_refl)).
    apply Forall_cons; [reflexivity | apply Forall_nil].
Defined.

Lemma variable_rate_has_no_keys_witness :
  VideoSource.duration source_vfr = Raise ZeroDivisionError /\
  VideoSource.get_key source_vfr one = Raise ZeroDivisionError /\
  VideoSource.call source_vfr one = Raise ZeroDivisionError.
Proof.
  destruct (SourceMore.variable_rate_has_no_keys source_vfr one eq_refl)
    as (Hd & _ & Hrest).
  split; [exact Hd | exact (Hrest eq_refl)].
Defined.

Lemma nonfinite_times_witness :
  VideoSource.get_key source_30_90 (S754_infinity false) = Ok (-1) /\
  VideoSource.call source_30_90 S754_nan = Raise ValueError.
Proof.
  destruct (SourceMore.nonfinite_times source_30_90 clip_30_90_cfr)
    as (Hinf & _ & Hnan).
  split; [exact (proj1 (Hinf false)) | exact Hnan].
Defined.

Lemma keys_up_to_last_witness :
  exists d kd,
    VideoSource.duration source_30_90 = Ok d /\
    VideoSource.get_key source_30_90 d = Ok kd /\ 0 <= kd /\
    (forall k, VideoSource.get_key source_30_90 one = Ok k -> -1 <= k <= kd).
Proof.
  destruct (SourceMore.keys_up_to_last source_30_90 clip_30_90_cfr)
    as (d & kd & Hd & Hlast & Hkd & _ & _ & Hall).
  exists d, kd. repeat split; try assumption;
    apply (Hall one k eq_refl H).
Defined.

(** The key of [3.0] is 90, the frame count: there is no sample. *)
Lemma call_absent_iff_witness :
  VideoSource.call source_30_90 three = Ok None.
Proof.
  apply (proj2 (SourceMore.call_absent_iff source_30_90 three) 90).
  - vm_compute. reflexivity.
  - right. vm_compute. discriminate.
Defined.

Lemma sample_planes_unaltered_witness :
  VideoSource.call source_24_48 one
  = Ok (Some [[[0; 0; 0; 0]; [0; 0; 0; 0]]; [[0; 0; 0; 0]; [0; 0; 0; 0]];
              [[0; 0; 0; 0]; [0; 0; 0; 0]];
              [[255; 255; 255; 255]; [255; 255; 255; 255]]]).
Proof.
  refine (SampleMore.sample_planes_unaltered plain_engine (OneNode clip_24_48)
            None (None, None) source_24_48 one 24 _ _ _ _ [] []
            source_24_48_init _ _ _ eq_refl eq_refl _ _).
  - vm_compute. reflexivity.
  - vm_compute. split; [discriminate | reflexivity].
  - reflexivity.
  - repeat (apply Forall_cons;
            [repeat (apply Forall_cons;
                     [repeat (apply Forall_cons; [lia |]); apply Forall_nil |]);
             apply Forall_nil |]);
      apply Forall_nil.
  - repeat (apply Forall_cons; [reflexivity |]); apply Forall_nil.
Defined.

Lemma sample_failures_witness :
  VideoSource.call source_narrow one = Raise ValueError.
Proof.
  refine (proj2 (proj2
            (SampleMore.sample_failures plain_engine (OneNode clip_24_48) None
               (Some 2, None) source_narrow one 24 eq_refl _ _))
            _ _ _ _ _ [] [] eq_refl eq_refl _).
  - vm_compute. reflexivity.
  - vm_compute. split; [discriminate | reflexivity].
  - reflexivity.
  - right. right. vm_compute. discriminate.
Defined.

Lemma clip_30_200_format : clip_of_format RGB24 (video_node source_30_200).
Proof.
  split; [reflexivity |]. intros n _. split; [reflexivity |].
  repeat (apply Forall_cons;
          [split; [reflexivity |];
           repeat (apply Forall_cons; [reflexivity |]); apply Forall_nil |]).
  apply Forall_nil.
Qed.

(** Frame 123 at 30 frames per second: the time [123 / 30] rounds to a
    float whose product with [30.0] is just below 123, and the key is
    122; the sample is there. *)
Lemma index_round_trip_witness :
  exists t arr,
    Bridge.time_of wrap_30 123 = Ok t /\
    VideoSource.get_key source_30_200 t = Ok 122 /\
    VideoSource.call source_30_200 t = Ok (Some arr) /\
    List.length arr = 4%nat.
Proof.
  assert (Hclip : cfr_clip (video_node source_30_200))
    by (vm_compute; repeat split; reflexivity).
  assert (Hn : 0 <= 123 <= VideoSource.n_frame source_30_200)
    by (vm_compute; split; discriminate).
  destruct (RoundTrip.index_round_trip source_30_200 wrap_30 123 Hclip
              eq_refl Hn)
    as (t & k & Ht & Hk & _ & _ & _ & Hsample).
  assert (Hlt : 123 < VideoSource.n_frame source_30_200)
    by (vm_compute; reflexivity).
  assert (Hlen : VideoSource.n_frame source_30_200
                 <= vn_num_frames (video_alpha_node source_30_200))
    by (vm_compute; discriminate).
  destruct (Hsample plain_engine (OneNode clip_30_200) None (None, None)
              Hlt eq_refl clip_30_200_format
              (blank_clip_of_format clip_30_200 GRAY8 255)
              eq_refl eq_refl Hlen)
    as (arr & Hcall & Harr).
  exists t, arr. split; [exact Ht |].
  split; [| split; [exact Hcall | exact Harr]].
  vm_compute in Ht. injection Ht as <-.
  vm_compute. reflexivity.
Defined.

Lemma init_outcomes_witness :
  VideoSource.audio source_24_48 = false /\
  VideoSource.has_audio source_24_48 = false.
Proof.
  pose proof (InitMore.init_outcomes plain_engine (OneNode clip_24_48) None
                (None, None)) as H.
  cbv zeta in H. rewrite source_24_48_init in H.
  destruct H as (_ & _ & _ & Haudio & Hhas).
  split; [| exact Hhas].
  destruct (VideoSource.audio source_24_48) eqn:Ha; [| reflexivity].
  exfalso. apply (proj1 Haudio eq_refl). reflexivity.
Defined.

(** The alpha plane of the frame of index 3, whose samples are all 3. *)
Lemma alpha_node_plane_witness :
  snd (snd (Bridge.alpha_node memo_scene 1 memo_wrap 3 [[0; 0]])) = [[3; 3]].
Proof.
  destruct (proj2 (AlphaMore.alpha_node_plane memo_scene 1 Z.eqb_refl
                     memo_wrap 3 [[0; 0]] three
                     (blank_frame (OtherFormat 4 8) 2 1 3)
                     (set_cache memo_start
                        [(3, blank_frame (OtherFormat 4 8) 2 1 3)])
                     eq_refl eq_refl)
              [[3; 3]] eq_refl)
    as [j Hj].
  - split; [reflexivity |].
    apply Forall_cons; [reflexivity | apply Forall_nil].
  - rewrite Hj. reflexivity.
Defined.
